(** * Resampling and per-cell correlation of two gridded time series

    A shallow embedding of the two computational cells of the notebook
    [5_spatiotemporal_correlation_analysis.ipynb]:

    - the resampling cell, which fills [fine_moisture] (a deep copy of
      [bare_soil]) with the zoomed time slices of [soil_moisture];
    - the correlation cells, which allocate the dataset [corr] and fill its
      four fields from a double loop over latitude and longitude.

    Conventions of the embedding.

    - A floating-point value is either not-a-number or a finite number; the
      finite ones are idealised as exact rationals, except where rounding
      decides which cell is read: the sample positions of the
      nearest-neighbour zoom are computed in binary64, as scipy computes
      them.
    - A labelled array is a record of its three coordinate axes and its
      values, a list of time slices, each a list of rows.
    - Python exceptions are the [Raise] results of an error monad.
    - The routines of scipy are not part of the notebook.  What
      [scipy.ndimage.zoom] does in Python before it interpolates, and its
      nearest-neighbour path (order 0), are written out; the evaluation of a
      spline of order 1 to 5 and the two routines of [scipy.stats] are
      variables of the sections below. *)

From Stdlib Require Import QArith Qround.
From stdpp Require Import numbers base tactics option list.

Set Default Proof Using "Type".
Local Open Scope Z_scope.

(** ** Floating-point values *)

Inductive float : Type :=
  | NaN
  | Num (q : Q).

(** [np.isnan] *)
Definition isnan (x : float) : bool :=
  match x with NaN => true | Num _ => false end.

(** [np.nan_to_num]: not-a-number becomes zero, a number stays. *)
Definition nan_to_num (x : float) : Q :=
  match x with NaN => 0%Q | Num q => q end.

(** [x < 0] on floats: false on not-a-number. *)
Definition ltz (x : float) : bool :=
  match x with NaN => false | Num q => negb (Qle_bool 0 q) end.

(** ** Exceptions and results *)

Inductive exn : Type :=
  | ValueError
  | KeyError
  | IndexError
  | RuntimeError
  | ZeroDivisionError
  | InvalidIndexError
  | NotImplementedError.

Inductive result (A : Type) : Type :=
  | Ok (a : A)
  | Raise (e : exn).
Arguments Ok {A} a.
Arguments Raise {A} e.

Global Instance result_ret : MRet result := fun A a => Ok a.
Global Instance result_bind : MBind result := fun A B f m =>
  match m with Ok a => f a | Raise e => Raise e end.

Definition returns {A} (m : result A) : Prop := exists a, m = Ok a.

(** ** Grids *)

Abbreviation grid A := (list (list A)).

Definition rect {A} (h w : nat) (g : grid A) : Prop :=
  length g = h /\ Forall (fun row => length row = w) g.

Definition shape {A} (g : grid A) : nat * nat :=
  (length g, match g with [] => 0%nat | row :: _ => length row end).

Definition cell {A} (g : grid A) (i j : nat) : option A :=
  g !! i ≫= fun row => row !! j.

Definition gmap2 {A B} (f : A -> B) (g : grid A) : grid B :=
  fmap (M := list) (fmap (M := list) f) g.

Definition tabulate {A} (h w : nat) (f : nat -> nat -> A) : grid A :=
  (fun i => f i <$> seq 0 w) <$> seq 0 h.

(** Boolean-mask assignment [a[mask] = v]; the mask is applied cell by cell. *)
Definition mask_row {A} (v : A) (mask : list bool) (row : list A) : list A :=
  zip_with (fun (m : bool) x => if m then v else x) mask row.

Definition mask_assign {A} (v : A) (mask : grid bool) (a : grid A) : grid A :=
  zip_with (mask_row v) mask a.

(** Equality test of two shapes. *)
Definition same_shape (s1 s2 : nat * nat) : bool :=
  (s1.1 =? s2.1)%nat && (s1.2 =? s2.2)%nat.

(** ** Labelled arrays *)

Global Instance Q_eq_dec : EqDecision Q.
Proof. solve_decision. Defined.

Record DataArray : Type := mkDataArray {
  time : list Z;
  latitude : list Q;
  longitude : list Q;
  values : list (grid float)
}.

(** The invariant xarray keeps: the values have one slice per time label, one
    row per latitude and one entry per longitude. *)
Definition wf (a : DataArray) : Prop :=
  length (values a) = length (time a) /\
  Forall (rect (length (latitude a)) (length (longitude a))) (values a).

(** Positions of a label in an index. *)
Fixpoint positions {L} `{EqDecision L} (label : L) (index : list L) (k : nat) : list nat :=
  match index with
  | [] => []
  | x :: rest =>
      if decide (x = label) then k :: positions label rest (S k)
      else positions label rest (S k)
  end.

(** Label lookup of [.sel]: the position of the label.  A label that is absent
    is a [KeyError].  A label that occurs more than once makes [.sel] return
    several entries instead of one, which the operations that follow in the
    notebook do not accept; the lookup reports that case itself. *)
Definition get_loc {L} `{EqDecision L} (index : list L) (label : L) : result nat :=
  match positions label index 0 with
  | [] => Raise KeyError
  | [k] => Ok k
  | _ => Raise InvalidIndexError
  end.

Definition item {A} (l : list A) (k : nat) : result A :=
  match l !! k with Some x => Ok x | None => Raise IndexError end.

(** [a.sel(time=t)]: one time slice. *)
Definition sel_time (a : DataArray) (t : Z) : result (grid float) :=
  k ← get_loc (time a) t; item (values a) k.

(** [a.sel(latitude=lat, longitude=lon)]: the time series at one cell. *)
Definition sel_cell (a : DataArray) (lat lon : Q) : result (list float) :=
  i ← get_loc (latitude a) lat;
  j ← get_loc (longitude a) lon;
  mapM (fun slice : grid float =>
          match cell slice i j with Some x => Ok x | None => Raise IndexError end)
       (values a).

(** [.sel] on a label that the index has more than once fails nowhere
    itself: it selects every entry of the label, and the failure is that of
    the first operation that is given several entries where it takes one.
    [several_as e] makes the report of the lookup the exception [e] of that
    operation. *)
Definition several_as {A} (e : exn) (m : result A) : result A :=
  match m with
  | Raise InvalidIndexError => Raise e
  | r => r
  end.

(** A [for] loop over a list that threads a state and stops at the first
    exception. *)
Fixpoint for_each {S X} (body : S -> X -> result S) (xs : list X) (s : S) : result S :=
  match xs with
  | [] => Ok s
  | x :: rest => s' ← body s x; for_each body rest s'
  end.

(** ** [scipy.ndimage.zoom] *)

(** Python's true division of two lengths. *)
Definition true_div (a b : nat) : result Q :=
  match b with
  | O => Raise ZeroDivisionError
  | S _ => Ok (Z.of_nat a # Pos.of_nat b)
  end.

(** Python's [round]: to the nearest integer, a tie to the even one. *)
Definition py_round (q : Q) : Z :=
  let f := Qfloor q in
  match (q - inject_Z f ?= 1 # 2)%Q with
  | Lt => f
  | Gt => f + 1
  | Eq => if Z.even f then f else f + 1
  end.

(** [int(round(ii * jj))], the output length along one axis. *)
Definition output_len (ii : nat) (jj : Q) : nat :=
  Z.to_nat (py_round (inject_Z (Z.of_nat ii) * jj)).

Definition output_shape (s : nat * nat) (zoom : Q * Q) : nat * nat :=
  (output_len s.1 zoom.1, output_len s.2 zoom.2).

(** Binary64.  [pow2 e] is the power [e] of two, and [spacing x] the
    exponent of the distance between the binary64 numbers around [x > 0]:
    53 significant bits, so the exponent of [x] less 52 (the first guess of
    the exponent, from the sizes of numerator and denominator, is right or
    one too small).  Overflow and underflow are left out, and the spacing is
    never taken above one half; it is one half or less for every number
    below [2 ^ 52], which a coordinate along an axis of an array that fits
    in memory is. *)
Definition pow2 (e : Z) : Q :=
  if 0 <=? e then inject_Z (2 ^ e) else 1 # Z.to_pos (2 ^ (- e)).

Definition spacing (x : Q) : Z :=
  let e := Z.log2 (Qnum x) - Z.log2 (Zpos (Qden x)) - 53 in
  let e := if Qle_bool (pow2 (e + 53)) x then e + 1 else e in
  Z.min e (-1).

(** Rounding to binary64 of a number that is not negative: to the nearest
    multiple of the spacing, a tie to the even one. *)
Definition binary64 (x : Q) : Q :=
  let x := Qred x in
  match Qnum x with
  | Zpos _ =>
      let e := spacing x in
      Qred (inject_Z (py_round (x * pow2 (- e))) * pow2 e)
  | _ => 0%Q
  end.

(** Order 0 along one axis, as [scipy.ndimage.zoom] computes it in binary64
    ([zoom = (n - 1) / (m - 1)], [cc = i * zoom], [floor(cc + 0.5)]): the
    step is the rounded quotient, 1 when [m - 1] is zero; the coordinate of
    output sample [i] of [m] is the rounded product of [i] and the step; a
    coordinate outside [0, n - 1] is outside the input ([None]: mode
    'constant'); otherwise the input sample that is read is the floor of the
    rounded sum of the coordinate and one half. *)
Definition nearest (n m i : nat) : option nat :=
  let n := Z.of_nat n in let m := Z.of_nat m in let i := Z.of_nat i in
  let step := if m - 1 =? 0 then 1%Q else binary64 ((n - 1) # Z.to_pos (m - 1)) in
  let cc := binary64 (inject_Z i * step) in
  if Qle_bool 0 cc && Qle_bool cc (inject_Z (n - 1))
  then Some (Z.to_nat (Qfloor (binary64 (cc + (1 # 2)))))
  else None.

(** A sample outside the input is the constant [cval] (mode 'constant'). *)
Definition pick {A} (cval : A) (l : list A) (k : Z) : A :=
  if k <? 0 then cval else default cval (l !! Z.to_nat k).

(** The output of order 0: every cell reads the input at the samples of its
    two positions, and is [cval] when one of them is outside the input. *)
Definition zoom_order0 {A} (cval : A) (input : grid A) (zoom : Q * Q) : grid A :=
  let s := shape input in
  let s' := output_shape s zoom in
  tabulate s'.1 s'.2 (fun i j =>
    match nearest s.1 s'.1 i, nearest s.2 s'.2 j with
    | Some p, Some q => default cval (cell input p q)
    | _, _ => cval
    end).

Section Aligner.

(** The value a spline of order 1 to 5, fitted to [input], takes at the
    output sample [(i, j)] of an output of the given shape. *)
Variable spline : nat -> grid Q -> nat * nat -> nat -> nat -> Q.

(** [ndzoom(input, zoom=zoom, order=order)] on a grid of numbers. *)
Definition ndzoom (input : grid Q) (zoom : Q * Q) (order : nat) : result (grid Q) :=
  if (5 <? order)%nat then Raise RuntimeError
  else if (order =? 0)%nat then Ok (zoom_order0 0%Q input zoom)
  else
    let s' := output_shape (shape input) zoom in
    Ok (tabulate s'.1 s'.2 (spline order input s')).

(** [ndzoom(mask, zoom=zoom, order=0)] on a grid of booleans. *)
Definition ndzoom_mask (input : grid bool) (zoom : Q * Q) : grid bool :=
  zoom_order0 false input zoom.

(** [ZOOM_FACTOR] *)
Definition ZOOM_FACTOR (bare_soil soil_moisture : DataArray) : result (Q * Q) :=
  zy ← true_div (length (latitude bare_soil)) (length (latitude soil_moisture));
  zx ← true_div (length (longitude bare_soil)) (length (longitude soil_moisture));
  Ok (zy, zx).

(** [fine[:] = output]: the shapes have to agree.  (numpy would also accept
    an output with an axis of length one and repeat it; [ndzoom] returns
    none here, see [output_shape_zoom_factor].) *)
Definition assign_all (fine : grid float) (output : grid Q) : result (grid float) :=
  if same_shape (shape fine) (shape output) then Ok (gmap2 Num output)
  else Raise ValueError.

(** [fine.values[fine.values < 0] = 0] *)
Definition clamp (fine : grid float) : grid float :=
  mask_assign (Num 0) (gmap2 ltz fine) fine.

(** [fine.values[mask] = np.nan]: a boolean index has the shape of the
    array it indexes. *)
Definition set_nan (mask : grid bool) (fine : grid float) : result (grid float) :=
  if same_shape (shape fine) (shape mask) then Ok (mask_assign NaN mask fine)
  else Raise IndexError.

(** The body of the loop over time stamps.  [fine] is a view of
    [fine_moisture], so what is written to it is written to the slice of
    [fine_moisture] it was selected from.  Several slices of [soil_moisture]
    at one stamp are an input of rank 3, which [ndzoom] refuses for a zoom
    of two factors ([RuntimeError]); several slices of [bare_soil] make a
    mask of rank 3, which cannot index the slice ([IndexError]); the stamps
    of [fine_moisture] are those of [soil_moisture], looked up before. *)
Definition resample_step (SPLINE_ORDER : nat) (zoom : Q * Q)
    (bare_soil soil_moisture : DataArray)
    (fine_moisture : DataArray) (timestamp : Z) : result DataArray :=
  data ← several_as RuntimeError (sel_time soil_moisture timestamp);
  output ← ndzoom (gmap2 nan_to_num data) zoom SPLINE_ORDER;
  k ← get_loc (time fine_moisture) timestamp;
  fine ← item (values fine_moisture) k;
  fine ← assign_all fine output;
  let fine := clamp fine in
  hi ← several_as IndexError (sel_time bare_soil timestamp);
  fine ← set_nan (gmap2 isnan hi) fine;
  fine ← set_nan (ndzoom_mask (gmap2 isnan data) zoom) fine;
  Ok (mkDataArray (time fine_moisture) (latitude fine_moisture)
        (longitude fine_moisture) (<[k := fine]> (values fine_moisture))).

(** [fine_moisture['time'] = soil_moisture.time]: a coordinate keeps the
    length of its dimension. *)
Definition set_time (a : DataArray) (t : list Z) : result DataArray :=
  if (length t =? length (time a))%nat
  then Ok (mkDataArray t (latitude a) (longitude a) (values a))
  else Raise ValueError.

(** The resampling cell: it returns [fine_moisture]. *)
Definition grid_aligner (SPLINE_ORDER : nat) (bare_soil soil_moisture : DataArray)
    : result DataArray :=
  fine_moisture ← set_time bare_soil (time soil_moisture);
  zoom ← ZOOM_FACTOR bare_soil soil_moisture;
  for_each (resample_step SPLINE_ORDER zoom bare_soil soil_moisture)
           (time fine_moisture) fine_moisture.

End Aligner.

(** ** The correlation cells *)

(** A slot of a buffer made by [np.ndarray(shape)]: what it holds before
    anything is stored in it is whatever the memory held. *)
Inductive slot : Type :=
  | Garbage
  | Stored (x : float).

(** The dataset [corr]: the two coordinates and the four fields. *)
Record Dataset : Type := mkDataset {
  corr_latitude : list Q;
  corr_longitude : list Q;
  pearson_r : grid slot;
  pearson_p : grid slot;
  spearman_r : grid slot;
  spearman_p : grid slot
}.

(** [np.ndarray([h, w])] *)
Definition np_ndarray (h w : nat) : grid slot :=
  replicate h (replicate w Garbage).

(** The cell that sets up [corr]: coordinates and buffer shapes are those of
    [bare_soil]. *)
Definition new_corr (bare_soil : DataArray) : Dataset :=
  let buffer := np_ndarray (length (latitude bare_soil)) (length (longitude bare_soil)) in
  mkDataset (latitude bare_soil) (longitude bare_soil) buffer buffer buffer buffer.

(** [try: body except ValueError: handler] *)
Definition try_except_ValueError {A} (body handler : result A) : result A :=
  match body with
  | Raise ValueError => handler
  | r => r
  end.

(** [arr[..., k]] for [arr = np.array(latout)], a list of rows of 4-tuples:
    an array without rows or without columns has no last axis of length 4 to
    index. *)
Definition last_axis (arr : grid (list float)) (k : nat) : result (grid float) :=
  match arr with
  | [] | [] :: _ => Raise IndexError
  | _ => mapM (mapM (fun val : list float => item val k)) arr
  end.

(** numpy's broadcasting along one axis: a list of the length of the axis
    stays as it is, a list of one entry is repeated, any other list does
    not fit. *)
Definition broadcast {A} (n : nat) (l : list A) : option (list A) :=
  if (length l =? n)%nat then Some l
  else match l with [x] => Some (replicate n x) | _ => None end.

(** [field[:] = g]: [g] is broadcast to the shape of [field], along the
    longitudes and along the latitudes; a [g] that cannot be is a
    [ValueError]. *)
Definition store_all (field : grid slot) (g : grid float) : result (grid slot) :=
  let s := shape field in
  match mapM (broadcast s.2) g ≫= broadcast s.1 with
  | Some g' => Ok (gmap2 Stored g')
  | None => Raise ValueError
  end.

Section Mapper.

(** [scipy.stats.pearsonr] and [scipy.stats.spearmanr]: each returns the pair
    of a coefficient and a p-value, or raises. *)
Variable pearsonr : list float -> list float -> result (float * float).
Variable spearmanr : list float -> list float -> result (float * float).

(** The body of the inner loop up to [lonout.append(val)]: the tuple [val]. *)
Definition cell_val (fine_moisture bare_soil : DataArray) (lat lon : Q)
    : result (list float) :=
  x ← sel_cell fine_moisture lat lon;
  y ← sel_cell bare_soil lat lon;
  rp ← pearsonr x y;
  let val := [rp.1; rp.2] in
  try_except_ValueError
    (x ← sel_cell fine_moisture lat lon;
     y ← sel_cell bare_soil lat lon;
     rp' ← spearmanr x y;
     Ok (val ++ [rp'.1; rp'.2]))
    (Ok (val ++ [NaN; NaN])).

(** [lonout.append(val)]: [lonout] is the list appended last to [latout], so
    the append is seen through [latout]. *)
Definition append_val (latout : grid (list float)) (val : list float)
    : grid (list float) :=
  alter (fun lonout => lonout ++ [val]) (pred (length latout)) latout.

Definition lon_step (fine_moisture bare_soil : DataArray) (lat : Q)
    (latout : grid (list float)) (lon : Q) : result (grid (list float)) :=
  val ← cell_val fine_moisture bare_soil lat lon;
  Ok (append_val latout val).

Definition lat_step (fine_moisture bare_soil : DataArray)
    (latout : grid (list float)) (lat : Q) : result (grid (list float)) :=
  for_each (lon_step fine_moisture bare_soil lat) (longitude fine_moisture)
           (latout ++ [[]]).

(** The double loop: it returns [latout]. *)
Definition correlation_loop (fine_moisture bare_soil : DataArray)
    : result (grid (list float)) :=
  for_each (lat_step fine_moisture bare_soil) (latitude fine_moisture) [].

(** The two correlation cells: allocation, loop and the four stores. *)
Definition correlation_mapper (fine_moisture bare_soil : DataArray) : result Dataset :=
  let corr := new_corr bare_soil in
  arr ← correlation_loop fine_moisture bare_soil;
  a0 ← last_axis arr 0;
  f0 ← store_all (pearson_r corr) a0;
  a1 ← last_axis arr 1;
  f1 ← store_all (pearson_p corr) a1;
  a2 ← last_axis arr 2;
  f2 ← store_all (spearman_r corr) a2;
  a3 ← last_axis arr 3;
  f3 ← store_all (spearman_p corr) a3;
  Ok (mkDataset (corr_latitude corr) (corr_longitude corr) f0 f1 f2 f3).

End Mapper.

(** ** Executable instances of the library routines

    The closed examples at the end of the file run the two cells on concrete
    arrays, so they need concrete routines in place of the section variables.
    The instances below are exact and cover only part of what scipy does:
    - [Standin.linear] is the spline of order 1 (linear interpolation between
      the two neighbouring samples along each axis), used for every order
      from 1 to 5;
    - [Standin.pearsonr] and [Standin.spearmanr] answer on the inputs for
      which the answer is a rational number that needs no distribution
      function: the degenerate inputs, and series that are exactly collinear
      (coefficient 1 or -1, p-value 0 from three observations on; for two
      observations 1 from [pearsonr] and not-a-number from [spearmanr]).
      On any other input they raise [NotImplementedError], which no example
      relies on. *)
Module Standin.

Definition frac_coord (n m i : nat) : Q :=
  if (Z.of_nat m - 1 =? 0) then inject_Z (Z.of_nat i)
  else (inject_Z (Z.of_nat i) * ((Z.of_nat n - 1) # Z.to_pos (Z.of_nat m - 1)))%Q.

Definition linear (_ : nat) (input : grid Q) (s' : nat * nat) (i j : nat) : Q :=
  let s := shape input in
  let cy := frac_coord s.1 s'.1 i in
  let cx := frac_coord s.2 s'.2 j in
  let ky := Qfloor cy in
  let kx := Qfloor cx in
  let fy := (cy - inject_Z ky)%Q in
  let fx := (cx - inject_Z kx)%Q in
  let at_ (y x : Z) := pick 0%Q (pick [] input y) x in
  let a00 := at_ ky kx in
  let a01 := at_ ky (kx + 1) in
  let a10 := at_ (ky + 1) kx in
  let a11 := at_ (ky + 1) (kx + 1) in
  Qred ((1 - fy) * ((1 - fx) * a00 + fx * a01)
        + fy * ((1 - fx) * a10 + fx * a11))%Q.

Definition number (x : float) : option Q :=
  match x with NaN => None | Num q => Some q end.

Definition qsum (l : list Q) : Q := foldr Qplus 0%Q l.

Definition mean (l : list Q) : Q :=
  (qsum l / inject_Z (Z.of_nat (length l)))%Q.

(** Sum of the products of the deviations from the means. *)
Definition codev (x y : list Q) : Q :=
  let mx := mean x in
  let my := mean y in
  qsum (zip_with (fun a b => ((a - mx) * (b - my))%Q) x y).

(** Ranks, a tie taking the mean of the ranks it covers. *)
Definition rank (x : list Q) (a : Q) : Q :=
  let below := length (List.filter (fun b => negb (Qle_bool a b)) x) in
  let equal := length (List.filter (fun b => Qeq_bool b a) x) in
  (inject_Z (Z.of_nat below) + (inject_Z (Z.of_nat equal) + 1) / 2)%Q.

Definition ranks (x : list Q) : list Q := map (rank x) x.

(** The answer on two series of numbers of equal length, at least 2;
    [on_constant] is the answer when one of them has no variance, and
    [p_of_two] the p-value of two observations. *)
Definition collinear_case (on_constant : result (float * float)) (p_of_two : float)
    (x y : list Q) : result (float * float) :=
  let sxx := codev x x in
  let syy := codev y y in
  let sxy := codev x y in
  if Qeq_bool sxx 0 || Qeq_bool syy 0 then on_constant
  else if Qeq_bool (sxy * sxy) (sxx * syy) then
    let r := if Qle_bool 0 sxy then 1%Q else (-1)%Q in
    let p := if (length x =? 2)%nat then p_of_two else Num 0 in
    Ok (Num r, p)
  else Raise NotImplementedError.

(** As [scipy.stats.pearsonr] does: fewer than two observations are a
    [ValueError] ("x and y must have length at least 2"); a not-a-number in
    either series gives not-a-number; so does a series without variance. *)
Definition pearsonr (x y : list float) : result (float * float) :=
  if negb (length x =? length y)%nat then Raise ValueError
  else if (length x <? 2)%nat then Raise ValueError
  else
    match mapM number x, mapM number y with
    | Some xs, Some ys => collinear_case (Ok (NaN, NaN)) (Num 1) xs ys
    | _, _ => Ok (NaN, NaN)
    end.

(** The same on the ranks, not-a-number passing through as under
    [nan_policy='propagate'], and the p-value of two observations being
    not-a-number.  On a series without variance this stand-in raises
    [ValueError] (scipy's routine, depending on its version, warns and
    answers not-a-number there), so that the examples go through the
    [except] clause of the notebook. *)
Definition spearmanr (x y : list float) : result (float * float) :=
  if negb (length x =? length y)%nat then Raise ValueError
  else if (length x <? 2)%nat then Ok (NaN, NaN)
  else
    match mapM number x, mapM number y with
    | Some xs, Some ys => collinear_case (Raise ValueError) NaN (ranks xs) (ranks ys)
    | _, _ => Ok (NaN, NaN)
    end.

End Standin.


(** ** Other cells of the notebook *)

(** A Python index into an axis of length [n]: a negative index counts from
    the end, an index outside [-n, n) is an [IndexError]. *)
Definition py_index (n : nat) (k : Z) : result nat :=
  if (0 <=? k) && (k <? Z.of_nat n) then Ok (Z.to_nat k)
  else if (- Z.of_nat n <=? k) && (k <? 0) then Ok (Z.to_nat (Z.of_nat n + k))
  else Raise IndexError.

(** [a.isel(latitude=_lat, longitude=_lon)]: the time series at a position
    of the grid. *)
Definition isel_cell (a : DataArray) (_lat _lon : Z) : result (list float) :=
  i ← py_index (length (latitude a)) _lat;
  j ← py_index (length (longitude a)) _lon;
  mapM (fun slice : grid float =>
          match cell slice i j with Some x => Ok x | None => Raise IndexError end)
       (values a).







(** The label of an entry of a flattened array: time, latitude, longitude. *)
Definition label3 : Type := Z * Q * Q.

(** [data.to_series()]: one entry per cell, labelled, in the order of the
    axes (time, then latitude, then longitude).  The three functions follow
    the three axes; under the invariant [wf] no [zip_with] cuts anything
    off. *)
Definition row_series (t : Z) (la : Q) (lons : list Q) (row : list float)
    : list (label3 * float) :=
  zip_with (fun lo x => ((t, la, lo), x)) lons row.

Definition slice_series (t : Z) (lats lons : list Q) (slice : grid float)
    : list (label3 * float) :=
  concat (zip_with (fun la row => row_series t la lons row) lats slice).

Definition to_series (a : DataArray) : list (label3 * float) :=
  concat (zip_with (fun t slice => slice_series t (latitude a) (longitude a) slice)
                   (time a) (values a)).

(** A column assigned to a frame that has an index ([df[name] = series] on
    a frame with rows): the values of the series as they are when its index
    is the index of the frame; otherwise the series reindexed, which is a
    [ValueError] for a series with a repeated label, and gives not-a-number
    at a label the series does not have. *)
Definition reindex (index : list label3) (s : list (label3 * float)) : result (list float) :=
  if decide (s.*1 = index) then Ok s.*2
  else if decide (NoDup s.*1) then
    mapM (fun l =>
            match positions l s.*1 0 with
            | [] => Ok NaN
            | k :: _ => item s.*2 k
            end) index
  else Raise ValueError.

(** The frame [df] before [dropna]: a row is a label and the entries of the
    two columns, [bare_soil_fraction] and [soil_moisture_mm].  The first
    assignment, to the empty frame, gives the frame the index of the series
    of [bare_soil]; the second one is aligned to that index.  A frame that
    has no row after the first assignment takes the index of the second
    series, with nothing but not-a-number in its first column. *)
Definition dataframe (bare_soil fine_moisture : DataArray)
    : result (list (label3 * (float * float))) :=
  let first := to_series bare_soil in
  let second := to_series fine_moisture in
  match first with
  | [] => Ok (zip second.*1 (zip (replicate (length second) NaN) second.*2))
  | _ :: _ =>
      column ← reindex first.*1 second;
      Ok (zip first.*1 (zip first.*2 column))
  end.

(** [df.dropna()]: the rows without a missing entry. *)
Definition dropna (df : list (label3 * (float * float))) : list (label3 * (float * float)) :=
  List.filter (fun row => negb (isnan row.2.1 || isnan row.2.2)) df.

(** ** Vocabulary of the statements *)

(** The inputs the resampling cell runs through on: an order [ndzoom] knows,
    two arrays that keep the invariant of labelled arrays, a source grid that
    is not empty, and time axes of one length, without repeated stamps, the
    stamps of [soil_moisture] being stamps of [bare_soil]. *)
Record resamplable (SPLINE_ORDER : nat) (bare_soil soil_moisture : DataArray) : Prop := {
  rs_order : (SPLINE_ORDER <= 5)%nat;
  rs_bare : wf bare_soil;
  rs_soil : wf soil_moisture;
  rs_length : length (time soil_moisture) = length (time bare_soil);
  rs_stamps : NoDup (time soil_moisture);
  rs_ref_stamps : NoDup (time bare_soil);
  rs_ref_has : Forall (fun t => t ∈ time bare_soil) (time soil_moisture);
  rs_lat : (0 < length (latitude soil_moisture))%nat;
  rs_lon : (0 < length (longitude soil_moisture))%nat
}.

(** The two mask assignments that end the loop body, on the slice [fine]:
    [hi] is the slice of [bare_soil], [data] the slice of [soil_moisture]. *)
Definition remask (zoom : Q * Q) (hi data fine : grid float) : grid float :=
  mask_assign NaN (zoom_order0 false (gmap2 isnan data) zoom)
    (mask_assign NaN (gmap2 isnan hi) fine).

(** Missing at a cell. *)
Definition missing (g : grid float) (i j : nat) : Prop :=
  cell g i j = Some NaN.

(** Marked at a cell of a mask. *)
Definition marked (mask : grid bool) (i j : nat) : Prop :=
  cell mask i j = Some true.

(** The clamp on one value. *)
Definition clamp_value (x : float) : float :=
  if ltz x then Num 0 else x.

(** What one run of the loop body leaves in the slice of its time stamp:
    [s] is made from the slice [data] of [soil_moisture] at the stamp [ts]. *)
Definition slice_for (spline : nat -> list (list Q) -> nat * nat -> nat -> nat -> Q)
    (SPLINE_ORDER : nat) (bare_soil soil_moisture : DataArray)
    (ts : Z) (data s : grid float) : Prop :=
  let H := length (latitude bare_soil) in
  let W := length (longitude bare_soil) in
  let zoom : Q * Q :=
    (Z.of_nat H # Pos.of_nat (length (latitude soil_moisture)),
     Z.of_nat W # Pos.of_nat (length (longitude soil_moisture))) in
  exists hi output,
    sel_time bare_soil ts = Ok hi /\ rect H W hi /\
    ndzoom spline (gmap2 nan_to_num data) zoom SPLINE_ORDER = Ok output /\
    rect H W output /\
    s = remask zoom hi data (clamp (gmap2 Num output)).

(** The state of the loop over the time stamps: [fine] keeps the stamps of
    [soil_moisture], the grid of [bare_soil] and slices of that grid. *)
Definition loop_state (bare_soil soil_moisture fine : DataArray) : Prop :=
  time fine = time soil_moisture /\
  latitude fine = latitude bare_soil /\
  longitude fine = longitude bare_soil /\
  length (values fine) = length (time soil_moisture) /\
  Forall (rect (length (latitude bare_soil)) (length (longitude bare_soil)))
         (values fine).

(** The table of a double loop that ran through: one tuple per pair of a
    latitude and a longitude of [fine_moisture], in the order of the axes. *)
Definition table_of
    (pearsonr spearmanr : list float -> list float -> result (float * float))
    (fine_moisture bare_soil : DataArray) (arr : grid (list float)) : Prop :=
  Forall2 (fun lat row =>
             Forall2 (fun lon val =>
                        cell_val pearsonr spearmanr fine_moisture bare_soil lat lon
                        = Ok val)
                     (longitude fine_moisture) row)
          (latitude fine_moisture) arr.

(** Entry [k] of the tuples of the table, stored in a field: every position
    of the table that the field has holds entry [k] of the tuple at that
    position. *)
Definition field_of (k : nat) (arr : grid (list float)) (field : grid slot) : Prop :=
  forall i j val,
    cell arr i j = Some val -> is_Some (cell field i j) ->
    exists v, val !! k = Some v /\ cell field i j = Some (Stored v).

(** The sentences of the specification that the notebook does not satisfy as
    they stand, written out so that they can be evaluated on an input. *)

(** "Output and reference have exactly the same missing cells": at every time
    stamp the slice of the output and the slice of the reference are missing
    at the same cells. *)
Definition same_missing_cells (fine_moisture bare_soil : DataArray) : Prop :=
  forall ts s hi,
    sel_time fine_moisture ts = Ok s ->
    sel_time bare_soil ts = Ok hi ->
    forall i j, missing s i j <-> missing hi i j.

(** "Resampling onto its own grid returns the original values": every value
    of the original that is not missing is the value of the same cell of the
    result. *)
Definition values_preserved (original result_ : DataArray) : Prop :=
  forall k s0 s i j q,
    values original !! k = Some s0 ->
    values result_ !! k = Some s ->
    cell s0 i j = Some (Num q) ->
    exists q', cell s i j = Some (Num q') /\ (q' == q)%Q.

(** "Each 2 x 2 block of the output equals the single source pixel of that
    block", for an output slice [s] and a source slice [data]. *)
Definition blocks_equal_pixels (s data : grid float) : Prop :=
  forall p q d a b,
    cell data p q = Some d -> (a < 2)%nat -> (b < 2)%nat ->
    cell s (2 * p + a) (2 * q + b) = Some d.

(** "No error escapes the per-cell loop". *)
Definition fault_isolated
    (pearsonr spearmanr : list float -> list float -> result (float * float))
    (fine_moisture bare_soil : DataArray) : Prop :=
  returns (correlation_loop pearsonr spearmanr fine_moisture bare_soil).

(** The paired observations in which neither value is missing. *)
Definition complete_pairs (x y : list float) : list float * list float :=
  let kept := List.filter (fun ab : float * float => negb (isnan ab.1 || isnan ab.2))
                          (zip x y) in
  (kept.*1, kept.*2).

(** "The four values recorded at a cell are the statistics of the paired
    observations in which neither series is missing". *)
Definition excludes_missing_pairs
    (pearsonr spearmanr : list float -> list float -> result (float * float))
    (fine_moisture bare_soil : DataArray) (corr : Dataset) : Prop :=
  forall i j lat lon x y,
    latitude fine_moisture !! i = Some lat ->
    longitude fine_moisture !! j = Some lon ->
    sel_cell fine_moisture lat lon = Ok x ->
    sel_cell bare_soil lat lon = Ok y ->
    exists r p rs ps,
      pearsonr (complete_pairs x y).1 (complete_pairs x y).2 = Ok (r, p) /\
      spearmanr (complete_pairs x y).1 (complete_pairs x y).2 = Ok (rs, ps) /\
      cell (pearson_r corr) i j = Some (Stored r) /\
      cell (pearson_p corr) i j = Some (Stored p) /\
      cell (spearman_r corr) i j = Some (Stored rs) /\
      cell (spearman_p corr) i j = Some (Stored ps).

(** ** Arrays of the closed examples *)

Global Instance rect_dec {A} h w (g : grid A) : Decision (rect h w g).
Proof. unfold rect. apply _. Defined.

Global Instance wf_dec a : Decision (wf a).
Proof. unfold wf. apply _. Defined.

(** Two flattened series are alike when they carry the same labels, entry by
    entry, and related values. *)
Definition alike (R : float -> float -> Prop) (s s' : list (label3 * float)) : Prop :=
  s.*1 = s'.*1 /\ Forall2 R s.*2 s'.*2.

Module Example.

Definition N (z : Z) : float := Num (inject_Z z).

Definition axis (n : nat) : list Q := (fun k => inject_Z (Z.of_nat k)) <$> seq 0 n.

Definition stamps (n : nat) : list Z := Z.of_nat <$> seq 0 n.

(** Two years on a 4 x 4 grid, one cell missing in the first year. *)
Definition bare_soil : DataArray :=
  mkDataArray (stamps 2) (axis 4) (axis 4)
    [ [ [N 7; N 7; N 7; N 7]; [N 7; N 7; N 7; NaN];
        [N 7; N 7; N 7; N 7]; [N 7; N 7; N 7; N 7] ];
      [ [N 8; N 8; N 8; N 8]; [N 8; N 8; N 8; N 8];
        [N 8; N 8; N 8; N 8]; [N 8; N 8; N 8; N 8] ] ].

(** The same two years on a 2 x 2 grid, with a negative value in the first
    year and a missing one in the second. *)
Definition soil_moisture : DataArray :=
  mkDataArray (stamps 2) (axis 2) (axis 2)
    [ [ [N 1; N 2]; [N 3; N (-4)] ];
      [ [NaN; N 2]; [N 3; N 4] ] ].

(** One year on a 2 x 2 grid, to be resampled onto its own grid. *)
Definition own_grid : DataArray :=
  mkDataArray (stamps 1) (axis 2) (axis 2) [ [ [N 1; N (-1)]; [NaN; N 3] ] ].

(** The scenario of the specification: shapes (12, 4, 4) and (12, 2, 2). *)
Definition bare_soil_12 : DataArray :=
  mkDataArray (stamps 12) (axis 4) (axis 4) (replicate 12 (replicate 4 (replicate 4 (N 7)))).

Definition soil_moisture_12 : DataArray :=
  mkDataArray (stamps 12) (axis 2) (axis 2)
    (replicate 12 [ [N 1; N 2]; [N 3; N (-4)] ]).

(** Three years on a grid of one latitude and two longitudes.  At the first
    cell [fine_3] does not vary; at the second the two series are collinear. *)
Definition fine_3 : DataArray :=
  mkDataArray (stamps 3) (axis 1) (axis 2)
    [ [ [N 5; N 1] ]; [ [N 5; N 2] ]; [ [N 5; N 3] ] ].

Definition bare_3 : DataArray :=
  mkDataArray (stamps 3) (axis 1) (axis 2)
    [ [ [N 1; N 2] ]; [ [N 2; N 4] ]; [ [N 3; N 6] ] ].

(** The same as [fine_3] and [bare_3] at the second cell, other series at
    the first. *)
Definition fine_3' : DataArray :=
  mkDataArray (stamps 3) (axis 1) (axis 2)
    [ [ [N 1; N 1] ]; [ [N 2; N 2] ]; [ [N 3; N 3] ] ].

Definition bare_3' : DataArray :=
  mkDataArray (stamps 3) (axis 1) (axis 2)
    [ [ [N 3; N 2] ]; [ [N 2; N 4] ]; [ [N 1; N 6] ] ].

(** A single year on a single cell. *)
Definition fine_1 : DataArray :=
  mkDataArray (stamps 1) (axis 1) (axis 1) [ [ [N 5] ] ].

Definition bare_1 : DataArray :=
  mkDataArray (stamps 1) (axis 1) (axis 1) [ [ [N 7] ] ].

(** Four years on a single cell, the second year missing in both arrays. *)
Definition fine_gap : DataArray :=
  mkDataArray (stamps 4) (axis 1) (axis 1)
    [ [ [N 1] ]; [ [NaN] ]; [ [N 2] ]; [ [N 3] ] ].

Definition bare_gap : DataArray :=
  mkDataArray (stamps 4) (axis 1) (axis 1)
    [ [ [N 2] ]; [ [NaN] ]; [ [N 4] ]; [ [N 6] ] ].

(** Three years: a 2 x 2 reference with one missing cell, and a source of a
    single cell. *)
Definition bare_pipe : DataArray :=
  mkDataArray (stamps 3) (axis 2) (axis 2)
    [ [ [NaN; N 1]; [N 1; N 1] ];
      [ [N 2; N 2]; [N 2; N 2] ];
      [ [N 3; N 3]; [N 3; N 3] ] ].

Definition soil_pipe : DataArray :=
  mkDataArray (stamps 3) (axis 1) (axis 1) [ [ [N 2] ]; [ [N 4] ]; [ [N 6] ] ].

End Example.

(** Further arrays, for the examples of the other cells. *)
Module Sample.

Import Example.

(** The source of the two-year example with another second year, one the
    reference does not have. *)
Definition soil_other_year : DataArray :=
  mkDataArray [0; 5] (axis 2) (axis 2)
    [ [ [N 1; N 2]; [N 3; N (-4)] ];
      [ [NaN; N 2]; [N 3; N 4] ] ].

(** The reference of the two-year example in percent, as it is before the
    division by 100: other values, the same missing cell. *)
Definition bare_soil_percent : DataArray :=
  mkDataArray (stamps 2) (axis 4) (axis 4)
    [ [ [N 700; N 700; N 700; N 700]; [N 700; N 700; N 700; NaN];
        [N 700; N 700; N 700; N 700]; [N 700; N 700; N 700; N 700] ];
      [ [N 800; N 800; N 800; N 800]; [N 800; N 800; N 800; N 800];
        [N 800; N 800; N 800; N 800]; [N 800; N 800; N 800; N 800] ] ].

(** Arrays of one year without a cell. *)
Definition no_cells : DataArray := mkDataArray (stamps 1) [] [] [ [] ].

(** [bare_3] with another label at its second longitude. *)
Definition bare_shifted : DataArray :=
  mkDataArray (stamps 3) (axis 1) [0; 7]%Q
    [ [ [N 1; N 2] ]; [ [N 2; N 4] ]; [ [N 3; N 6] ] ].

(** One year, fifteen rows onto twenty-six, of one column: the last row of
    the source is missing, the reference has every cell. *)
Definition soil_15 : DataArray :=
  mkDataArray (stamps 1) (axis 15) (axis 1) [ replicate 14 [N 1] ++ [ [NaN] ] ].

Definition bare_26 : DataArray :=
  mkDataArray (stamps 1) (axis 26) (axis 1) [ replicate 26 [N 7] ].

(** A reference of two latitudes for [fine_3], which has one: the first
    latitude holds the series of [bare_3]. *)
Definition bare_two_rows : DataArray :=
  mkDataArray (stamps 3) (axis 2) (axis 2)
    [ [ [N 1; N 2]; [N 9; N 9] ];
      [ [N 2; N 4]; [N 9; N 9] ];
      [ [N 3; N 6]; [N 9; N 9] ] ].

End Sample.

(** * Properties *)

(** ** The error monad *)

Lemma bind_Ok {A B} (m : result A) (f : A -> result B) (b : B) :
  m ≫= f = Ok b <-> exists a, m = Ok a /\ f a = Ok b.
Proof.
  destruct m as [a|e]; simpl; split.
  - intros H. by exists a.
  - by intros (a' & [= <-] & H).
  - intros [=].
  - by intros (a' & [=] & _).
Qed.

Ltac inv_bind H :=
  repeat match type of H with
  | _ ≫= _ = Ok _ =>
      let x := fresh "x" in let Hx := fresh "Hx" in
      apply bind_Ok in H as (x & Hx & H)
  end.

Lemma several_as_Ok {A} (e : exn) (m : result A) (a : A) :
  several_as e m = Ok a <-> m = Ok a.
Proof. destruct m as [a'|[]]; simpl; split; done. Qed.

(** ** Grids *)

Section Grids.
Context {A B : Type}.
Implicit Types (g : grid A) (f : A -> B) (mask : grid bool).

Lemma rect_length h w g : rect h w g -> length g = h.
Proof. by intros [? _]. Qed.

Lemma rect_row h w g i row :
  rect h w g -> g !! i = Some row -> length row = w.
Proof. intros [_ Hrows] Hi. by eapply (Forall_lookup_1 _ _ _ _ Hrows Hi). Qed.

Lemma rect_shape h w g : rect h w g -> (0 < h)%nat -> shape g = (h, w).
Proof.
  intros [Hlen Hrows] Hh. unfold shape. rewrite Hlen. f_equal.
  destruct g as [|row g]; simpl in *; [lia|]. by inversion Hrows.
Qed.

Lemma rect_same_shape {C} h w g (g' : grid C) :
  rect h w g -> rect h w g' -> same_shape (shape g) (shape g') = true.
Proof.
  intros [Hl Hr] [Hl' Hr']. unfold same_shape, shape. simpl.
  rewrite Hl, Hl'. rewrite Nat.eqb_refl. simpl.
  destruct g as [|row g], g' as [|row' g']; simpl in *; try lia.
  inversion Hr; inversion Hr'; subst. apply Nat.eqb_eq. congruence.
Qed.

Lemma rect_gmap2 h w g f : rect h w g -> rect h w (gmap2 f g).
Proof.
  intros [Hl Hr]. split.
  - unfold gmap2. by rewrite length_fmap.
  - unfold gmap2. apply Forall_fmap. eapply Forall_impl; [exact Hr|].
    intros row Hrow. simpl. by rewrite length_fmap.
Qed.

Lemma rect_tabulate h w (fn : nat -> nat -> A) : rect h w (tabulate h w fn).
Proof.
  split.
  - unfold tabulate. by rewrite length_fmap, length_seq.
  - unfold tabulate. apply Forall_fmap, Forall_lookup. intros k i _. simpl.
    by rewrite length_fmap, length_seq.
Qed.

Lemma rect_mask_assign h w (v : A) mask g :
  rect h w mask -> rect h w g -> rect h w (mask_assign v mask g).
Proof.
  intros [Hl Hr] [Hl' Hr']. split.
  - unfold mask_assign. rewrite length_zip_with. lia.
  - unfold mask_assign. apply Forall_lookup. intros i row Hi.
    apply lookup_zip_with_Some in Hi as (mrow & grow & -> & Hm & Hg).
    unfold mask_row. rewrite length_zip_with.
    rewrite (Forall_lookup_1 _ _ _ _ Hr Hm), (Forall_lookup_1 _ _ _ _ Hr' Hg). lia.
Qed.

Lemma cell_gmap2 f g i j : cell (gmap2 f g) i j = f <$> cell g i j.
Proof.
  unfold cell, gmap2. rewrite list_lookup_fmap.
  destruct (g !! i) as [row|]; simpl; [|done]. by rewrite list_lookup_fmap.
Qed.

Lemma cell_tabulate h w (fn : nat -> nat -> A) i j :
  (i < h)%nat -> (j < w)%nat -> cell (tabulate h w fn) i j = Some (fn i j).
Proof.
  intros Hi Hj. unfold cell, tabulate. rewrite list_lookup_fmap.
  rewrite lookup_seq_lt by done. simpl. rewrite list_lookup_fmap.
  by rewrite lookup_seq_lt.
Qed.

Lemma cell_mask_assign (v : A) mask g i j :
  cell (mask_assign v mask g) i j =
    (m ← cell mask i j; x ← cell g i j; Some (if m : bool then v else x)).
Proof.
  unfold cell, mask_assign. rewrite lookup_zip_with.
  destruct (mask !! i) as [mrow|]; simpl; [|done].
  destruct (g !! i) as [grow|]; simpl.
  - unfold mask_row. rewrite lookup_zip_with.
    destruct (mrow !! j); simpl; [|done]. by destruct (grow !! j).
  - by destruct (mrow !! j).
Qed.

Lemma cell_rect_is_Some h w g i j :
  rect h w g -> (i < h)%nat -> (j < w)%nat -> is_Some (cell g i j).
Proof.
  intros Hr Hi Hj. unfold cell.
  destruct (lookup_lt_is_Some_2 g i) as [row Hrow]; [by rewrite (rect_length _ _ _ Hr)|].
  rewrite Hrow. simpl. apply lookup_lt_is_Some_2.
  by rewrite (rect_row _ _ _ _ _ Hr Hrow).
Qed.

Lemma cell_rect_lt h w g i j x :
  rect h w g -> cell g i j = Some x -> (i < h)%nat /\ (j < w)%nat.
Proof.
  intros Hr Hc. unfold cell in Hc.
  destruct (g !! i) as [row|] eqn:Hrow; [|done]. simpl in Hc. split.
  - rewrite <- (rect_length _ _ _ Hr). by eapply lookup_lt_Some.
  - rewrite <- (rect_row _ _ _ _ _ Hr Hrow). by eapply lookup_lt_Some.
Qed.

End Grids.

(** ** Label lookup *)

Section Labels.
Context {L : Type} `{EqDecision L}.
Implicit Types (index : list L) (label : L).

Lemma positions_spec label index k0 k :
  k ∈ positions label index k0 <->
  (k0 <= k)%nat /\ index !! (k - k0)%nat = Some label.
Proof.
  revert k0. induction index as [|x index IH]; intros k0; simpl.
  - rewrite elem_of_nil. split; [done|]. by intros [_ ?].
  - destruct (decide (x = label)) as [->|Hne].
    + rewrite elem_of_cons, IH. split.
      * intros [->|[Hle Hk]].
        -- split; [lia|]. by replace (k0 - k0)%nat with 0%nat by lia.
        -- split; [lia|]. by replace (k - k0)%nat with (S (k - S k0)) by lia.
      * intros [Hle Hk]. destruct (decide (k = k0)) as [->|Hkk]; [by left|right].
        split; [lia|]. by replace (k - k0)%nat with (S (k - S k0)) in Hk by lia.
    + rewrite IH. split.
      * intros [Hle Hk]. split; [lia|].
        by replace (k - k0)%nat with (S (k - S k0)) by lia.
      * intros [Hle Hk]. destruct (decide (k = k0)) as [->|Hkk].
        -- replace (k0 - k0)%nat with 0%nat in Hk by lia. simpl in Hk. congruence.
        -- split; [lia|]. by replace (k - k0)%nat with (S (k - S k0)) in Hk by lia.
Qed.

Lemma positions_absent label index k0 :
  label ∉ index -> positions label index k0 = [].
Proof.
  revert k0. induction index as [|x index IH]; intros k0 Hnot; simpl; [done|].
  apply not_elem_of_cons in Hnot as [Hne Hnot].
  destruct (decide (x = label)); [congruence|]. by apply IH.
Qed.

Lemma positions_NoDup label index k0 k :
  NoDup index -> index !! k = Some label ->
  positions label index k0 = [(k0 + k)%nat].
Proof.
  revert k0 k. induction index as [|x index IH]; intros k0 k Hnd Hk; [done|].
  apply NoDup_cons in Hnd as [Hx Hnd]. simpl.
  destruct k as [|k]; simpl in Hk.
  - injection Hk as ->. rewrite decide_True by done.
    rewrite positions_absent by done. f_equal. lia.
  - rewrite decide_False.
    + rewrite (IH (S k0) k) by done. f_equal. lia.
    + intros ->. apply Hx. by eapply list_elem_of_lookup_2.
Qed.

(** A label of an index without repetition is found where it stands. *)
Lemma get_loc_NoDup index label k :
  NoDup index -> index !! k = Some label -> get_loc index label = Ok k.
Proof.
  intros Hnd Hk. unfold get_loc. by rewrite (positions_NoDup _ _ 0 k).
Qed.

(** What the lookup returns is a position of the label. *)
Lemma get_loc_Ok index label k :
  get_loc index label = Ok k -> index !! k = Some label.
Proof.
  unfold get_loc. intros Hg.
  destruct (positions label index 0) as [|k' [|? ?]] eqn:Hp; try done.
  injection Hg as ->.
  assert (k ∈ positions label index 0) as Hin by (rewrite Hp; left).
  apply positions_spec in Hin as [_ Hin]. by rewrite Nat.sub_0_r in Hin.
Qed.

Lemma get_loc_elem index label :
  NoDup index -> label ∈ index -> exists k, get_loc index label = Ok k.
Proof.
  intros Hnd Hin. apply list_elem_of_lookup in Hin as [k Hk].
  exists k. by apply get_loc_NoDup.
Qed.

End Labels.

(** ** Output shape and nearest sample *)

Lemma py_round_integer (q : Q) (z : Z) : (q == inject_Z z)%Q -> py_round q = z.
Proof.
  intros Hq. unfold py_round.
  assert (Qfloor q = z) as Hf by (rewrite Hq; apply Qfloor_Z).
  rewrite Hf.
  assert ((q - inject_Z z ?= 1 # 2)%Q = Lt) as ->; [|done].
  rewrite <- Qlt_alt. rewrite Hq. unfold Qminus. rewrite Qplus_opp_r. reflexivity.
Qed.

(** [int(round(n * (m / n)))] is [m]. *)
Lemma output_len_ratio (n m : nat) :
  (0 < n)%nat -> output_len n (Z.of_nat m # Pos.of_nat n) = m.
Proof.
  intros Hn. unfold output_len.
  rewrite (py_round_integer _ (Z.of_nat m)); [apply Nat2Z.id|].
  unfold Qeq, Qmult, inject_Z. simpl.
  rewrite Pos2Z.inj_mul. simpl.
  assert (Z.pos (Pos.of_nat n) = Z.of_nat n) as ->.
  { destruct n; [lia|]. rewrite <- Pos.of_nat_succ. lia. }
  lia.
Qed.

(** ** Binary64 and the samples of order 0 *)

Lemma py_round_bounds (q : Q) : Qfloor q <= py_round q <= Qfloor q + 1.
Proof.
  unfold py_round. destruct (_ ?= _)%Q; [destruct (Z.even _)| |]; lia.
Qed.

(** Rounding does not go past an integer. *)
Lemma py_round_le (q : Q) (z : Z) : (q <= inject_Z z)%Q -> py_round q <= z.
Proof.
  intros Hq.
  destruct (Qlt_le_dec q (inject_Z z)) as [Hlt|Hge].
  - pose proof (py_round_bounds q) as [_ Hup].
    assert (Qfloor q < z); [|lia].
    apply Z.lt_nge. intros Hz.
    pose proof (Qfloor_le q) as Hfl.
    rewrite Zle_Qle in Hz.
    apply (Qlt_not_le _ _ Hlt). by eapply Qle_trans.
  - rewrite (py_round_integer q z); [lia|]. by apply Qle_antisym.
Qed.

Lemma pow2_neg (s : Z) : 0 < s -> pow2 (- s) = 1 # Z.to_pos (2 ^ s).
Proof.
  intros Hs. unfold pow2.
  destruct (0 <=? - s) eqn:H; [apply Z.leb_le in H; lia|].
  by rewrite Z.opp_involutive.
Qed.

Lemma pow2_nonneg (s : Z) : 0 <= s -> pow2 s = inject_Z (2 ^ s).
Proof.
  intros Hs. unfold pow2.
  destruct (0 <=? s) eqn:H; [done|apply Z.leb_gt in H; lia].
Qed.

Lemma spacing_le (x : Q) : spacing x <= -1.
Proof. unfold spacing. apply Z.le_min_r. Qed.

Lemma binary64_comp (x y : Q) : (x == y)%Q -> binary64 x = binary64 y.
Proof. intros Hxy. unfold binary64. by rewrite (Qred_complete x y Hxy). Qed.

Lemma binary64_nonneg (x : Q) : (0 <= binary64 x)%Q.
Proof.
  unfold binary64. destruct (Qnum (Qred x)) as [|p|p] eqn:Hn; [done| |done].
  rewrite Qred_correct.
  set (e := spacing (Qred x)). pose proof (spacing_le (Qred x)) as He. fold e in He.
  assert (pow2 e = 1 # Z.to_pos (2 ^ (- e))) as ->.
  { rewrite <- (Z.opp_involutive e) at 1. apply pow2_neg. lia. }
  rewrite pow2_nonneg by lia.
  apply Qmult_le_0_compat; [|done].
  assert (0 <= py_round (Qred x * inject_Z (2 ^ (- e))))%Z as Hr; [|by rewrite Zle_Qle in Hr].
  pose proof (py_round_bounds (Qred x * inject_Z (2 ^ (- e)))) as [Hlow _].
  assert (0 <= Qfloor (Qred x * inject_Z (2 ^ (- e)))); [|lia].
  rewrite <- (Qfloor_Z 0). apply Qfloor_resp_le.
  apply Qmult_le_0_compat.
  - unfold Qle. simpl. rewrite Hn. lia.
  - rewrite <- (Zle_Qle 0). apply Z.pow_nonneg. lia.
Qed.

(** A multiple of one half that is not negative is a binary64 number. *)
Lemma binary64_half (x : Q) (k : Z) :
  0 <= k -> (x == k # 2)%Q -> (binary64 x == x)%Q.
Proof.
  intros Hk Hx. unfold binary64.
  pose proof (Qred_correct x) as Hred.
  destruct (Qnum (Qred x)) as [|p|p] eqn:Hn.
  - rewrite <- Hred. unfold Qeq. simpl. rewrite Hn. lia.
  - rewrite Qred_correct.
    set (e := spacing (Qred x)). pose proof (spacing_le (Qred x)) as He. fold e in He.
    assert (pow2 e = 1 # Z.to_pos (2 ^ (- e))) as Hp.
    { rewrite <- (Z.opp_involutive e) at 1. apply pow2_neg. lia. }
    assert (2 ^ (- e) = 2 * 2 ^ (- e - 1)) as Hpow.
    { rewrite <- Z.pow_succ_r by lia. f_equal. lia. }
    rewrite (py_round_integer _ (k * 2 ^ (- e - 1))).
    + rewrite Hp, Hx. unfold Qeq, Qmult, inject_Z. simpl.
      rewrite ?Pos.mul_1_l, ?Pos.mul_1_r, ?Z2Pos.id by (apply Z.pow_pos_nonneg; lia).
      rewrite Hpow. lia.
    + rewrite Hred, Hx, pow2_nonneg by lia.
      unfold Qeq, Qmult, inject_Z. simpl.
      rewrite Hpow. lia.
  - exfalso. assert (Qred x < 0)%Q as Hneg by (unfold Qlt; simpl; rewrite Hn; lia).
    rewrite Hred, Hx in Hneg. unfold Qlt in Hneg. simpl in Hneg. lia.
Qed.

(** Rounding does not go past a multiple of one half. *)
Lemma binary64_le_half (x : Q) (k : Z) :
  (0 <= x)%Q -> (x <= k # 2)%Q -> (binary64 x <= k # 2)%Q.
Proof.
  intros H0 Hx. unfold binary64.
  pose proof (Qred_correct x) as Hred.
  destruct (Qnum (Qred x)) as [|p|p] eqn:Hn.
  - by eapply Qle_trans.
  - rewrite Qred_correct.
    set (e := spacing (Qred x)). pose proof (spacing_le (Qred x)) as He. fold e in He.
    assert (pow2 e = 1 # Z.to_pos (2 ^ (- e))) as Hp.
    { rewrite <- (Z.opp_involutive e) at 1. apply pow2_neg. lia. }
    assert (2 ^ (- e) = 2 * 2 ^ (- e - 1)) as Hpow.
    { rewrite <- Z.pow_succ_r by lia. f_equal. lia. }
    assert (py_round (Qred x * pow2 (- e)) <= k * 2 ^ (- e - 1)) as Hr.
    { apply py_round_le. rewrite Hred, pow2_nonneg by lia.
      assert (inject_Z (k * 2 ^ (- e - 1)) == (k # 2) * inject_Z (2 ^ (- e)))%Q as ->.
      { unfold Qeq, Qmult, inject_Z. simpl.
        rewrite Hpow. lia. }
      apply Qmult_le_compat_r; [done|].
      rewrite <- (Zle_Qle 0). apply Z.pow_nonneg. lia. }
    set (r := py_round _) in *.
    rewrite Hp. unfold Qle, Qmult, inject_Z. simpl.
    rewrite ?Pos.mul_1_l, ?Pos.mul_1_r, ?Z2Pos.id by (apply Z.pow_pos_nonneg; lia).
    rewrite Hpow. lia.
  - by eapply Qle_trans.
Qed.

(** The sample that is read is a sample of the input. *)
Lemma nearest_range (n m i p : nat) : nearest n m i = Some p -> (p < n)%nat.
Proof.
  unfold nearest.
  set (cc := binary64 _).
  destruct (Qle_bool 0 cc && Qle_bool cc (inject_Z (Z.of_nat n - 1))) eqn:Hin; [|done].
  intros [= <-]. apply andb_true_iff in Hin as [H0 Hup].
  apply Qle_bool_iff in H0. apply Qle_bool_iff in Hup.
  assert (binary64 (cc + (1 # 2)) <= (2 * Z.of_nat n - 1) # 2)%Q as Hle.
  { apply binary64_le_half.
    { apply Qle_trans with cc; [exact H0|]. rewrite <- (Qplus_0_r cc) at 1.
      by apply Qplus_le_r. }
    assert ((2 * Z.of_nat n - 1) # 2 == inject_Z (Z.of_nat n - 1) + (1 # 2))%Q as ->.
    { unfold Qeq, Qplus, inject_Z. simpl. lia. }
    by apply Qplus_le_l. }
  pose proof (binary64_nonneg (cc + (1 # 2))) as Hpos.
  assert (0 <= Qfloor (binary64 (cc + (1 # 2))) < Z.of_nat n); [|lia].
  split.
  - rewrite <- (Qfloor_Z 0). by apply Qfloor_resp_le.
  - apply Z.lt_nge. intros Hge.
    pose proof (Qfloor_le (binary64 (cc + (1 # 2)))) as Hfl.
    rewrite Zle_Qle in Hge.
    assert (inject_Z (Z.of_nat n) <= (2 * Z.of_nat n - 1) # 2)%Q as Habs.
    { eapply Qle_trans; [exact Hge|]. eapply Qle_trans; [exact Hfl|exact Hle]. }
    unfold Qle, inject_Z in Habs. simpl in Habs. lia.
Qed.

(** At zoom factor 1 every output sample reads the input sample of its own
    position. *)
Lemma nearest_same (n i : nat) : (i < n)%nat -> nearest n n i = Some i.
Proof.
  intros Hi. unfold nearest.
  assert (binary64 (inject_Z (Z.of_nat i)
            * (if Z.of_nat n - 1 =? 0 then 1%Q
               else binary64 ((Z.of_nat n - 1) # Z.to_pos (Z.of_nat n - 1))))
          == inject_Z (Z.of_nat i))%Q as Hcc.
  { assert ((if Z.of_nat n - 1 =? 0 then 1%Q
             else binary64 ((Z.of_nat n - 1) # Z.to_pos (Z.of_nat n - 1))) == 1)%Q as Hstep.
    { destruct (Z.of_nat n - 1 =? 0) eqn:Hn; [done|]. apply Z.eqb_neq in Hn.
      assert ((Z.of_nat n - 1) # Z.to_pos (Z.of_nat n - 1) == 2 # 2)%Q as Hone.
      { unfold Qeq. simpl. rewrite Z2Pos.id by lia. lia. }
      rewrite (binary64_half _ 2); [by rewrite Hone|lia|done]. }
    assert (inject_Z (Z.of_nat i) * (if Z.of_nat n - 1 =? 0 then 1%Q
              else binary64 ((Z.of_nat n - 1) # Z.to_pos (Z.of_nat n - 1)))
            == inject_Z (Z.of_nat i))%Q as Hprod.
    { rewrite Hstep. apply Qmult_1_r. }
    rewrite (binary64_half _ (2 * Z.of_nat i)); [done|lia|].
    rewrite Hprod. unfold Qeq, inject_Z. simpl. lia. }
  set (cc := binary64 _) in *.
  assert (Qle_bool 0 cc && Qle_bool cc (inject_Z (Z.of_nat n - 1)) = true) as ->.
  { apply andb_true_iff. split; apply Qle_bool_iff; rewrite Hcc.
    - rewrite <- (Zle_Qle 0). lia.
    - rewrite <- Zle_Qle. lia. }
  f_equal.
  assert (binary64 (cc + (1 # 2)) == (2 * Z.of_nat i + 1) # 2)%Q as Hhalf.
  { assert (cc + (1 # 2) == (2 * Z.of_nat i + 1) # 2)%Q as Hsum.
    { rewrite Hcc. unfold Qeq, Qplus, inject_Z. simpl. lia. }
    rewrite (binary64_half _ (2 * Z.of_nat i + 1)); [done|lia|done]. }
  rewrite Hhalf.
  assert (Qfloor ((2 * Z.of_nat i + 1) # 2) = Z.of_nat i) as ->; [|apply Nat2Z.id].
  unfold Qfloor. simpl. symmetry. apply (Z.div_unique _ _ _ 1); lia.
Qed.

Lemma zoom_order0_rect {A} (cval : A) (input : grid A) zoom h w :
  rect h w input -> (0 < h)%nat ->
  rect (output_shape (h, w) zoom).1 (output_shape (h, w) zoom).2
       (zoom_order0 cval input zoom).
Proof.
  intros Hr Hh. unfold zoom_order0. rewrite (rect_shape _ _ _ Hr Hh).
  apply rect_tabulate.
Qed.

Lemma true_div_pos (a b : nat) :
  (0 < b)%nat -> true_div a b = Ok (Z.of_nat a # Pos.of_nat b).
Proof. intros Hb. destruct b; [lia|done]. Qed.

Lemma item_Ok {A} (l : list A) k x : l !! k = Some x -> item l k = Ok x.
Proof. unfold item. by intros ->. Qed.

Lemma item_inv {A} (l : list A) k x : item l k = Ok x -> l !! k = Some x.
Proof. unfold item. destruct (l !! k); [by intros [= ->]|done]. Qed.

Lemma wf_slice a k s :
  wf a -> values a !! k = Some s ->
  rect (length (latitude a)) (length (longitude a)) s.
Proof. intros [_ Hall] Hk. by eapply (Forall_lookup_1 _ _ _ _ Hall Hk). Qed.

(** A cell of the output of order 0 is the input cell at the samples of its
    two positions, and [cval] when one of them is outside the input. *)
Lemma cell_zoom_order0 {A} (cval : A) (input : grid A) zoom h w H W i j :
  rect h w input -> (0 < h)%nat -> (0 < w)%nat ->
  output_shape (h, w) zoom = (H, W) ->
  (i < H)%nat -> (j < W)%nat ->
  cell (zoom_order0 cval input zoom) i j
  = match nearest h H i, nearest w W j with
    | Some p, Some q => cell input p q
    | _, _ => Some cval
    end.
Proof.
  intros Hr Hh Hw Hs Hi Hj. unfold zoom_order0.
  rewrite (rect_shape _ _ _ Hr Hh), Hs. simpl.
  rewrite cell_tabulate by done.
  destruct (nearest h H i) as [p|] eqn:Hp; [|done].
  destruct (nearest w W j) as [q|] eqn:Hq; [|done].
  apply nearest_range in Hp. apply nearest_range in Hq.
  destruct (cell_rect_is_Some h w input p q Hr Hp Hq) as [x Hx].
  by rewrite Hx.
Qed.

Section AlignerFacts.

Variable spline : nat -> grid Q -> nat * nat -> nat -> nat -> Q.
Variable SPLINE_ORDER : nat.
Variables bare_soil soil_moisture : DataArray.
Hypothesis inputs : resamplable SPLINE_ORDER bare_soil soil_moisture.

Let H := length (latitude bare_soil).
Let W := length (longitude bare_soil).
Let h := length (latitude soil_moisture).
Let w := length (longitude soil_moisture).
Let zoom : Q * Q := (Z.of_nat H # Pos.of_nat h, Z.of_nat W # Pos.of_nat w).

Lemma ZOOM_FACTOR_value : ZOOM_FACTOR bare_soil soil_moisture = Ok zoom.
Proof using inputs.
  unfold ZOOM_FACTOR. destruct inputs.
  rewrite !true_div_pos by done. reflexivity.
Qed.

(** The shape [ndzoom] gives its output is the shape of the target grid. *)
Lemma output_shape_zoom_factor : output_shape (h, w) zoom = (H, W).
Proof using inputs.
  destruct inputs. unfold output_shape, zoom. simpl.
  by rewrite !output_len_ratio.
Qed.

Lemma ndzoom_rect (input : grid Q) :
  rect h w input ->
  exists output, ndzoom spline input zoom SPLINE_ORDER = Ok output /\ rect H W output.
Proof using inputs.
  intros Hr. pose proof output_shape_zoom_factor as Hs.
  assert (0 < h)%nat as Hh by (destruct inputs; done).
  unfold ndzoom.
  destruct (5 <? SPLINE_ORDER)%nat eqn:Ho.
  { apply Nat.ltb_lt in Ho. destruct inputs. lia. }
  destruct (SPLINE_ORDER =? 0)%nat.
  - eexists. split; [done|].
    pose proof (zoom_order0_rect 0%Q input zoom h w Hr Hh) as Hz.
    by rewrite Hs in Hz.
  - eexists. split; [done|].
    rewrite (rect_shape _ _ _ Hr Hh), Hs. apply rect_tabulate.
Qed.

(** The cells of the output of [ndzoom]: at order 0 the input cell at the
    samples of the two positions, zero when a sample is outside the input;
    at the other orders the value of the spline. *)
Lemma ndzoom_cells (input output : grid Q) i j :
  rect h w input ->
  ndzoom spline input zoom SPLINE_ORDER = Ok output ->
  (i < H)%nat -> (j < W)%nat ->
  cell output i j
  = if (SPLINE_ORDER =? 0)%nat
    then match nearest h H i, nearest w W j with
         | Some p, Some q => cell input p q
         | _, _ => Some 0%Q
         end
    else Some (spline SPLINE_ORDER input (H, W) i j).
Proof using inputs.
  intros Hr Hz Hi Hj. pose proof output_shape_zoom_factor as Hs.
  assert (0 < h)%nat as Hh by (destruct inputs; done).
  assert (0 < w)%nat as Hw by (destruct inputs; done).
  unfold ndzoom in Hz.
  destruct (5 <? SPLINE_ORDER)%nat; [done|].
  destruct (SPLINE_ORDER =? 0)%nat.
  - injection Hz as <-. by apply (cell_zoom_order0 0%Q input zoom h w H W).
  - rewrite (rect_shape _ _ _ Hr Hh), Hs in Hz. simpl in Hz.
    injection Hz as <-. by apply cell_tabulate.
Qed.

Lemma mask_rect (data : grid float) :
  rect h w data -> rect H W (ndzoom_mask (gmap2 isnan data) zoom).
Proof using inputs.
  intros Hr. assert (0 < h)%nat as Hh by (destruct inputs; done).
  pose proof (zoom_order0_rect false (gmap2 isnan data) zoom h w
                (rect_gmap2 _ _ _ _ Hr) Hh) as Hz.
  by rewrite output_shape_zoom_factor in Hz.
Qed.

Local Abbreviation slice_of := (slice_for spline SPLINE_ORDER bare_soil soil_moisture).
Local Abbreviation in_loop := (loop_state bare_soil soil_moisture).

Lemma clamp_rect (fine : grid float) : rect H W fine -> rect H W (clamp fine).
Proof. intros Hr. unfold clamp. apply rect_mask_assign; [by apply rect_gmap2|done]. Qed.

Lemma slice_for_rect ts data s : rect h w data -> slice_of ts data s -> rect H W s.
Proof using inputs.
  intros Hd (hi & output & _ & Hhi & _ & Hout & ->). unfold remask.
  apply rect_mask_assign; [by apply mask_rect|].
  apply rect_mask_assign; [by apply rect_gmap2|].
  apply clamp_rect. by apply rect_gmap2.
Qed.

Lemma resample_step_Ok fine k ts data :
  in_loop fine ->
  time soil_moisture !! k = Some ts ->
  values soil_moisture !! k = Some data ->
  exists s, slice_of ts data s /\
    resample_step spline SPLINE_ORDER zoom bare_soil soil_moisture fine ts
    = Ok (mkDataArray (time fine) (latitude fine) (longitude fine)
            (<[k := s]> (values fine))).
Proof using inputs.
  intros (Ht & Hlat & Hlon & Hlen & Hall) Hts Hdata.
  pose proof inputs as [Ho Hb Hs Hl Hnd Hndb Hhas Hlat0 Hlon0].
  assert (rect h w data) as Hrd by (by eapply wf_slice).
  destruct (ndzoom_rect (gmap2 nan_to_num data)) as (output & Hz & Hro);
    [by apply rect_gmap2|].
  assert (ts ∈ time bare_soil) as Hin.
  { eapply (Forall_lookup_1 _ _ _ _ Hhas Hts). }
  destruct (get_loc_elem _ _ Hndb Hin) as (kb & Hkb).
  pose proof (get_loc_Ok _ _ _ Hkb) as Hkb'.
  destruct (lookup_lt_is_Some_2 (values bare_soil) kb) as [hi Hhi].
  { destruct Hb as [-> _]. by eapply lookup_lt_Some. }
  assert (rect H W hi) as Hrhi by (by eapply wf_slice).
  destruct (lookup_lt_is_Some_2 (values fine) k) as [cur Hcur].
  { rewrite Hlen. by eapply lookup_lt_Some. }
  assert (rect H W cur) as Hrcur by (eapply (Forall_lookup_1 _ _ _ _ Hall Hcur)).
  eexists. split.
  - exists hi, output. split; [|split; [done|split; [done|split; [done|reflexivity]]]].
    unfold sel_time. rewrite Hkb. simpl. by apply item_Ok.
  - unfold resample_step, sel_time.
    rewrite (get_loc_NoDup _ _ _ Hnd Hts). simpl.
    rewrite (item_Ok _ _ _ Hdata). simpl. rewrite Hz. simpl.
    rewrite Ht, (get_loc_NoDup _ _ _ Hnd Hts). simpl.
    rewrite (item_Ok _ _ _ Hcur). simpl.
    unfold assign_all.
    rewrite (rect_same_shape H W cur output) by done. simpl.
    rewrite Hkb. simpl. rewrite (item_Ok _ _ _ Hhi). simpl.
    unfold set_nan.
    rewrite (rect_same_shape H W (clamp (gmap2 Num output)) (gmap2 isnan hi));
      [|by apply clamp_rect, rect_gmap2|by apply rect_gmap2].
    simpl.
    rewrite (rect_same_shape H W _ (ndzoom_mask (gmap2 isnan data) zoom));
      [|apply rect_mask_assign; [by apply rect_gmap2|by apply clamp_rect, rect_gmap2]
       |by apply mask_rect].
    simpl. reflexivity.
Qed.

Lemma loop_state_insert fine k s :
  in_loop fine -> rect H W s ->
  in_loop (mkDataArray (time fine) (latitude fine) (longitude fine)
                (<[k := s]> (values fine))).
Proof.
  intros (Ht & Hlat & Hlon & Hlen & Hall) Hs. repeat split; simpl; try done.
  - by rewrite length_insert.
  - by apply Forall_insert.
Qed.

(** The loop over the time stamps, from any point of the axis on: the slices
    before that point are left as they are, each slice from that point on is
    the one the loop body makes for its stamp. *)
Lemma resample_loop todo : forall done fine,
  time soil_moisture = done ++ todo ->
  in_loop fine ->
  exists fine',
    for_each (resample_step spline SPLINE_ORDER zoom bare_soil soil_moisture) todo fine
      = Ok fine' /\
    in_loop fine' /\
    (forall k, (k < length done)%nat -> values fine' !! k = values fine !! k) /\
    (forall k ts data, (length done <= k)%nat ->
       time soil_moisture !! k = Some ts ->
       values soil_moisture !! k = Some data ->
       exists s, slice_of ts data s /\ values fine' !! k = Some s).
Proof using inputs.
  induction todo as [|ts todo IH]; intros done fine Hsplit Hst.
  - exists fine. split; [done|split; [done|split; [done|]]].
    intros k ts data Hk Hts _. apply lookup_lt_Some in Hts.
    rewrite Hsplit, length_app in Hts. simpl in Hts. lia.
  - assert (time soil_moisture !! length done = Some ts) as Hts.
    { rewrite Hsplit. by rewrite list_lookup_middle. }
    destruct (lookup_lt_is_Some_2 (values soil_moisture) (length done)) as [data Hdata].
    { destruct inputs as [_ _ [-> _] _ _ _ _ _ _]. by eapply lookup_lt_Some. }
    destruct (resample_step_Ok fine _ _ _ Hst Hts Hdata) as (s & Hs & Hstep).
    assert (rect H W s) as Hrs.
    { eapply slice_for_rect; [|exact Hs]. destruct inputs. by eapply wf_slice. }
    pose proof (loop_state_insert fine (length done) s Hst Hrs) as Hst1.
    assert (time soil_moisture = (done ++ [ts]) ++ todo) as Hsplit'.
    { by rewrite <- app_assoc. }
    destruct (IH (done ++ [ts]) _ Hsplit' Hst1)
      as (fine' & Hloop & Hst' & Hbefore & Hafter).
    exists fine'. split; [|split; [done|split]].
    + simpl. rewrite Hstep. simpl. exact Hloop.
    + intros k Hk. rewrite Hbefore by (rewrite length_app; simpl; lia).
      simpl. apply list_lookup_insert_ne. lia.
    + intros k ts' data' Hk Hts' Hdata'.
      destruct (decide (k = length done)) as [->|Hne].
      * rewrite Hts in Hts'. rewrite Hdata in Hdata'.
        injection Hts' as <-. injection Hdata' as <-.
        exists s. split; [done|].
        rewrite Hbefore by (rewrite length_app; simpl; lia). simpl.
        apply list_lookup_insert_eq.
        destruct Hst as (_ & _ & _ & -> & _). by eapply lookup_lt_Some.
      * apply (Hafter k ts' data'); [|done|done].
        rewrite length_app. simpl. lia.
Qed.

(** On inputs it runs through on, the resampling cell returns an array with
    the stamps of [soil_moisture] and the grid of [bare_soil], and every
    slice is the one the loop body makes for its stamp. *)
Lemma grid_aligner_Ok :
  exists fine_moisture,
    grid_aligner spline SPLINE_ORDER bare_soil soil_moisture = Ok fine_moisture /\
    in_loop fine_moisture /\
    (forall k ts data,
       time soil_moisture !! k = Some ts ->
       values soil_moisture !! k = Some data ->
       exists s, slice_of ts data s /\ values fine_moisture !! k = Some s).
Proof using inputs.
  pose proof inputs as [Ho Hb Hs Hl Hnd Hndb Hhas Hlat0 Hlon0].
  set (fine0 := mkDataArray (time soil_moisture) (latitude bare_soil)
                  (longitude bare_soil) (values bare_soil)).
  assert (in_loop fine0) as Hst0.
  { repeat split; simpl; try done.
    - destruct Hb as [-> _]. done.
    - by destruct Hb. }
  destruct (resample_loop (time soil_moisture) [] fine0 eq_refl Hst0)
    as (fine & Hloop & Hst & _ & Hafter).
  exists fine. split; [|split; [done|]].
  - unfold grid_aligner, set_time. rewrite Hl, Nat.eqb_refl. simpl.
    rewrite ZOOM_FACTOR_value. simpl. exact Hloop.
  - intros k ts data. apply Hafter. simpl. lia.
Qed.

End AlignerFacts.

(** ** Cells of a resampled slice *)

Lemma cell_clamp (fine : grid float) i j :
  cell (clamp fine) i j = clamp_value <$> cell fine i j.
Proof.
  unfold clamp. rewrite cell_mask_assign, cell_gmap2.
  destruct (cell fine i j) as [x|]; simpl; [|done].
  unfold clamp_value. by destruct (ltz x).
Qed.

Lemma clamp_value_not_nan (x : float) : isnan x = false -> isnan (clamp_value x) = false.
Proof. unfold clamp_value. by destruct x as [|q]; simpl; [|destruct (Qle_bool 0 q)]. Qed.

Lemma clamp_value_nonneg (x : float) (q : Q) :
  clamp_value x = Num q -> (0 <= q)%Q.
Proof.
  unfold clamp_value. destruct x as [|q']; simpl; [done|].
  destruct (Qle_bool 0 q') eqn:Hle; simpl.
  - intros [= <-]. by apply Qle_bool_iff.
  - intros [= <-]. apply Qle_refl.
Qed.

(** A cell after the two mask assignments: not-a-number where either mask
    is set, what was there before elsewhere. *)
Lemma cell_remask zoom (hi data fine : grid float) i j :
  cell (remask zoom hi data fine) i j =
    (m2 ← cell (zoom_order0 false (gmap2 isnan data) zoom) i j;
     x ← cell hi i j;
     y ← cell fine i j;
     Some (if (m2 : bool) || isnan x then NaN else y)).
Proof.
  unfold remask. rewrite !cell_mask_assign, cell_gmap2.
  destruct (cell (zoom_order0 _ _ _) i j) as [m2|]; simpl; [|done].
  destruct (cell hi i j) as [x|]; simpl; [|done].
  destruct (cell fine i j) as [y|]; simpl; [|done].
  by destruct m2, (isnan x).
Qed.

Section SliceCells.

Variable spline : nat -> grid Q -> nat * nat -> nat -> nat -> Q.
Variable SPLINE_ORDER : nat.
Variables bare_soil soil_moisture : DataArray.
Hypothesis inputs : resamplable SPLINE_ORDER bare_soil soil_moisture.

(** A cell of a slice the loop body made, for any order: missing where the
    reference slice is missing or the zoomed mask of the source slice is set,
    the clamped value of the zoomed slice elsewhere. *)
Lemma slice_for_cell ts data s i j :
  rect (length (latitude soil_moisture)) (length (longitude soil_moisture)) data ->
  slice_for spline SPLINE_ORDER bare_soil soil_moisture ts data s ->
  (i < length (latitude bare_soil))%nat ->
  (j < length (longitude bare_soil))%nat ->
  exists zoom hi output m x q,
    ZOOM_FACTOR bare_soil soil_moisture = Ok zoom /\
    sel_time bare_soil ts = Ok hi /\
    ndzoom spline (gmap2 nan_to_num data) zoom SPLINE_ORDER = Ok output /\
    cell (ndzoom_mask (gmap2 isnan data) zoom) i j = Some m /\
    cell hi i j = Some x /\
    cell output i j = Some q /\
    cell s i j = Some (if m || isnan x then NaN else clamp_value (Num q)).
Proof using inputs.
  intros Hd (hi & output & Hhi & Hrhi & Hz & Hro & ->) Hi Hj.
  destruct (cell_rect_is_Some _ _ _ i j (mask_rect _ _ _ inputs data Hd) Hi Hj)
    as [m Hm].
  destruct (cell_rect_is_Some _ _ _ i j Hrhi Hi Hj) as [x Hx].
  destruct (cell_rect_is_Some _ _ _ i j Hro Hi Hj) as [q Hq].
  eexists _, hi, output, m, x, q.
  split; [exact (ZOOM_FACTOR_value _ _ _ inputs)|].
  split; [done|]. split; [done|]. split; [exact Hm|].
  split; [done|]. split; [done|].
  rewrite cell_remask. unfold ndzoom_mask in Hm. rewrite Hm. simpl.
  rewrite Hx. simpl. rewrite cell_clamp, cell_gmap2, Hq. done.
Qed.

End SliceCells.

Section AlignerClaims.

Variable spline : nat -> grid Q -> nat * nat -> nat -> nat -> Q.
Variable SPLINE_ORDER : nat.
Variables bare_soil soil_moisture : DataArray.
Hypothesis inputs : resamplable SPLINE_ORDER bare_soil soil_moisture.

(** Every slice of the returned array belongs to a time stamp and a slice of
    [soil_moisture]. *)
Lemma slice_has_source fine_moisture k s :
  loop_state bare_soil soil_moisture fine_moisture ->
  values fine_moisture !! k = Some s ->
  exists ts data,
    time soil_moisture !! k = Some ts /\ values soil_moisture !! k = Some data /\
    rect (length (latitude soil_moisture)) (length (longitude soil_moisture)) data.
Proof using inputs.
  intros (_ & _ & _ & Hlen & _) Hs.
  apply lookup_lt_Some in Hs. rewrite Hlen in Hs.
  destruct (lookup_lt_is_Some_2 _ _ Hs) as [ts Hts].
  destruct (lookup_lt_is_Some_2 (values soil_moisture) k) as [data Hdata].
  { destruct inputs as [_ _ [-> _] _ _ _ _ _ _]. done. }
  exists ts, data. split; [done|split; [done|]].
  destruct inputs. by eapply wf_slice.
Qed.

(** C4: at every time step the slice stored in the resampled array is made
    from the output of [ndzoom], at the requested order, of the filled
    source slice: the source slice with zero at every missing cell and its
    own value at every other cell.  The zoom factor is, axis by axis, the
    length of the target axis over the length of the source axis, and the
    output has the shape of the target grid; its cells are the values of the
    spline of the requested order fitted to the filled slice or, at order 0,
    the cells of the filled slice at the samples of the two positions (zero
    where a sample is outside the input).  (The clamp and the two masks are
    applied to that output.) *)
Theorem aligner_zooms_filled_source :
  exists fine_moisture,
    grid_aligner spline SPLINE_ORDER bare_soil soil_moisture = Ok fine_moisture /\
    length (values fine_moisture) = length (time soil_moisture) /\
    ZOOM_FACTOR bare_soil soil_moisture
    = Ok (Z.of_nat (length (latitude bare_soil))
            # Pos.of_nat (length (latitude soil_moisture)),
          Z.of_nat (length (longitude bare_soil))
            # Pos.of_nat (length (longitude soil_moisture))) /\
    forall k ts data,
      time soil_moisture !! k = Some ts ->
      values soil_moisture !! k = Some data ->
      exists zoom hi filled output,
        ZOOM_FACTOR bare_soil soil_moisture = Ok zoom /\
        sel_time bare_soil ts = Ok hi /\
        filled = gmap2 nan_to_num data /\
        (forall p q,
           (missing data p q -> cell filled p q = Some 0%Q) /\
           (forall v, cell data p q = Some (Num v) -> cell filled p q = Some v) /\
           (cell data p q = None -> cell filled p q = None)) /\
        ndzoom spline filled zoom SPLINE_ORDER = Ok output /\
        rect (length (latitude bare_soil)) (length (longitude bare_soil)) output /\
        (forall i j,
           (i < length (latitude bare_soil))%nat ->
           (j < length (longitude bare_soil))%nat ->
           cell output i j
           = if (SPLINE_ORDER =? 0)%nat
             then match nearest (length (latitude soil_moisture))
                                (length (latitude bare_soil)) i,
                        nearest (length (longitude soil_moisture))
                                (length (longitude bare_soil)) j with
                  | Some p, Some q => cell filled p q
                  | _, _ => Some 0%Q
                  end
             else Some (spline SPLINE_ORDER filled
                          (length (latitude bare_soil), length (longitude bare_soil))
                          i j)) /\
        values fine_moisture !! k
        = Some (remask zoom hi data (clamp (gmap2 Num output))).
Proof using inputs.
  destruct (grid_aligner_Ok spline _ _ _ inputs) as (fine & Hrun & Hst & Hslices).
  exists fine. split; [done|]. split; [by destruct Hst as (_ & _ & _ & ? & _)|].
  split; [exact (ZOOM_FACTOR_value _ _ _ inputs)|].
  intros k ts data Hts Hdata.
  assert (rect (length (latitude soil_moisture)) (length (longitude soil_moisture)) data)
    as Hrd by (destruct inputs; by eapply wf_slice).
  destruct (Hslices k ts data Hts Hdata)
    as (s & (hi & output & Hhi & _ & Hz & Hro & ->) & Hk).
  eexists _, hi, (gmap2 nan_to_num data), output.
  split; [exact (ZOOM_FACTOR_value _ _ _ inputs)|].
  split; [done|]. split; [done|]. split.
  { intros p q. rewrite cell_gmap2. unfold missing. split; [by intros ->|].
    split; [by intros v ->|by intros ->]. }
  split; [done|]. split; [done|]. split; [|done].
  intros i j Hi Hj.
  by apply (ndzoom_cells spline _ _ _ inputs (gmap2 nan_to_num data) output i j
              (rect_gmap2 _ _ _ nan_to_num Hrd)).
Qed.

(** C5: the clamp is applied at every time step, so every value stored in
    the resampled array that is not missing is greater than or equal to
    zero; a negative output of [ndzoom] is zero after the clamp, which comes
    before the two mask assignments. *)
Theorem resampled_values_nonnegative :
  exists fine_moisture,
    grid_aligner spline SPLINE_ORDER bare_soil soil_moisture = Ok fine_moisture /\
    (forall k s i j q,
       values fine_moisture !! k = Some s ->
       cell s i j = Some (Num q) -> (0 <= q)%Q) /\
    (forall k s,
       values fine_moisture !! k = Some s ->
       exists zoom hi data output,
         values soil_moisture !! k = Some data /\
         ZOOM_FACTOR bare_soil soil_moisture = Ok zoom /\
         ndzoom spline (gmap2 nan_to_num data) zoom SPLINE_ORDER = Ok output /\
         s = remask zoom hi data (clamp (gmap2 Num output)) /\
         forall i j q,
           cell output i j = Some q -> (q < 0)%Q ->
           cell (clamp (gmap2 Num output)) i j = Some (Num 0)).
Proof using inputs.
  destruct (grid_aligner_Ok spline _ _ _ inputs) as (fine & Hrun & Hst & Hslices).
  exists fine. split; [done|]. split.
  - intros k s i j q Hs Hc.
    destruct (slice_has_source fine k s Hst Hs) as (ts & data & Hts & Hdata & Hrd).
    destruct (Hslices k ts data Hts Hdata) as (s' & Hfor & Hk).
    rewrite Hs in Hk. injection Hk as <-.
    pose proof (slice_for_rect spline _ _ _ inputs ts data s Hrd Hfor) as Hrs.
    destruct (cell_rect_lt _ _ _ _ _ _ Hrs Hc) as [Hi Hj].
    destruct (slice_for_cell spline _ _ _ inputs ts data s i j Hrd Hfor Hi Hj)
      as (zoom & hi & output & m & x & q' & _ & _ & _ & _ & _ & _ & Hcell).
    rewrite Hc in Hcell. injection Hcell as Hcell.
    destruct (m || isnan x); [done|].
    symmetry in Hcell. by apply clamp_value_nonneg in Hcell.
  - intros k s Hs.
    destruct (slice_has_source fine k s Hst Hs) as (ts & data & Hts & Hdata & Hrd).
    destruct (Hslices k ts data Hts Hdata)
      as (s' & (hi & output & _ & _ & Hz & _ & ->) & Hk).
    rewrite Hs in Hk. injection Hk as ->.
    eexists _, hi, data, output. split; [done|].
    split; [exact (ZOOM_FACTOR_value _ _ _ inputs)|].
    split; [exact Hz|]. split; [done|].
    intros i j q Hq Hneg. rewrite cell_clamp, cell_gmap2, Hq. simpl.
    unfold clamp_value. simpl.
    destruct (Qle_bool 0 q) eqn:Hle; [|done].
    apply Qle_bool_iff in Hle. exfalso. by apply (Qlt_not_le _ _ Hneg).
Qed.

(** C2, as the cell behaves: at every time step a cell of the output is
    missing exactly when the reference slice is missing there or the order-0
    zoom of the missing mask of the source slice marks it.  The zoomed mask
    marks an output cell exactly when the samples of its two positions are
    inside the source, as [ndzoom] computes them in binary64, and the source
    cell at these samples is missing; a cell with a sample outside the
    source is not marked.  So a cell missing in the reference is missing in
    the output, and so is every output cell whose sampled source cell is
    missing.  The missing cells of the output contain those of the
    reference; the two sets are the same exactly when the zoomed mask marks
    no cell that the reference has. *)
Theorem missing_iff_reference_or_zoomed_mask :
  exists fine_moisture zoom,
    grid_aligner spline SPLINE_ORDER bare_soil soil_moisture = Ok fine_moisture /\
    ZOOM_FACTOR bare_soil soil_moisture = Ok zoom /\
    forall k ts data,
      time soil_moisture !! k = Some ts ->
      values soil_moisture !! k = Some data ->
      exists hi s,
        sel_time bare_soil ts = Ok hi /\
        values fine_moisture !! k = Some s /\
        (forall i j,
           (i < length (latitude bare_soil))%nat ->
           (j < length (longitude bare_soil))%nat ->
           (missing s i j <->
            missing hi i j \/ marked (ndzoom_mask (gmap2 isnan data) zoom) i j) /\
           (marked (ndzoom_mask (gmap2 isnan data) zoom) i j <->
            exists p q,
              nearest (length (latitude soil_moisture))
                      (length (latitude bare_soil)) i = Some p /\
              nearest (length (longitude soil_moisture))
                      (length (longitude bare_soil)) j = Some q /\
              missing data p q) /\
           (missing hi i j -> missing s i j) /\
           (forall p q,
              nearest (length (latitude soil_moisture))
                      (length (latitude bare_soil)) i = Some p ->
              nearest (length (longitude soil_moisture))
                      (length (longitude bare_soil)) j = Some q ->
              missing data p q -> missing s i j)) /\
        ((forall i j, missing s i j <-> missing hi i j) <->
         (forall i j,
            marked (ndzoom_mask (gmap2 isnan data) zoom) i j -> missing hi i j)).
Proof using inputs.
  destruct (grid_aligner_Ok spline _ _ _ inputs) as (fine & Hrun & Hst & Hslices).
  eexists fine, _. split; [done|].
  split; [exact (ZOOM_FACTOR_value _ _ _ inputs)|].
  intros k ts data Hts Hdata.
  assert (rect (length (latitude soil_moisture)) (length (longitude soil_moisture)) data)
    as Hrd by (destruct inputs; by eapply wf_slice).
  destruct (Hslices k ts data Hts Hdata) as (s & Hfor & Hk).
  pose proof Hfor as (hi & output & Hhi & Hrhi & Hz & Hro & Hs).
  pose proof (slice_for_rect spline _ _ _ inputs ts data s Hrd Hfor) as Hrs.
  pose proof (mask_rect _ _ _ inputs data Hrd) as Hrm.
  exists hi, s. split; [done|]. split; [done|].
  assert (forall i j,
            (i < length (latitude bare_soil))%nat ->
            (j < length (longitude bare_soil))%nat ->
            (missing s i j <->
             missing hi i j \/
             marked (ndzoom_mask (gmap2 isnan data)
                      (Z.of_nat (length (latitude bare_soil))
                         # Pos.of_nat (length (latitude soil_moisture)),
                       Z.of_nat (length (longitude bare_soil))
                         # Pos.of_nat (length (longitude soil_moisture)))) i j))
    as Hiff.
  { intros i j Hi Hj.
    destruct (slice_for_cell spline _ _ _ inputs ts data s i j Hrd Hfor Hi Hj)
      as (zoom' & hi' & output' & m & x & q & Hzf & Hhi' & _ & Hm & Hx & _ & Hc).
    rewrite (ZOOM_FACTOR_value _ _ _ inputs) in Hzf. injection Hzf as <-.
    rewrite Hhi in Hhi'. injection Hhi' as <-.
    unfold missing, marked. rewrite Hc, Hm, Hx. split.
    - intros [= Hnan]. destruct m; [by right|]. destruct x as [|x]; [by left|].
      simpl in Hnan. unfold clamp_value in Hnan. simpl in Hnan.
      by destruct (Qle_bool 0 q).
    - intros [[= ->]|[= ->]]; [|done]. by rewrite orb_true_r. }
  assert (forall i j,
            (i < length (latitude bare_soil))%nat ->
            (j < length (longitude bare_soil))%nat ->
            (marked (ndzoom_mask (gmap2 isnan data)
                      (Z.of_nat (length (latitude bare_soil))
                         # Pos.of_nat (length (latitude soil_moisture)),
                       Z.of_nat (length (longitude bare_soil))
                         # Pos.of_nat (length (longitude soil_moisture)))) i j <->
             exists p q,
               nearest (length (latitude soil_moisture))
                       (length (latitude bare_soil)) i = Some p /\
               nearest (length (longitude soil_moisture))
                       (length (longitude bare_soil)) j = Some q /\
               missing data p q))
    as Hmark.
  { intros i j Hi Hj. unfold marked, ndzoom_mask.
    rewrite (cell_zoom_order0 false _ _ (length (latitude soil_moisture))
               (length (longitude soil_moisture)) (length (latitude bare_soil))
               (length (longitude bare_soil)));
      [|by apply rect_gmap2|by destruct inputs|by destruct inputs
       |exact (output_shape_zoom_factor _ _ _ inputs)|done|done].
    destruct (nearest (length (latitude soil_moisture)) _ i) as [p|];
      [|split; [done|by intros (? & ? & ? & _)]].
    destruct (nearest (length (longitude soil_moisture)) _ j) as [q|];
      [|split; [done|by intros (? & ? & _ & ? & _)]].
    rewrite cell_gmap2. unfold missing. split.
    - intros Hc. exists p, q. split; [done|]. split; [done|].
      destruct (cell data p q) as [[|v]|]; done.
    - intros (p' & q' & [= <-] & [= <-] & ->). done. }
  split.
  - intros i j Hi Hj. split; [by apply Hiff|]. split; [by apply Hmark|].
    split; [intros Hmiss; apply Hiff; [done|done|by left]|].
    intros p q Hp Hq Hsrc. apply Hiff; [done|done|]. right.
    apply Hmark; [done|done|]. by exists p, q.
  - split.
    + intros Hsame i j Hm.
      destruct (cell_rect_lt _ _ _ _ _ _ Hrm Hm) as [Hi Hj].
      apply Hsame. apply Hiff; [done|done|by right].
    + intros Hsub i j. split.
      * intros Hmiss.
        destruct (cell_rect_lt _ _ _ _ _ _ Hrs Hmiss) as [Hi Hj].
        apply Hiff in Hmiss as [?|Hm]; [done|by apply Hsub|done|done].
      * intros Hmiss.
        destruct (cell_rect_lt _ _ _ _ _ _ Hrhi Hmiss) as [Hi Hj].
        apply Hiff; [done|done|by left].
Qed.

End AlignerClaims.

(** ** Nearest-neighbour resampling (order 0) *)

Section OrderZero.

Variable spline : nat -> grid Q -> nat * nat -> nat -> nat -> Q.
Variables bare_soil soil_moisture : DataArray.
Hypothesis inputs : resamplable 0 bare_soil soil_moisture.

(** With order 0 a cell of the output whose samples are inside the source
    is missing where the reference or the sampled source cell is missing,
    and the clamped sampled source cell elsewhere. *)
Lemma order0_cells :
  exists fine_moisture,
    grid_aligner spline 0 bare_soil soil_moisture = Ok fine_moisture /\
    loop_state bare_soil soil_moisture fine_moisture /\
    forall k ts data,
      time soil_moisture !! k = Some ts ->
      values soil_moisture !! k = Some data ->
      exists hi s,
        sel_time bare_soil ts = Ok hi /\
        values fine_moisture !! k = Some s /\
        rect (length (latitude bare_soil)) (length (longitude bare_soil)) s /\
        forall i j p q,
          (i < length (latitude bare_soil))%nat ->
          (j < length (longitude bare_soil))%nat ->
          nearest (length (latitude soil_moisture))
                  (length (latitude bare_soil)) i = Some p ->
          nearest (length (longitude soil_moisture))
                  (length (longitude bare_soil)) j = Some q ->
          exists x d,
            cell hi i j = Some x /\
            cell data p q = Some d /\
            cell s i j = Some (if isnan x || isnan d then NaN else clamp_value d).
Proof using inputs.
  destruct (grid_aligner_Ok spline _ _ _ inputs) as (fine & Hrun & Hst & Hslices).
  exists fine. split; [done|]. split; [done|].
  intros k ts data Hts Hdata.
  assert (rect (length (latitude soil_moisture)) (length (longitude soil_moisture)) data)
    as Hrd by (destruct inputs; by eapply wf_slice).
  destruct (Hslices k ts data Hts Hdata) as (s & Hfor & Hk).
  pose proof Hfor as (hi & output & Hhi & Hrhi & Hz & Hro & Hs).
  exists hi, s. split; [done|]. split; [done|].
  split; [by eapply (slice_for_rect spline _ _ _ inputs)|].
  intros i j p q Hi Hj Hp Hq.
  destruct (slice_for_cell spline _ _ _ inputs ts data s i j Hrd Hfor Hi Hj)
    as (zoom' & hi' & output' & m & x & v & Hzf & Hhi' & Hz' & Hm & Hx & Hv & Hc).
  rewrite (ZOOM_FACTOR_value _ _ _ inputs) in Hzf. injection Hzf as <-.
  rewrite Hhi in Hhi'. injection Hhi' as <-.
  rewrite Hz in Hz'. injection Hz' as <-.
  rewrite (ndzoom_cells spline _ _ _ inputs _ _ i j
             (rect_gmap2 _ _ _ nan_to_num Hrd) Hz Hi Hj) in Hv.
  simpl in Hv. rewrite Hp, Hq in Hv.
  assert (0 < length (latitude soil_moisture))%nat as Hh by (by destruct inputs).
  assert (0 < length (longitude soil_moisture))%nat as Hw by (by destruct inputs).
  unfold ndzoom_mask in Hm.
  rewrite (cell_zoom_order0 _ _ _ _ _ _ _ i j (rect_gmap2 _ _ _ isnan Hrd) Hh Hw
             (output_shape_zoom_factor _ _ _ inputs) Hi Hj) in Hm.
  rewrite Hp, Hq in Hm.
  rewrite cell_gmap2 in Hm. rewrite cell_gmap2 in Hv.
  destruct (cell data p q) as [d|] eqn:Hd; [|done].
  simpl in Hm, Hv. injection Hm as <-. injection Hv as <-.
  exists x, d. split; [done|]. split; [done|].
  rewrite Hc. f_equal. rewrite orb_comm.
  destruct d as [|d]; simpl; [by rewrite orb_true_r|done].
Qed.

End OrderZero.

Lemma cell_outside {A} h w (g : grid A) i j :
  rect h w g -> ~ ((i < h)%nat /\ (j < w)%nat) -> cell g i j = None.
Proof.
  intros Hr Hout. destruct (cell g i j) as [x|] eqn:Hc; [|done].
  destruct Hout. by eapply cell_rect_lt.
Qed.

Lemma clamp_value_nan (x : float) : clamp_value x = NaN <-> x = NaN.
Proof.
  unfold clamp_value. destruct x as [|q]; simpl; [done|].
  by destruct (Qle_bool 0 q).
Qed.

Section OwnGrid.

Variable spline : nat -> grid Q -> nat * nat -> nat -> nat -> Q.
Variable a : DataArray.
Hypothesis inputs : resamplable 0 a a.

(** C6, as the cell behaves: resampling an array onto its own grid at order 0,
    with itself as reference, returns an array with the same axes in which
    every cell is the clamped cell of the original: a missing cell stays
    missing and no other cell becomes missing, a value that is not negative
    is returned unchanged, and a negative value is returned as zero. *)
Theorem resample_onto_own_grid :
  exists fine_moisture,
    grid_aligner spline 0 a a = Ok fine_moisture /\
    time fine_moisture = time a /\
    latitude fine_moisture = latitude a /\
    longitude fine_moisture = longitude a /\
    length (values fine_moisture) = length (values a) /\
    (exists zoom, ZOOM_FACTOR a a = Ok zoom /\ (zoom.1 == 1)%Q /\ (zoom.2 == 1)%Q) /\
    forall k s0,
      values a !! k = Some s0 ->
      exists s,
        values fine_moisture !! k = Some s /\
        (forall i j, cell s i j = clamp_value <$> cell s0 i j) /\
        (forall i j, missing s i j <-> missing s0 i j) /\
        (forall i j q, cell s0 i j = Some (Num q) -> (0 <= q)%Q ->
                       cell s i j = Some (Num q)).
Proof using inputs.
  destruct (order0_cells spline _ _ inputs) as (fine & Hrun & Hst & Hcells).
  pose proof Hst as (Ht & Hlat & Hlon & Hlen & _).
  pose proof inputs as [_ Hwf _ _ Hnd _ _ Hh Hw].
  exists fine. split; [done|]. split; [done|]. split; [done|]. split; [done|].
  split; [destruct Hwf as [-> _]; done|].
  split.
  { eexists. split; [exact (ZOOM_FACTOR_value _ _ _ inputs)|].
    assert (forall n, (0 < n)%nat -> (Z.of_nat n # Pos.of_nat n == 1)%Q) as Hone.
    { intros n Hn. unfold Qeq. simpl.
      destruct n; [lia|]. rewrite <- Pos.of_nat_succ. lia. }
    split; simpl; by apply Hone. }
  intros k s0 Hs0.
  destruct (lookup_lt_is_Some_2 (time a) k) as [ts Hts].
  { destruct Hwf as [<- _]. by eapply lookup_lt_Some. }
  destruct (Hcells k ts s0 Hts Hs0) as (hi & s & Hhi & Hk & Hrs & Hc).
  assert (hi = s0) as ->.
  { unfold sel_time in Hhi. rewrite (get_loc_NoDup _ _ _ Hnd Hts) in Hhi.
    simpl in Hhi. apply item_inv in Hhi. congruence. }
  assert (forall i j, cell s i j = clamp_value <$> cell s0 i j) as Heq.
  { intros i j.
    destruct (decide ((i < length (latitude a))%nat /\ (j < length (longitude a))%nat))
      as [[Hi Hj]|Hout].
    - destruct (Hc i j i j Hi Hj (nearest_same _ _ Hi) (nearest_same _ _ Hj))
        as (x & d & Hx & Hd & Hcell).
      rewrite Hx in Hd. injection Hd as <-.
      rewrite Hcell, Hx. simpl. f_equal.
      destruct x as [|q]; done.
    - rewrite (cell_outside _ _ s i j Hrs Hout).
      by rewrite (cell_outside _ _ s0 i j (wf_slice _ _ _ Hwf Hs0) Hout). }
  exists s. split; [done|]. split; [done|]. split.
  - intros i j. unfold missing. rewrite Heq.
    destruct (cell s0 i j) as [x|]; simpl; [|done].
    split; intros [= Hx]; f_equal; by apply clamp_value_nan.
  - intros i j q Hq Hpos. rewrite Heq, Hq. simpl. f_equal.
    unfold clamp_value. simpl. apply Qle_bool_iff in Hpos. by rewrite Hpos.
Qed.

End OwnGrid.

(** From two samples to four: the step is the binary64 number next to one
    third, and the four positions read the samples 0, 0, 1 and 1. *)
Lemma nearest_2_4 (p a : nat) :
  (p < 2)%nat -> (a < 2)%nat -> nearest 2 4 (2 * p + a) = Some p.
Proof.
  intros Hp Ha.
  destruct p as [|[|p]]; [| |lia]; (destruct a as [|[|a]]; [| |lia]);
    vm_compute; reflexivity.
Qed.

Section Blocks.

Variable spline : nat -> grid Q -> nat * nat -> nat -> nat -> Q.
Variables bare_soil soil_moisture : DataArray.
Hypothesis inputs : resamplable 0 bare_soil soil_moisture.
Hypothesis steps : length (time soil_moisture) = 12%nat.
Hypothesis source_lat : length (latitude soil_moisture) = 2%nat.
Hypothesis source_lon : length (longitude soil_moisture) = 2%nat.
Hypothesis target_lat : length (latitude bare_soil) = 4%nat.
Hypothesis target_lon : length (longitude bare_soil) = 4%nat.

(** C7, as the cell behaves: resampling a (12, 2, 2) source at order 0 onto
    a (4, 4) target gives a (12, 4, 4) array; at every time step each cell
    of a 2 x 2 block is missing where the reference is missing there or the
    source pixel of the block is missing, and is the clamped source pixel
    elsewhere.  So the cell equals the source pixel wherever the reference
    is present and the pixel is not negative. *)
Theorem nearest_blocks_clamped_and_masked :
  exists fine_moisture,
    grid_aligner spline 0 bare_soil soil_moisture = Ok fine_moisture /\
    length (values fine_moisture) = 12%nat /\
    Forall (rect 4 4) (values fine_moisture) /\
    forall k ts data,
      time soil_moisture !! k = Some ts ->
      values soil_moisture !! k = Some data ->
      exists hi s zoom output,
        sel_time bare_soil ts = Ok hi /\
        values fine_moisture !! k = Some s /\
        ZOOM_FACTOR bare_soil soil_moisture = Ok zoom /\
        ndzoom spline (gmap2 nan_to_num data) zoom 0 = Ok output /\
        forall p q d a b,
          cell data p q = Some d -> (a < 2)%nat -> (b < 2)%nat ->
          cell output (2 * p + a) (2 * q + b) = Some (nan_to_num d) /\
          exists x,
            cell hi (2 * p + a) (2 * q + b) = Some x /\
            cell s (2 * p + a) (2 * q + b)
            = Some (if isnan x || isnan d then NaN else clamp_value d) /\
            (isnan x = false -> ltz d = false ->
             cell s (2 * p + a) (2 * q + b) = Some d).
Proof using All.
  destruct (order0_cells spline _ _ inputs) as (fine & Hrun & Hst & Hcells).
  pose proof Hst as (_ & _ & _ & Hlen & Hall).
  exists fine. split; [done|]. split; [congruence|].
  split; [by rewrite target_lat, target_lon in Hall|].
  intros k ts data Hts Hdata.
  destruct (Hcells k ts data Hts Hdata) as (hi & s & Hhi & Hk & Hrs & Hc).
  eexists hi, s, _, _. split; [done|]. split; [done|].
  split; [exact (ZOOM_FACTOR_value _ _ _ inputs)|].
  split; [reflexivity|].
  intros p q d a b Hd Ha Hb.
  assert (rect 2 2 data) as Hrd.
  { pose proof (wf_slice _ _ _ (rs_soil _ _ _ inputs) Hdata) as Hrd.
    by rewrite source_lat, source_lon in Hrd. }
  destruct (cell_rect_lt _ _ _ _ _ _ Hrd Hd) as [Hp Hq].
  split.
  { pose proof (output_shape_zoom_factor _ _ _ inputs) as Hshape.
    rewrite source_lat, source_lon, target_lat, target_lon in Hshape.
    rewrite source_lat, source_lon, target_lat, target_lon.
    rewrite (cell_zoom_order0 0%Q _ _ 2 2 4 4);
      [|by apply rect_gmap2|lia|lia|exact Hshape|lia|lia].
    rewrite !nearest_2_4 by done. by rewrite cell_gmap2, Hd. }
  destruct (Hc (2 * p + a)%nat (2 * q + b)%nat p q) as (x & d' & Hx & Hd' & Hcell);
    [lia|lia
    |rewrite source_lat, target_lat; by apply nearest_2_4
    |rewrite source_lon, target_lon; by apply nearest_2_4|].
  rewrite Hd in Hd'. injection Hd' as <-.
  exists x. split; [done|]. split; [done|].
  intros Hx0 Hd0. rewrite Hcell, Hx0. simpl. f_equal.
  unfold clamp_value. rewrite Hd0. by destruct d.
Qed.

End Blocks.

(** ** The double loop of the correlation cell *)

Section MapM.
Context {X Y : Type}.
Implicit Types (f : X -> result Y) (l : list X) (ys : list Y).

Lemma mapM_Ok_Forall2 f l ys :
  mapM f l = Ok ys <-> Forall2 (fun x y => f x = Ok y) l ys.
Proof.
  revert ys. induction l as [|x l IH]; intros ys; simpl.
  - split.
    + intros [= <-]. constructor.
    + intros Hf. by inversion Hf.
  - split.
    + intros Hm. inv_bind Hm. injection Hm as <-.
      constructor; [done|]. by apply IH.
    + intros Hf. inversion Hf as [|? y ? ys' Hx Hrest]; subst.
      rewrite Hx. simpl. apply IH in Hrest. rewrite Hrest. done.
Qed.

Lemma mapM_Ok_lookup f l ys i x :
  mapM f l = Ok ys -> l !! i = Some x ->
  exists y, ys !! i = Some y /\ f x = Ok y.
Proof.
  intros Hm Hx. apply mapM_Ok_Forall2 in Hm.
  destruct (Forall2_lookup_l _ _ _ _ _ Hm Hx) as (y & Hy & Hf). by exists y.
Qed.

Lemma mapM_Ok_length f l ys : mapM f l = Ok ys -> length ys = length l.
Proof. intros Hm. apply mapM_Ok_Forall2 in Hm. symmetry. by eapply Forall2_length. Qed.

Lemma mapM_returns f l :
  (forall x, x ∈ l -> returns (f x)) -> returns (mapM f l).
Proof.
  induction l as [|x l IH]; intros Hall; simpl.
  - by eexists.
  - destruct (Hall x) as [y Hy]; [by left|].
    destruct IH as [ys Hys]; [intros x' Hx'; apply Hall; by right|].
    rewrite Hy. simpl. rewrite Hys. simpl. by eexists.
Qed.

End MapM.

Lemma append_val_last (rows : grid (list float)) (row : list (list float)) val :
  append_val (rows ++ [row]) val = rows ++ [row ++ [val]].
Proof.
  unfold append_val. rewrite length_app. simpl.
  replace (pred (length rows + 1)) with (length rows + 0)%nat by lia.
  by rewrite alter_app_r.
Qed.

Section MapperLoops.

Variable pearsonr : list float -> list float -> result (float * float).
Variable spearmanr : list float -> list float -> result (float * float).
Variables fine_moisture bare_soil : DataArray.

Local Abbreviation tuple_at := (cell_val pearsonr spearmanr fine_moisture bare_soil).

Lemma lon_step_eq lat latout lon :
  lon_step pearsonr spearmanr fine_moisture bare_soil lat latout lon
  = (val ← tuple_at lat lon; Ok (append_val latout val)).
Proof. reflexivity. Qed.

Lemma lat_step_eq latout lat :
  lat_step pearsonr spearmanr fine_moisture bare_soil latout lat
  = for_each (lon_step pearsonr spearmanr fine_moisture bare_soil lat)
      (longitude fine_moisture) (latout ++ [[]]).
Proof. reflexivity. Qed.

(** The inner loop adds the tuples of one latitude, in order, to the row
    appended last, and stops at the first exception. *)
Lemma lon_loop lat lons : forall rows row,
  for_each (lon_step pearsonr spearmanr fine_moisture bare_soil lat) lons (rows ++ [row])
  = (vals ← mapM (tuple_at lat) lons; Ok (rows ++ [row ++ vals])).
Proof.
  induction lons as [|lon lons IH]; intros rows row; simpl.
  - by rewrite app_nil_r.
  - rewrite lon_step_eq. destruct (tuple_at lat lon) as [val|e]; simpl; [|done].
    rewrite append_val_last, IH.
    destruct (mapM (tuple_at lat) lons) as [vals|e]; simpl; [|done].
    by rewrite <- app_assoc.
Qed.

Lemma lat_loop lats : forall latout,
  for_each (lat_step pearsonr spearmanr fine_moisture bare_soil) lats latout
  = (rows ← mapM (fun lat => mapM (tuple_at lat) (longitude fine_moisture)) lats;
     Ok (latout ++ rows)).
Proof.
  induction lats as [|lat lats IH]; intros latout; simpl.
  - by rewrite app_nil_r.
  - rewrite lat_step_eq, lon_loop.
    destruct (mapM (tuple_at lat) (longitude fine_moisture)) as [vals|e]; simpl; [|done].
    rewrite IH.
    destruct (mapM _ lats) as [rows|e]; simpl; [|done].
    by rewrite <- app_assoc.
Qed.

(** The double loop is the table of the tuples, latitude by latitude. *)
Lemma correlation_loop_table :
  correlation_loop pearsonr spearmanr fine_moisture bare_soil
  = mapM (fun lat => mapM (tuple_at lat) (longitude fine_moisture))
         (latitude fine_moisture).
Proof.
  unfold correlation_loop. rewrite lat_loop.
  by destruct (mapM _ (latitude fine_moisture)).
Qed.

(** The tuple of a cell, from the two series of the cell. *)
Lemma cell_val_series lat lon x y :
  sel_cell fine_moisture lat lon = Ok x ->
  sel_cell bare_soil lat lon = Ok y ->
  tuple_at lat lon =
    match pearsonr x y with
    | Raise e => Raise e
    | Ok rp =>
        match spearmanr x y with
        | Ok rp' => Ok [rp.1; rp.2; rp'.1; rp'.2]
        | Raise ValueError => Ok [rp.1; rp.2; NaN; NaN]
        | Raise e => Raise e
        end
    end.
Proof.
  intros Hx Hy. unfold cell_val. rewrite Hx, Hy. simpl.
  destruct (pearsonr x y) as [rp|e]; simpl; [|done].
  destruct (spearmanr x y) as [rp'|e]; simpl; [done|].
  by destruct e.
Qed.

(** A tuple that was computed has four entries and comes from the two series
    of its cell. *)
Lemma cell_val_Ok lat lon val :
  tuple_at lat lon = Ok val ->
  exists x y r p rs ps,
    sel_cell fine_moisture lat lon = Ok x /\
    sel_cell bare_soil lat lon = Ok y /\
    pearsonr x y = Ok (r, p) /\
    (spearmanr x y = Ok (rs, ps) \/
     spearmanr x y = Raise ValueError /\ rs = NaN /\ ps = NaN) /\
    val = [r; p; rs; ps].
Proof.
  intros Hval.
  destruct (sel_cell fine_moisture lat lon) as [x|e] eqn:Hx;
    [|by unfold cell_val in Hval; rewrite Hx in Hval].
  destruct (sel_cell bare_soil lat lon) as [y|e] eqn:Hy;
    [|by unfold cell_val in Hval; rewrite Hx, Hy in Hval].
  rewrite (cell_val_series lat lon x y Hx Hy) in Hval.
  destruct (pearsonr x y) as [[r p]|e] eqn:Hp; [|done].
  destruct (spearmanr x y) as [[rs ps]|e] eqn:Hs.
  - injection Hval as <-. exists x, y, r, p, rs, ps. auto 10.
  - destruct e; try done. injection Hval as <-.
    exists x, y, r, p, NaN, NaN. auto 10.
Qed.

End MapperLoops.

(** ** The four stores *)

Lemma cell_Forall2 {A B} (R : A -> B -> Prop) (g : grid A) (g' : grid B) i j x :
  Forall2 (Forall2 R) g g' -> cell g i j = Some x ->
  exists y, cell g' i j = Some y /\ R x y.
Proof.
  intros Hf Hc. unfold cell in *.
  destruct (g !! i) as [row|] eqn:Hrow; [|done]. simpl in Hc.
  destruct (Forall2_lookup_l _ _ _ _ _ Hf Hrow) as (row' & Hrow' & Hrows).
  destruct (Forall2_lookup_l _ _ _ _ _ Hrows Hc) as (y & Hy & HR).
  exists y. rewrite Hrow'. simpl. done.
Qed.

Lemma mapM2_Ok {A B} (f : A -> result B) (g : grid A) (g' : grid B) :
  mapM (mapM f) g = Ok g' <-> Forall2 (Forall2 (fun x y => f x = Ok y)) g g'.
Proof.
  rewrite mapM_Ok_Forall2. split; intros Hf.
  - eapply Forall2_impl; [exact Hf|]. intros row row'. apply mapM_Ok_Forall2.
  - eapply Forall2_impl; [exact Hf|]. intros row row'. apply mapM_Ok_Forall2.
Qed.

Lemma Forall2_rows_rect {A B} (R : A -> B -> Prop) (g : grid A) (g' : grid B) h w :
  Forall2 (Forall2 R) g g' -> rect h w g -> rect h w g'.
Proof.
  intros Hf [Hl Hr]. split.
  - by rewrite <- (Forall2_length _ _ _ Hf).
  - apply Forall_lookup. intros i row' Hi.
    destruct (Forall2_lookup_r _ _ _ _ _ Hf Hi) as (row & Hrow & Hrows).
    rewrite <- (Forall2_length _ _ _ Hrows).
    by eapply (Forall_lookup_1 _ _ _ _ Hr Hrow).
Qed.

(** [arr[..., k]] returns on a table that has a row and a column, of tuples
    that have an entry [k]; its cells are those entries. *)
Lemma last_axis_Ok (arr : grid (list float)) k a :
  last_axis arr k = Ok a ->
  Forall2 (Forall2 (fun (val : list float) v => val !! k = Some v)) arr a /\
  (0 < (shape arr).1)%nat /\ (0 < (shape arr).2)%nat.
Proof.
  unfold last_axis. intros Ha.
  assert (mapM (mapM (fun val : list float => item val k)) arr = Ok a
          /\ (0 < (shape arr).1)%nat /\ (0 < (shape arr).2)%nat) as (Hm & H1 & H2).
  { destruct arr as [|[|val row] arr]; try done. simpl. split; [done|lia]. }
  split; [|done]. apply mapM2_Ok in Hm.
  eapply Forall2_impl; [exact Hm|]. intros row row' Hrow.
  eapply Forall2_impl; [exact Hrow|]. intros val v. apply item_inv.
Qed.

Lemma last_axis_returns (arr : grid (list float)) k h w :
  rect h w arr -> (0 < h)%nat -> (0 < w)%nat ->
  (forall i j val, cell arr i j = Some val -> (k < length val)%nat) ->
  returns (last_axis arr k).
Proof.
  intros Hr Hh Hw Hlen. unfold last_axis.
  assert (returns (mapM (mapM (fun val : list float => item val k)) arr)) as Hret.
  { apply mapM_returns. intros row Hrow. apply mapM_returns. intros val Hval.
    apply list_elem_of_lookup in Hrow as [i Hi].
    apply list_elem_of_lookup in Hval as [j Hj].
    destruct (lookup_lt_is_Some_2 val k) as [v Hv].
    { apply (Hlen i j). unfold cell. rewrite Hi. done. }
    exists v. by apply item_Ok. }
  destruct arr as [|[|val row] arr]; [| |done].
  - destruct Hr as [Hl _]. simpl in Hl. lia.
  - destruct Hr as [_ Hrows]. inversion Hrows as [|? ? Hrow _]. simpl in Hrow. lia.
Qed.

(** Broadcasting along one axis: what fits, and what comes out. *)
Lemma broadcast_Some {A} (n : nat) (l l' : list A) :
  broadcast n l = Some l' ->
  length l' = n /\ (length l = n \/ length l = 1%nat) /\
  (forall x, x ∈ l' -> x ∈ l) /\
  (forall k x, l !! k = Some x -> (k < n)%nat -> l' !! k = Some x).
Proof.
  unfold broadcast. destruct (length l =? n)%nat eqn:Hl.
  - apply Nat.eqb_eq in Hl. intros [= <-]. auto.
  - destruct l as [|x [|? ?]]; try done. intros [= <-].
    split; [by rewrite length_replicate|]. split; [by right|]. split.
    + intros y Hy. apply elem_of_replicate in Hy as [-> _]. left.
    + intros k y Hk Hlt. destruct k; [|done]. injection Hk as <-.
      by apply lookup_replicate_2.
Qed.

Lemma broadcast_fits {A} (n : nat) (l : list A) :
  length l = n \/ length l = 1%nat -> is_Some (broadcast n l).
Proof.
  unfold broadcast. intros [Hl|Hl].
  - by rewrite (proj2 (Nat.eqb_eq _ _) Hl).
  - destruct (length l =? n)%nat; [done|]. by destruct l as [|x [|? ?]].
Qed.

(** A store that returned: the table fits the buffer, axis by axis, and
    every position of the table that the buffer has holds the entry of the
    table. *)
Lemma store_all_Ok (field : grid slot) (g : grid float) f H W h w :
  rect H W field -> (0 < H)%nat -> rect h w g -> (0 < h)%nat ->
  store_all field g = Ok f ->
  (h = H \/ h = 1%nat) /\ (w = W \/ w = 1%nat) /\ rect H W f /\
  forall i j v,
    cell g i j = Some v -> (i < H)%nat -> (j < W)%nat ->
    cell f i j = Some (Stored v).
Proof.
  intros Hrf HH Hrg Hh. unfold store_all. rewrite (rect_shape _ _ _ Hrf HH). simpl.
  destruct (mapM (broadcast W) g) as [g1|] eqn:Hg1; simpl; [|done].
  destruct (broadcast H g1) as [g2|] eqn:Hg2; [|done].
  intros [= <-]. apply mapM_Some in Hg1.
  apply broadcast_Some in Hg2 as (Hlen2 & Hfit & Hfrom & Hat).
  rewrite <- (Forall2_length _ _ _ Hg1), (rect_length _ _ _ Hrg) in Hfit.
  split; [done|].
  assert (Forall (fun row => length row = W) g1) as Hrows.
  { apply Forall_lookup. intros i row1 Hi.
    destruct (Forall2_lookup_r _ _ _ _ _ Hg1 Hi) as (row & _ & Hrow).
    by apply broadcast_Some in Hrow as (? & _). }
  split.
  { destruct (lookup_lt_is_Some_2 g 0) as [row Hrow];
      [by rewrite (rect_length _ _ _ Hrg)|].
    destruct (Forall2_lookup_l _ _ _ _ _ Hg1 Hrow) as (row1 & _ & Hb).
    apply broadcast_Some in Hb as (_ & Hb & _).
    by rewrite (rect_row _ _ _ _ _ Hrg Hrow) in Hb. }
  split.
  { apply rect_gmap2. split; [done|].
    apply Forall_forall. intros row Hin.
    by apply (proj1 (Forall_forall _ _) Hrows), Hfrom. }
  intros i j v Hc Hi Hj. rewrite cell_gmap2. unfold cell in *.
  destruct (g !! i) as [row|] eqn:Hrow; [|done]. simpl in Hc.
  destruct (Forall2_lookup_l _ _ _ _ _ Hg1 Hrow) as (row1 & Hrow1 & Hb).
  apply broadcast_Some in Hb as (_ & _ & _ & Hb).
  rewrite (Hat i row1 Hrow1 Hi). simpl. by rewrite (Hb j v Hc Hj).
Qed.

(** A table that fits the buffer, axis by axis, is stored. *)
Lemma store_all_returns (field : grid slot) (g : grid float) H W h w :
  rect H W field -> (0 < H)%nat -> rect h w g ->
  (h = H \/ h = 1%nat) -> (w = W \/ w = 1%nat) ->
  returns (store_all field g).
Proof.
  intros Hrf HH Hrg Hh Hw. unfold store_all. rewrite (rect_shape _ _ _ Hrf HH). simpl.
  destruct (mapM (broadcast W) g) as [g1|] eqn:Hg1; simpl.
  - destruct (broadcast_fits H g1) as [g2 ->]; [|by eexists].
    apply mapM_Some in Hg1.
    by rewrite <- (Forall2_length _ _ _ Hg1), (rect_length _ _ _ Hrg).
  - assert (is_Some (mapM (broadcast W) g)) as [? Hsome]; [|congruence].
    apply mapM_is_Some, Forall_lookup. intros i row Hrow. simpl.
    apply broadcast_fits. by rewrite (rect_row _ _ _ _ _ Hrg Hrow).
Qed.

Lemma np_ndarray_rect h w : rect h w (np_ndarray h w).
Proof.
  unfold np_ndarray. split; [by rewrite length_replicate|].
  apply Forall_replicate. by rewrite length_replicate.
Qed.

(** A buffer that was just made holds nothing that was stored. *)
Lemma np_ndarray_cell h w i j :
  (i < h)%nat -> (j < w)%nat -> cell (np_ndarray h w) i j = Some Garbage.
Proof.
  intros Hi Hj. unfold cell, np_ndarray.
  rewrite lookup_replicate_2 by done. simpl. by rewrite lookup_replicate_2.
Qed.

Section MapperFacts.

Variable pearsonr : list float -> list float -> result (float * float).
Variable spearmanr : list float -> list float -> result (float * float).
Variables fine_moisture bare_soil : DataArray.

Local Abbreviation tuple_at := (cell_val pearsonr spearmanr fine_moisture bare_soil).

Local Abbreviation table := (table_of pearsonr spearmanr fine_moisture bare_soil).

Lemma correlation_loop_Ok arr :
  correlation_loop pearsonr spearmanr fine_moisture bare_soil = Ok arr <->
  table arr.
Proof.
  rewrite correlation_loop_table, mapM_Ok_Forall2. unfold table_of.
  split; intros Hf; (eapply Forall2_impl; [exact Hf|]);
    intros lat row; apply mapM_Ok_Forall2.
Qed.

Lemma table_cell arr i j lat lon :
  table arr ->
  latitude fine_moisture !! i = Some lat ->
  longitude fine_moisture !! j = Some lon ->
  exists val, cell arr i j = Some val /\ tuple_at lat lon = Ok val.
Proof.
  intros Ht Hi Hj.
  destruct (Forall2_lookup_l _ _ _ _ _ Ht Hi) as (row & Hrow & Hrows).
  destruct (Forall2_lookup_l _ _ _ _ _ Hrows Hj) as (val & Hval & Hv).
  exists val. split; [|done]. unfold cell. rewrite Hrow. done.
Qed.

Lemma table_rect arr :
  table arr ->
  rect (length (latitude fine_moisture)) (length (longitude fine_moisture)) arr.
Proof.
  intros Ht. split.
  - symmetry. by eapply Forall2_length.
  - apply Forall_lookup. intros i row Hi.
    destruct (Forall2_lookup_r _ _ _ _ _ Ht Hi) as (lat & _ & Hrow).
    symmetry. by eapply Forall2_length.
Qed.

Lemma store_field (k : nat) (arr : grid (list float)) buffer a f H W h w :
  rect H W buffer -> (0 < H)%nat -> rect h w arr ->
  last_axis arr k = Ok a -> store_all buffer a = Ok f ->
  (h = H \/ h = 1%nat) /\ (w = W \/ w = 1%nat) /\ rect H W f /\ field_of k arr f.
Proof.
  intros Hrb HH Hra Ha Hf. apply last_axis_Ok in Ha as (Ha & Hh & _).
  assert (0 < h)%nat as Hh' by (by rewrite <- (rect_length _ _ _ Hra)).
  pose proof (Forall2_rows_rect _ _ _ _ _ Ha Hra) as Hr.
  destruct (store_all_Ok _ _ _ _ _ _ _ Hrb HH Hr Hh' Hf) as (H1 & H2 & Hrf & Hcells).
  split; [done|]. split; [done|]. split; [done|].
  intros i j val Hval [slot_ Hslot].
  destruct (cell_rect_lt _ _ _ _ _ _ Hrf Hslot) as [Hi Hj].
  destruct (cell_Forall2 _ _ _ i j _ Ha Hval) as (v & Hv & Hk).
  exists v. split; [done|]. by apply Hcells.
Qed.

(** A table of the loop comes with a reference grid that is not empty: the
    cells were selected from it. *)
Lemma table_reference arr :
  table arr ->
  (0 < length (latitude fine_moisture))%nat ->
  (0 < length (longitude fine_moisture))%nat ->
  (0 < length (latitude bare_soil))%nat /\ (0 < length (longitude bare_soil))%nat.
Proof.
  intros Ht Hh Hw.
  destruct (lookup_lt_is_Some_2 _ _ Hh) as [lat Hlat].
  destruct (lookup_lt_is_Some_2 _ _ Hw) as [lon Hlon].
  destruct (table_cell arr 0 0 lat lon Ht Hlat Hlon) as (val & _ & Hval).
  destruct (cell_val_Ok _ _ _ _ _ _ _ Hval) as (x & y & _ & _ & _ & _ & _ & Hy & _).
  unfold sel_cell in Hy.
  apply bind_Ok in Hy as (i & Hi & Hy). apply bind_Ok in Hy as (j & Hj & _).
  apply get_loc_Ok, lookup_lt_Some in Hi. apply get_loc_Ok, lookup_lt_Some in Hj.
  lia.
Qed.

(** What a run of the two cells that returned has done. *)
Lemma correlation_mapper_Ok corr :
  correlation_mapper pearsonr spearmanr fine_moisture bare_soil = Ok corr ->
  exists arr,
    table arr /\
    (0 < length (latitude fine_moisture))%nat /\
    (0 < length (longitude fine_moisture))%nat /\
    (0 < length (latitude bare_soil))%nat /\
    (0 < length (longitude bare_soil))%nat /\
    (length (latitude fine_moisture) = length (latitude bare_soil) \/
     length (latitude fine_moisture) = 1%nat) /\
    (length (longitude fine_moisture) = length (longitude bare_soil) \/
     length (longitude fine_moisture) = 1%nat) /\
    corr_latitude corr = latitude bare_soil /\
    corr_longitude corr = longitude bare_soil /\
    Forall (rect (length (latitude bare_soil)) (length (longitude bare_soil)))
      [pearson_r corr; pearson_p corr; spearman_r corr; spearman_p corr] /\
    field_of 0 arr (pearson_r corr) /\
    field_of 1 arr (pearson_p corr) /\
    field_of 2 arr (spearman_r corr) /\
    field_of 3 arr (spearman_p corr).
Proof.
  unfold correlation_mapper. intros Hrun.
  apply bind_Ok in Hrun as (arr & Harr & Hrun).
  apply bind_Ok in Hrun as (a0 & Ha0 & Hrun).
  apply bind_Ok in Hrun as (f0 & Hf0 & Hrun).
  apply bind_Ok in Hrun as (a1 & Ha1 & Hrun).
  apply bind_Ok in Hrun as (f1 & Hf1 & Hrun).
  apply bind_Ok in Hrun as (a2 & Ha2 & Hrun).
  apply bind_Ok in Hrun as (f2 & Hf2 & Hrun).
  apply bind_Ok in Hrun as (a3 & Ha3 & Hrun).
  apply bind_Ok in Hrun as (f3 & Hf3 & Hrun).
  injection Hrun as <-. simpl.
  apply correlation_loop_Ok in Harr.
  pose proof (table_rect arr Harr) as Hrect.
  pose proof (last_axis_Ok _ _ _ Ha0) as (_ & Hpos1 & Hpos2).
  assert (0 < length (latitude fine_moisture))%nat as Hh.
  { destruct Hrect as [<- _]. exact Hpos1. }
  rewrite (rect_shape _ _ _ Hrect Hh) in Hpos2. simpl in Hpos2.
  destruct (table_reference arr Harr Hh Hpos2) as [HH HW].
  pose proof (np_ndarray_rect (length (latitude bare_soil))
                (length (longitude bare_soil))) as Hb.
  destruct (store_field 0 arr _ a0 f0 _ _ _ _ Hb HH Hrect Ha0 Hf0)
    as (Hlat & Hlon & R0 & F0).
  destruct (store_field 1 arr _ a1 f1 _ _ _ _ Hb HH Hrect Ha1 Hf1) as (_ & _ & R1 & F1).
  destruct (store_field 2 arr _ a2 f2 _ _ _ _ Hb HH Hrect Ha2 Hf2) as (_ & _ & R2 & F2).
  destruct (store_field 3 arr _ a3 f3 _ _ _ _ Hb HH Hrect Ha3 Hf3) as (_ & _ & R3 & F3).
  exists arr. repeat (split; [done|]).
  split; [|done]. by repeat first [apply Forall_nil_2|apply Forall_cons_2].
Qed.

(** The four values stored at a cell are the tuple of the cell. *)
Lemma correlation_mapper_cell corr i j lat lon :
  correlation_mapper pearsonr spearmanr fine_moisture bare_soil = Ok corr ->
  latitude fine_moisture !! i = Some lat ->
  longitude fine_moisture !! j = Some lon ->
  exists r p rs ps,
    tuple_at lat lon = Ok [r; p; rs; ps] /\
    cell (pearson_r corr) i j = Some (Stored r) /\
    cell (pearson_p corr) i j = Some (Stored p) /\
    cell (spearman_r corr) i j = Some (Stored rs) /\
    cell (spearman_p corr) i j = Some (Stored ps).
Proof.
  intros Hrun Hi Hj.
  destruct (correlation_mapper_Ok corr Hrun)
    as (arr & Ht & _ & _ & HH & HW & Hlat & Hlon & _ & _ & Hrects & F0 & F1 & F2 & F3).
  destruct (table_cell arr i j lat lon Ht Hi Hj) as (val & Hc & Hval).
  destruct (cell_val_Ok _ _ _ _ _ _ _ Hval)
    as (x & y & r & p & rs & ps & _ & _ & _ & _ & ->).
  exists r, p, rs, ps. split; [done|].
  apply lookup_lt_Some in Hi. apply lookup_lt_Some in Hj.
  assert (i < length (latitude bare_soil))%nat as Hi' by lia.
  assert (j < length (longitude bare_soil))%nat as Hj' by lia.
  apply Forall_cons in Hrects as [R0 Hrects].
  apply Forall_cons in Hrects as [R1 Hrects].
  apply Forall_cons in Hrects as [R2 Hrects].
  apply Forall_cons in Hrects as [R3 _].
  destruct (F0 i j _ Hc (cell_rect_is_Some _ _ _ i j R0 Hi' Hj')) as (v0 & [= <-] & ->).
  destruct (F1 i j _ Hc (cell_rect_is_Some _ _ _ i j R1 Hi' Hj')) as (v1 & [= <-] & ->).
  destruct (F2 i j _ Hc (cell_rect_is_Some _ _ _ i j R2 Hi' Hj')) as (v2 & [= <-] & ->).
  destruct (F3 i j _ Hc (cell_rect_is_Some _ _ _ i j R3 Hi' Hj')) as (v3 & [= <-] & ->).
  done.
Qed.

End MapperFacts.

(** ** Selections of a cell *)

Lemma get_loc_unique {L} `{EqDecision L} (index : list L) label k k' :
  get_loc index label = Ok k -> index !! k' = Some label -> k' = k.
Proof.
  unfold get_loc. intros Hg Hk'.
  destruct (positions label index 0) as [|k0 [|? ?]] eqn:Hp; try done.
  injection Hg as ->.
  assert (k' ∈ positions label index 0) as Hin.
  { apply positions_spec. split; [lia|]. by rewrite Nat.sub_0_r. }
  rewrite Hp in Hin. by apply list_elem_of_singleton in Hin.
Qed.

(** The series [.sel(latitude=lat, longitude=lon)] returns has one entry per
    time slice, the cell of that slice, missing or not. *)
Lemma sel_cell_Ok a lat lon x :
  sel_cell a lat lon = Ok x ->
  exists i j,
    get_loc (latitude a) lat = Ok i /\
    get_loc (longitude a) lon = Ok j /\
    Forall2 (fun (slice : grid float) v => cell slice i j = Some v) (values a) x.
Proof.
  unfold sel_cell. intros Hs.
  apply bind_Ok in Hs as (i & Hi & Hs).
  apply bind_Ok in Hs as (j & Hj & Hs).
  exists i, j. split; [done|]. split; [done|].
  apply mapM_Ok_Forall2 in Hs.
  eapply Forall2_impl; [exact Hs|]. intros slice v Hv. simpl in Hv.
  by destruct (cell slice i j) as [c|]; [injection Hv as ->|].
Qed.

Lemma sel_cell_returns a lat lon :
  wf a -> NoDup (latitude a) -> NoDup (longitude a) ->
  lat ∈ latitude a -> lon ∈ longitude a ->
  returns (sel_cell a lat lon).
Proof.
  intros [_ Hall] Hnd1 Hnd2 Hlat Hlon.
  apply list_elem_of_lookup in Hlat as [i Hi].
  apply list_elem_of_lookup in Hlon as [j Hj].
  unfold sel_cell.
  rewrite (get_loc_NoDup _ _ _ Hnd1 Hi). simpl.
  rewrite (get_loc_NoDup _ _ _ Hnd2 Hj). simpl.
  apply mapM_returns. intros slice Hslice.
  apply list_elem_of_lookup in Hslice as [t Ht].
  pose proof (Forall_lookup_1 _ _ _ _ Hall Ht) as Hr.
  destruct (cell_rect_is_Some _ _ _ i j Hr) as [v Hv].
  - by eapply lookup_lt_Some.
  - by eapply lookup_lt_Some.
  - rewrite Hv. by eexists.
Qed.

(** Nothing is taken out of two series without a missing value. *)
Lemma complete_pairs_all (x y : list float) :
  length x = length y ->
  Forall (fun v => isnan v = false) x ->
  Forall (fun v => isnan v = false) y ->
  complete_pairs x y = (x, y).
Proof.
  revert y. induction x as [|a x IH]; intros [|b y] Hlen Hx Hy; try done.
  apply Forall_cons in Hx as [Ha Hx]. apply Forall_cons in Hy as [Hb Hy].
  injection Hlen as Hlen. specialize (IH y Hlen Hx Hy).
  unfold complete_pairs in *. simpl. rewrite Ha, Hb. simpl.
  injection IH as IH1 IH2. f_equal; f_equal; [exact IH1|exact IH2].
Qed.

(** ** The correlation cell, claim by claim *)

Section MapperClaims.

Variable pearsonr : list float -> list float -> result (float * float).
Variable spearmanr : list float -> list float -> result (float * float).

Local Abbreviation loop := (correlation_loop pearsonr spearmanr).
Local Abbreviation mapper := (correlation_mapper pearsonr spearmanr).
Local Abbreviation tuple_of := (cell_val pearsonr spearmanr).

(** The loop runs through when, at every cell, the two selections and
    [pearsonr] return and [spearmanr] returns or raises [ValueError]. *)
Lemma correlation_loop_returns fine_moisture bare_soil :
  (forall lat lon,
     lat ∈ latitude fine_moisture -> lon ∈ longitude fine_moisture ->
     exists x y,
       sel_cell fine_moisture lat lon = Ok x /\
       sel_cell bare_soil lat lon = Ok y /\
       returns (pearsonr x y) /\
       (returns (spearmanr x y) \/ spearmanr x y = Raise ValueError)) ->
  returns (loop fine_moisture bare_soil).
Proof.
  intros Hcells. rewrite correlation_loop_table.
  apply mapM_returns. intros lat Hlat. apply mapM_returns. intros lon Hlon.
  destruct (Hcells lat lon Hlat Hlon) as (x & y & Hx & Hy & [rp Hp] & Hs).
  rewrite (cell_val_series _ _ _ _ _ _ x y Hx Hy), Hp.
  destruct Hs as [[rp' ->]| ->]; by eexists.
Qed.

(** C1, as the loop behaves: at a cell where [pearsonr] has returned and
    [spearmanr] raises [ValueError], the tuple of the cell is what [pearsonr]
    returned followed by two not-a-numbers, it is appended and the loop goes
    on, and these are the four values stored at the cell (so the two Pearson
    values are not-a-number when [pearsonr] returns not-a-number, as on a
    series without variance).  The loop as a whole returns when this is the
    only kind of failure.  An exception of [pearsonr], which is called
    outside the [try], leaves the loop, and so does an exception of
    [spearmanr] other than [ValueError]. *)
Theorem rank_failure_recorded_as_nan fine_moisture bare_soil lat lon x y :
  sel_cell fine_moisture lat lon = Ok x ->
  sel_cell bare_soil lat lon = Ok y ->
  (forall r p,
     pearsonr x y = Ok (r, p) -> spearmanr x y = Raise ValueError ->
     tuple_of fine_moisture bare_soil lat lon = Ok [r; p; NaN; NaN] /\
     (forall latout,
        lon_step pearsonr spearmanr fine_moisture bare_soil lat latout lon
        = Ok (append_val latout [r; p; NaN; NaN])) /\
     (forall corr i j,
        mapper fine_moisture bare_soil = Ok corr ->
        latitude fine_moisture !! i = Some lat ->
        longitude fine_moisture !! j = Some lon ->
        cell (pearson_r corr) i j = Some (Stored r) /\
        cell (pearson_p corr) i j = Some (Stored p) /\
        cell (spearman_r corr) i j = Some (Stored NaN) /\
        cell (spearman_p corr) i j = Some (Stored NaN))) /\
  ((forall lat' lon',
      lat' ∈ latitude fine_moisture -> lon' ∈ longitude fine_moisture ->
      exists x' y',
        sel_cell fine_moisture lat' lon' = Ok x' /\
        sel_cell bare_soil lat' lon' = Ok y' /\
        returns (pearsonr x' y') /\
        (returns (spearmanr x' y') \/ spearmanr x' y' = Raise ValueError)) ->
   fault_isolated pearsonr spearmanr fine_moisture bare_soil) /\
  (forall e, pearsonr x y = Raise e ->
             tuple_of fine_moisture bare_soil lat lon = Raise e) /\
  (forall rp e, pearsonr x y = Ok rp -> spearmanr x y = Raise e ->
                e <> ValueError ->
                tuple_of fine_moisture bare_soil lat lon = Raise e).
Proof.
  intros Hx Hy.
  pose proof (cell_val_series pearsonr spearmanr _ _ lat lon x y Hx Hy) as Hval.
  split; [|split; [|split]].
  - intros r p Hp Hs. rewrite Hp, Hs in Hval. simpl in Hval.
    split; [done|]. split.
    + intros latout. unfold lon_step. by rewrite Hval.
    + intros corr i j Hrun Hi Hj.
      destruct (correlation_mapper_cell _ _ _ _ corr i j lat lon Hrun Hi Hj)
        as (r' & p' & rs & ps & Hval' & H0 & H1 & H2 & H3).
      rewrite Hval in Hval'. injection Hval' as <- <- <- <-. done.
  - apply correlation_loop_returns.
  - intros e He. by rewrite He in Hval.
  - intros rp e Hp He Hne. rewrite Hp, He in Hval. by destruct e.
Qed.

(** C3, as the loop behaves: the four values stored at a cell are the
    results of [pearsonr] and [spearmanr] on the two series of the cell as
    they are: each series has one entry for every time slice of its array,
    missing or not, and no pair is taken out of it.  The two series are the
    complete pairs when neither has a missing value. *)
Theorem statistics_of_whole_series fine_moisture bare_soil corr i j lat lon :
  mapper fine_moisture bare_soil = Ok corr ->
  latitude fine_moisture !! i = Some lat ->
  longitude fine_moisture !! j = Some lon ->
  exists x y ib jb r p rs ps,
    sel_cell fine_moisture lat lon = Ok x /\
    sel_cell bare_soil lat lon = Ok y /\
    Forall2 (fun (slice : grid float) v => cell slice i j = Some v)
            (values fine_moisture) x /\
    latitude bare_soil !! ib = Some lat /\
    longitude bare_soil !! jb = Some lon /\
    Forall2 (fun (slice : grid float) v => cell slice ib jb = Some v)
            (values bare_soil) y /\
    pearsonr x y = Ok (r, p) /\
    (spearmanr x y = Ok (rs, ps) \/
     spearmanr x y = Raise ValueError /\ rs = NaN /\ ps = NaN) /\
    cell (pearson_r corr) i j = Some (Stored r) /\
    cell (pearson_p corr) i j = Some (Stored p) /\
    cell (spearman_r corr) i j = Some (Stored rs) /\
    cell (spearman_p corr) i j = Some (Stored ps) /\
    (length x = length y ->
     Forall (fun v => isnan v = false) x ->
     Forall (fun v => isnan v = false) y ->
     complete_pairs x y = (x, y)).
Proof.
  intros Hrun Hi Hj.
  destruct (correlation_mapper_cell _ _ _ _ corr i j lat lon Hrun Hi Hj)
    as (r & p & rs & ps & Hval & H0 & H1 & H2 & H3).
  destruct (cell_val_Ok _ _ _ _ _ _ _ Hval)
    as (x & y & r' & p' & rs' & ps' & Hx & Hy & Hp & Hs & [= <- <- <- <-]).
  destruct (sel_cell_Ok _ _ _ _ Hx) as (i' & j' & Hi' & Hj' & Hxs).
  destruct (sel_cell_Ok _ _ _ _ Hy) as (ib & jb & Hib & Hjb & Hys).
  rewrite <- (get_loc_unique _ _ _ _ Hi' Hi) in Hxs.
  rewrite <- (get_loc_unique _ _ _ _ Hj' Hj) in Hxs.
  exists x, y, ib, jb, r, p, rs, ps.
  split; [done|]. split; [done|]. split; [done|].
  split; [by apply get_loc_Ok|]. split; [by apply get_loc_Ok|].
  split; [done|]. split; [done|]. split; [done|].
  split; [done|]. split; [done|]. split; [done|]. split; [done|].
  apply complete_pairs_all.
Qed.

(** C9: the four values stored at a cell depend only on the two series of
    that cell: two runs whose inputs give the same two series at a latitude
    and a longitude store the same four values there.  And a run of the loop
    body appends its tuple to the row of its latitude and leaves every other
    entry of the table as it was. *)
Theorem cell_depends_only_on_its_series
    fineA bareA corrA iA jA fineB bareB corrB iB jB lat lon :
  mapper fineA bareA = Ok corrA ->
  mapper fineB bareB = Ok corrB ->
  latitude fineA !! iA = Some lat -> longitude fineA !! jA = Some lon ->
  latitude fineB !! iB = Some lat -> longitude fineB !! jB = Some lon ->
  sel_cell fineA lat lon = sel_cell fineB lat lon ->
  sel_cell bareA lat lon = sel_cell bareB lat lon ->
  (cell (pearson_r corrA) iA jA = cell (pearson_r corrB) iB jB /\
   cell (pearson_p corrA) iA jA = cell (pearson_p corrB) iB jB /\
   cell (spearman_r corrA) iA jA = cell (spearman_r corrB) iB jB /\
   cell (spearman_p corrA) iA jA = cell (spearman_p corrB) iB jB) /\
  (forall lat' lon' rows row latout',
     lon_step pearsonr spearmanr fineA bareA lat' (rows ++ [row]) lon' = Ok latout' ->
     exists val,
       latout' = rows ++ [row ++ [val]] /\
       cell latout' (length rows) (length row) = Some val /\
       forall i' j',
         (i', j') <> (length rows, length row) ->
         cell latout' i' j' = cell (rows ++ [row]) i' j').
Proof.
  intros HA HB HiA HjA HiB HjB Hfine Hbare. split.
  - destruct (correlation_mapper_cell _ _ _ _ corrA iA jA lat lon HA HiA HjA)
      as (r & p & rs & ps & Hval & -> & -> & -> & ->).
    destruct (correlation_mapper_cell _ _ _ _ corrB iB jB lat lon HB HiB HjB)
      as (r' & p' & rs' & ps' & Hval' & -> & -> & -> & ->).
    assert (tuple_of fineA bareA lat lon = tuple_of fineB bareB lat lon) as Heq.
    { unfold cell_val. by rewrite Hfine, Hbare. }
    rewrite Hval, Hval' in Heq. by injection Heq as <- <- <- <-.
  - intros lat' lon' rows row latout' Hstep.
    unfold lon_step in Hstep. apply bind_Ok in Hstep as (val & _ & Hstep).
    injection Hstep as <-. rewrite append_val_last.
    exists val. split; [done|]. split.
    + unfold cell. rewrite list_lookup_middle by done. simpl.
      by rewrite list_lookup_middle.
    + intros i' j' Hne. unfold cell.
      destruct (decide (i' = length rows)) as [->|Hi'].
      * rewrite !list_lookup_middle by done. simpl.
        assert (j' <> length row) as Hj' by congruence.
        destruct (decide (j' < length row)%nat).
        -- by rewrite lookup_app_l.
        -- rewrite !lookup_ge_None_2; [done|lia|rewrite length_app; simpl; lia].
      * destruct (decide (i' < length rows)%nat).
        -- by rewrite !lookup_app_l.
        -- rewrite !lookup_ge_None_2; [done| |]; rewrite length_app; simpl; lia.
Qed.

End MapperClaims.

Section MapperTotal.

Variable pearsonr : list float -> list float -> result (float * float).
Variable spearmanr : list float -> list float -> result (float * float).
Variables fine_moisture bare_soil : DataArray.

Lemma store_returns (arr : grid (list float)) (k H W h w : nat) :
  rect h w arr -> (0 < h)%nat -> (0 < w)%nat -> (0 < H)%nat ->
  (h = H \/ h = 1%nat) -> (w = W \/ w = 1%nat) ->
  (forall i j val, cell arr i j = Some val -> length val = 4%nat) ->
  (k < 4)%nat ->
  exists a f,
    last_axis arr k = Ok a /\ store_all (np_ndarray H W) a = Ok f.
Proof.
  intros Hr Hh Hw HH Hfit1 Hfit2 Hlen Hk.
  destruct (last_axis_returns arr k h w Hr Hh Hw) as [a Ha].
  { intros i j val Hval. rewrite (Hlen i j val Hval). done. }
  pose proof (last_axis_Ok _ _ _ Ha) as (Hf & _).
  destruct (store_all_returns (np_ndarray H W) a H W h w) as [f Hstore];
    [apply np_ndarray_rect|done|by eapply Forall2_rows_rect|done|done|].
  by exists a, f.
Qed.

(** The two cells return when the loop does, on a grid that is not empty and
    is the grid of [bare_soil]. *)
Lemma correlation_mapper_returns arr :
  table_of pearsonr spearmanr fine_moisture bare_soil arr ->
  latitude fine_moisture = latitude bare_soil ->
  longitude fine_moisture = longitude bare_soil ->
  (0 < length (latitude bare_soil))%nat ->
  (0 < length (longitude bare_soil))%nat ->
  returns (correlation_mapper pearsonr spearmanr fine_moisture bare_soil).
Proof.
  intros Ht Hlat Hlon Hh Hw.
  pose proof (table_rect _ _ _ _ arr Ht) as Hr. rewrite Hlat, Hlon in Hr.
  assert (forall i j val, cell arr i j = Some val -> length val = 4%nat) as Hlen.
  { intros i j val Hval. unfold cell in Hval.
    destruct (arr !! i) as [row|] eqn:Hrow; [|done]. simpl in Hval.
    destruct (Forall2_lookup_r _ _ _ _ _ Ht Hrow) as (lat & _ & Hrows).
    destruct (Forall2_lookup_r _ _ _ _ _ Hrows Hval) as (lon & _ & Hv).
    destruct (cell_val_Ok _ _ _ _ _ _ _ Hv)
      as (? & ? & ? & ? & ? & ? & _ & _ & _ & _ & ->). done. }
  unfold correlation_mapper.
  rewrite (proj2 (correlation_loop_Ok _ _ _ _ arr) Ht). simpl.
  destruct (store_returns arr 0 _ _ _ _ Hr Hh Hw Hh (or_introl eq_refl)
              (or_introl eq_refl) Hlen) as (a0 & f0 & -> & Hf0); [lia|].
  simpl. unfold new_corr. simpl. rewrite Hf0. simpl.
  destruct (store_returns arr 1 _ _ _ _ Hr Hh Hw Hh (or_introl eq_refl)
              (or_introl eq_refl) Hlen) as (a1 & f1 & -> & Hf1); [lia|].
  simpl. rewrite Hf1. simpl.
  destruct (store_returns arr 2 _ _ _ _ Hr Hh Hw Hh (or_introl eq_refl)
              (or_introl eq_refl) Hlen) as (a2 & f2 & -> & Hf2); [lia|].
  simpl. rewrite Hf2. simpl.
  destruct (store_returns arr 3 _ _ _ _ Hr Hh Hw Hh (or_introl eq_refl)
              (or_introl eq_refl) Hlen) as (a3 & f3 & -> & Hf3); [lia|].
  simpl. rewrite Hf3. simpl. by eexists.
Qed.

End MapperTotal.

Section Pipeline.

Variable spline : nat -> grid Q -> nat * nat -> nat -> nat -> Q.
Variable pearsonr : list float -> list float -> result (float * float).
Variable spearmanr : list float -> list float -> result (float * float).
Variable SPLINE_ORDER : nat.
Variables bare_soil soil_moisture fine_moisture : DataArray.

Hypothesis inputs : resamplable SPLINE_ORDER bare_soil soil_moisture.
Hypothesis resampled :
  grid_aligner spline SPLINE_ORDER bare_soil soil_moisture = Ok fine_moisture.
Hypothesis latitudes : NoDup (latitude bare_soil).
Hypothesis longitudes : NoDup (longitude bare_soil).
Hypothesis some_latitude : (0 < length (latitude bare_soil))%nat.
Hypothesis some_longitude : (0 < length (longitude bare_soil))%nat.
Hypothesis statistics_return :
  forall lat lon x y,
    sel_cell fine_moisture lat lon = Ok x ->
    sel_cell bare_soil lat lon = Ok y ->
    returns (pearsonr x y) /\
    (returns (spearmanr x y) \/ spearmanr x y = Raise ValueError).

(** C10: the four fields of [corr] are made as buffers of the shape of the
    grid of [bare_soil] that hold nothing stored; the loop runs over the
    coordinates of [fine_moisture], which are those of [bare_soil], of which
    it is a copy; and after the four stores every cell of every field holds
    a stored value (a number or not-a-number): nothing of what the buffers
    held at first is left. *)
Theorem every_cell_is_stored :
  latitude fine_moisture = latitude bare_soil /\
  longitude fine_moisture = longitude bare_soil /\
  (forall i j,
     (i < length (latitude bare_soil))%nat ->
     (j < length (longitude bare_soil))%nat ->
     cell (pearson_r (new_corr bare_soil)) i j = Some Garbage /\
     cell (pearson_p (new_corr bare_soil)) i j = Some Garbage /\
     cell (spearman_r (new_corr bare_soil)) i j = Some Garbage /\
     cell (spearman_p (new_corr bare_soil)) i j = Some Garbage) /\
  exists corr,
    correlation_mapper pearsonr spearmanr fine_moisture bare_soil = Ok corr /\
    corr_latitude corr = latitude bare_soil /\
    corr_longitude corr = longitude bare_soil /\
    Forall (rect (length (latitude bare_soil)) (length (longitude bare_soil)))
      [pearson_r corr; pearson_p corr; spearman_r corr; spearman_p corr] /\
    forall i j,
      (i < length (latitude bare_soil))%nat ->
      (j < length (longitude bare_soil))%nat ->
      exists r p rs ps,
        cell (pearson_r corr) i j = Some (Stored r) /\
        cell (pearson_p corr) i j = Some (Stored p) /\
        cell (spearman_r corr) i j = Some (Stored rs) /\
        cell (spearman_p corr) i j = Some (Stored ps).
Proof using All.
  destruct (grid_aligner_Ok spline _ _ _ inputs) as (fine & Hrun & Hst & _).
  rewrite resampled in Hrun. injection Hrun as <-.
  destruct Hst as (Ht & Hlat & Hlon & Hlen & Hall).
  split; [done|]. split; [done|]. split.
  { intros i j Hi Hj. unfold new_corr. simpl.
    by rewrite !np_ndarray_cell. }
  assert (wf fine_moisture) as Hwf.
  { split; [by rewrite Ht|]. by rewrite Hlat, Hlon. }
  destruct (correlation_loop_returns pearsonr spearmanr fine_moisture bare_soil)
    as [arr Harr].
  { intros lat lon Hin_lat Hin_lon.
    destruct (sel_cell_returns fine_moisture lat lon) as [x Hx];
      [done|by rewrite Hlat|by rewrite Hlon|done|done|].
    destruct (sel_cell_returns bare_soil lat lon) as [y Hy];
      [by destruct inputs|done|done|by rewrite <- Hlat|by rewrite <- Hlon|].
    exists x, y. split; [done|]. split; [done|].
    by apply (statistics_return lat lon). }
  apply correlation_loop_Ok in Harr.
  destruct (correlation_mapper_returns _ _ _ _ arr Harr Hlat Hlon
              some_latitude some_longitude) as [corr Hcorr].
  exists corr. split; [done|].
  destruct (correlation_mapper_Ok _ _ _ _ corr Hcorr)
    as (arr' & Ht' & _ & _ & _ & _ & _ & _ & Hcl & Hclon & Hrects & _).
  split; [done|]. split; [done|]. split; [done|].
  intros i j Hi Hj.
  destruct (lookup_lt_is_Some_2 (latitude fine_moisture) i) as [lat Hi'];
    [by rewrite Hlat|].
  destruct (lookup_lt_is_Some_2 (longitude fine_moisture) j) as [lon Hj'];
    [by rewrite Hlon|].
  destruct (correlation_mapper_cell _ _ _ _ corr i j lat lon Hcorr Hi' Hj')
    as (r & p & rs & ps & _ & H0 & H1 & H2 & H3).
  by exists r, p, rs, ps.
Qed.

End Pipeline.

(** * Closed examples *)

Import Example.

Lemma resamplable_checked order bare soil :
  (order <= 5)%nat /\ wf bare /\ wf soil /\
  length (time soil) = length (time bare) /\
  NoDup (time soil) /\ NoDup (time bare) /\
  Forall (fun t => t ∈ time bare) (time soil) /\
  (0 < length (latitude soil))%nat /\ (0 < length (longitude soil))%nat ->
  resamplable order bare soil.
Proof. intros (? & ? & ? & ? & ? & ? & ? & ? & ?). by constructor. Qed.

Ltac checked := apply resamplable_checked; repeat split; compute_done.

(** Names the value a closed computation returns. *)
Tactic Notation "run_as" ident(name) ident(Hname) constr(call) :=
  let r := eval vm_compute in call in
  match r with
  | Ok ?v => pose (name := v); assert (call = Ok name) as Hname by (vm_compute; reflexivity)
  end.

(** C4 on the two-year example, with the linear spline. *)
Lemma aligner_zooms_filled_source_witness :
  resamplable 1 bare_soil soil_moisture /\
  exists fine_moisture,
    grid_aligner Standin.linear 1 bare_soil soil_moisture = Ok fine_moisture /\
    length (values fine_moisture) = 2%nat /\
    ZOOM_FACTOR bare_soil soil_moisture = Ok (4 # 2, 4 # 2)%Q.
Proof.
  assert (resamplable 1 bare_soil soil_moisture) as Hin by checked.
  split; [exact Hin|].
  destruct (aligner_zooms_filled_source Standin.linear 1 _ _ Hin)
    as (fine & Hrun & Hlen & Hzoom & _).
  exists fine. split; [exact Hrun|]. split; [exact Hlen|exact Hzoom].
Defined.

(** C5 on the two-year example: the linear spline goes below zero next to
    the negative source value, and the stored values do not. *)
Lemma resampled_values_nonnegative_witness :
  resamplable 1 bare_soil soil_moisture /\
  exists fine_moisture,
    grid_aligner Standin.linear 1 bare_soil soil_moisture = Ok fine_moisture /\
    forall k s i j q,
      values fine_moisture !! k = Some s ->
      cell s i j = Some (Num q) -> (0 <= q)%Q.
Proof.
  assert (resamplable 1 bare_soil soil_moisture) as Hin by checked.
  split; [exact Hin|].
  destruct (resampled_values_nonnegative Standin.linear 1 _ _ Hin)
    as (fine & Hrun & Hpos & _).
  exists fine. split; [exact Hrun|exact Hpos].
Defined.

(** C2, the amended statement, on the two-year example. *)
Lemma missing_iff_reference_or_zoomed_mask_witness :
  resamplable 1 bare_soil soil_moisture /\
  exists fine_moisture zoom,
    grid_aligner Standin.linear 1 bare_soil soil_moisture = Ok fine_moisture /\
    ZOOM_FACTOR bare_soil soil_moisture = Ok zoom.
Proof.
  assert (resamplable 1 bare_soil soil_moisture) as Hin by checked.
  split; [exact Hin|].
  destruct (missing_iff_reference_or_zoomed_mask Standin.linear 1 _ _ Hin)
    as (fine & zoom & Hrun & Hzoom & _).
  exists fine, zoom. split; [exact Hrun|exact Hzoom].
Defined.

(** C2 as it stands fails on the two-year example: in the second year the
    source is missing at its first cell, so the output is missing at (0, 0),
    where the reference has a value. *)
Lemma same_missing_cells_counterexample :
  exists fine_moisture,
    grid_aligner Standin.linear 0 bare_soil soil_moisture = Ok fine_moisture /\
    ~ same_missing_cells fine_moisture bare_soil.
Proof.
  run_as fine Hrun (grid_aligner Standin.linear 0 bare_soil soil_moisture).
  exists fine. split; [done|]. intros Hsame.
  run_as s Hs (sel_time fine 1). run_as hi Hhi (sel_time bare_soil 1).
  assert (missing hi 0 0) as Hmiss by (by apply (Hsame 1 s hi)).
  vm_compute in Hmiss. discriminate.
Qed.

(** C6, the amended statement, on an array with a negative and a missing
    value. *)
Lemma resample_onto_own_grid_witness :
  resamplable 0 own_grid own_grid /\
  exists fine_moisture,
    grid_aligner Standin.linear 0 own_grid own_grid = Ok fine_moisture /\
    time fine_moisture = time own_grid /\
    length (values fine_moisture) = 1%nat.
Proof.
  assert (resamplable 0 own_grid own_grid) as Hin by checked.
  split; [exact Hin|].
  destruct (resample_onto_own_grid Standin.linear _ Hin)
    as (fine & Hrun & Htime & _ & _ & Hlen & _ & _).
  exists fine. split; [exact Hrun|]. split; [exact Htime|exact Hlen].
Defined.

(** C6 as it stands fails on that array: the value -1 comes back as 0. *)
Lemma values_preserved_counterexample :
  exists fine_moisture,
    grid_aligner Standin.linear 0 own_grid own_grid = Ok fine_moisture /\
    ~ values_preserved own_grid fine_moisture.
Proof.
  run_as fine Hrun (grid_aligner Standin.linear 0 own_grid own_grid).
  exists fine. split; [done|]. intros Hsame.
  destruct (Hsame 0%nat [ [N 1; N (-1)]; [NaN; N 3] ]
              [ [N 1; Num 0]; [NaN; N 3] ] 0%nat 1%nat (inject_Z (-1)))
    as (q' & Hq' & Heq); [done|done|done|].
  vm_compute in Hq'. injection Hq' as <-. vm_compute in Heq. discriminate.
Qed.

(** C7, the amended statement, on arrays of the shapes of the scenario. *)
Lemma nearest_blocks_clamped_and_masked_witness :
  resamplable 0 bare_soil_12 soil_moisture_12 /\
  exists fine_moisture,
    grid_aligner Standin.linear 0 bare_soil_12 soil_moisture_12 = Ok fine_moisture /\
    length (values fine_moisture) = 12%nat /\
    Forall (rect 4 4) (values fine_moisture).
Proof.
  assert (resamplable 0 bare_soil_12 soil_moisture_12) as Hin by checked.
  split; [exact Hin|].
  destruct (nearest_blocks_clamped_and_masked Standin.linear _ _ Hin
              eq_refl eq_refl eq_refl eq_refl eq_refl)
    as (fine & Hrun & Hlen & Hrect & _).
  exists fine. split; [exact Hrun|]. split; [exact Hlen|exact Hrect].
Defined.

(** C7 as it stands fails on those arrays: the block of the source pixel -4
    holds 0. *)
Lemma blocks_equal_pixels_counterexample :
  exists fine_moisture data s,
    grid_aligner Standin.linear 0 bare_soil_12 soil_moisture_12 = Ok fine_moisture /\
    values soil_moisture_12 !! 0%nat = Some data /\
    values fine_moisture !! 0%nat = Some s /\
    ~ blocks_equal_pixels s data.
Proof.
  run_as fine Hrun (grid_aligner Standin.linear 0 bare_soil_12 soil_moisture_12).
  eexists fine, _, _. split; [done|]. split; [reflexivity|]. split; [reflexivity|].
  intros Hblocks.
  specialize (Hblocks 1%nat 1%nat (N (-4)) 0%nat 0%nat eq_refl).
  assert (0 < 2)%nat as Hlt by lia.
  specialize (Hblocks Hlt Hlt). vm_compute in Hblocks. discriminate.
Qed.

(** C1, the amended statement, at the cell of [fine_3] that does not vary:
    [Standin.pearsonr] returns two not-a-numbers, [Standin.spearmanr] raises
    [ValueError], four not-a-numbers are recorded and the loop returns. *)
Lemma rank_failure_recorded_as_nan_witness :
  cell_val Standin.pearsonr Standin.spearmanr fine_3 bare_3 0%Q 0%Q
    = Ok [NaN; NaN; NaN; NaN] /\
  fault_isolated Standin.pearsonr Standin.spearmanr fine_3 bare_3.
Proof.
  destruct (rank_failure_recorded_as_nan Standin.pearsonr Standin.spearmanr
              fine_3 bare_3 0%Q 0%Q [N 5; N 5; N 5] [N 1; N 2; N 3]
              eq_refl eq_refl) as (Hcell & Hloop & _).
  split.
  - by apply (Hcell NaN NaN).
  - apply Hloop. intros lat' lon' Hlat Hlon.
    apply list_elem_of_singleton in Hlat as ->.
    apply elem_of_cons in Hlon as [->|Hlon];
      [|apply list_elem_of_singleton in Hlon as ->].
    + exists [N 5; N 5; N 5], [N 1; N 2; N 3].
      split; [done|]. split; [done|]. split; [by eexists|by right].
    + exists [N 1; N 2; N 3], [N 2; N 4; N 6].
      split; [done|]. split; [done|]. split; [by eexists|left; by eexists].
Defined.

(** C1 as it stands fails on a single year: the series of the cell has one
    observation, [Standin.pearsonr] raises [ValueError] as
    [scipy.stats.pearsonr] does below two observations, and the call is not
    inside the [try]. *)
Lemma fault_isolated_counterexample :
  correlation_loop Standin.pearsonr Standin.spearmanr fine_1 bare_1
    = Raise ValueError /\
  ~ fault_isolated Standin.pearsonr Standin.spearmanr fine_1 bare_1.
Proof.
  assert (correlation_loop Standin.pearsonr Standin.spearmanr fine_1 bare_1
          = Raise ValueError) as Hrun by (vm_compute; reflexivity).
  split; [done|]. intros [arr Harr]. congruence.
Qed.

(** C3, the amended statement, at the cell of [fine_gap]: the series that
    is passed to the two routines has the four years, the missing one
    included. *)
Lemma statistics_of_whole_series_witness :
  exists corr x y,
    correlation_mapper Standin.pearsonr Standin.spearmanr fine_gap bare_gap = Ok corr /\
    sel_cell fine_gap 0%Q 0%Q = Ok x /\
    sel_cell bare_gap 0%Q 0%Q = Ok y /\
    length x = 4%nat /\ length y = 4%nat.
Proof.
  run_as corr Hrun (correlation_mapper Standin.pearsonr Standin.spearmanr fine_gap bare_gap).
  destruct (statistics_of_whole_series Standin.pearsonr Standin.spearmanr
              fine_gap bare_gap corr 0 0 0%Q 0%Q Hrun eq_refl eq_refl)
    as (x & y & ib & jb & r & p & rs & ps & Hx & Hy & Hxs & _ & _ & Hys & _).
  exists corr, x, y. split; [exact Hrun|]. split; [exact Hx|]. split; [exact Hy|].
  split.
  - symmetry. exact (Forall2_length _ _ _ Hxs).
  - symmetry. exact (Forall2_length _ _ _ Hys).
Defined.

(** C3 as it stands fails at that cell: the three complete pairs are
    collinear, with coefficients 1 and p-values 0, and what is recorded is
    not-a-number. *)
Lemma excludes_missing_pairs_counterexample :
  exists corr,
    correlation_mapper Standin.pearsonr Standin.spearmanr fine_gap bare_gap = Ok corr /\
    cell (pearson_r corr) 0 0 = Some (Stored NaN) /\
    Standin.pearsonr [N 1; N 2; N 3] [N 2; N 4; N 6] = Ok (Num 1, Num 0) /\
    ~ excludes_missing_pairs Standin.pearsonr Standin.spearmanr fine_gap bare_gap corr.
Proof.
  run_as corr Hrun (correlation_mapper Standin.pearsonr Standin.spearmanr fine_gap bare_gap).
  exists corr. split; [done|]. split; [done|]. split; [done|].
  intros Hex.
  destruct (Hex 0%nat 0%nat 0%Q 0%Q [N 1; NaN; N 2; N 3] [N 2; NaN; N 4; N 6])
    as (r & p & rs & ps & Hp & _ & Hr & _); [done|done|done|done|].
  vm_compute in Hp. vm_compute in Hr. congruence.
Qed.

(** C9 on two runs that differ at the first cell and agree at the second:
    what is stored at the second cell is the same. *)
Lemma cell_depends_only_on_its_series_witness :
  exists corrA corrB,
    correlation_mapper Standin.pearsonr Standin.spearmanr fine_3 bare_3 = Ok corrA /\
    correlation_mapper Standin.pearsonr Standin.spearmanr fine_3' bare_3' = Ok corrB /\
    cell (pearson_r corrA) 0 1 = cell (pearson_r corrB) 0 1 /\
    cell (pearson_p corrA) 0 1 = cell (pearson_p corrB) 0 1 /\
    cell (spearman_r corrA) 0 1 = cell (spearman_r corrB) 0 1 /\
    cell (spearman_p corrA) 0 1 = cell (spearman_p corrB) 0 1 /\
    cell (pearson_r corrA) 0 0 <> cell (pearson_r corrB) 0 0.
Proof.
  run_as corrA HA (correlation_mapper Standin.pearsonr Standin.spearmanr fine_3 bare_3).
  run_as corrB HB (correlation_mapper Standin.pearsonr Standin.spearmanr fine_3' bare_3').
  destruct (cell_depends_only_on_its_series Standin.pearsonr Standin.spearmanr
              fine_3 bare_3 corrA 0 1 fine_3' bare_3' corrB 0 1 0%Q 1%Q
              HA HB eq_refl eq_refl eq_refl eq_refl eq_refl eq_refl)
    as ((H1 & H2 & H3 & H4) & _).
  exists corrA, corrB.
  split; [exact HA|]. split; [exact HB|]. split; [exact H1|].
  split; [exact H2|]. split; [exact H3|]. split; [exact H4|].
  vm_compute. discriminate.
Defined.

(** C10 on the three-year example, resampled at order 0 and correlated with
    the stand-in routines. *)
Lemma every_cell_is_stored_witness :
  exists fine_moisture corr,
    grid_aligner Standin.linear 0 bare_pipe soil_pipe = Ok fine_moisture /\
    correlation_mapper Standin.pearsonr Standin.spearmanr fine_moisture bare_pipe
      = Ok corr /\
    Forall (rect 2 2)
      [pearson_r corr; pearson_p corr; spearman_r corr; spearman_p corr] /\
    cell (pearson_r corr) 0 0 = Some (Stored NaN) /\
    cell (pearson_r corr) 1 1 = Some (Stored (Num 1)).
Proof.
  assert (resamplable 0 bare_pipe soil_pipe) as Hin by checked.
  run_as fine Hrun (grid_aligner Standin.linear 0 bare_pipe soil_pipe).
  destruct (every_cell_is_stored Standin.linear Standin.pearsonr Standin.spearmanr
              0 bare_pipe soil_pipe fine Hin Hrun)
    as (_ & _ & _ & corr & Hcorr & _ & _ & Hrect & _).
  - compute_done.
  - compute_done.
  - compute_done.
  - compute_done.
  - intros lat lon x y Hx Hy.
    destruct (sel_cell_Ok _ _ _ _ Hx) as (i & j & Hi & Hj & _).
    apply get_loc_Ok in Hi, Hj.
    destruct i as [|[|i]]; [| |done];
      (destruct j as [|[|j]]; [| |done]);
      injection Hi as <-; injection Hj as <-;
      vm_compute in Hx; vm_compute in Hy;
      injection Hx as <-; injection Hy as <-;
      (split; [by eexists|left; by eexists]).
  - exists fine, corr. split; [exact Hrun|]. split; [exact Hcorr|].
    split; [exact Hrect|].
    vm_compute in Hcorr. injection Hcorr as <-. split; reflexivity.
Defined.

(** * Further properties of the resampling cell *)

(** ** What the cell returns, and when *)

(** X1: The array the resampling cell returns keeps the invariant of labelled
    arrays: it has the time stamps of [soil_moisture] and the grid of
    [bare_soil], one slice per stamp, every slice of the shape of that grid,
    which is the shape [ndzoom] gives its outputs under [ZOOM_FACTOR]. *)
Theorem resampled_array_is_well_formed
    (spline : nat -> grid Q -> nat * nat -> nat -> nat -> Q)
    (SPLINE_ORDER : nat) (bare_soil soil_moisture : DataArray) :
  resamplable SPLINE_ORDER bare_soil soil_moisture ->
  exists fine_moisture zoom,
    grid_aligner spline SPLINE_ORDER bare_soil soil_moisture = Ok fine_moisture /\
    time fine_moisture = time soil_moisture /\
    latitude fine_moisture = latitude bare_soil /\
    longitude fine_moisture = longitude bare_soil /\
    wf fine_moisture /\
    ZOOM_FACTOR bare_soil soil_moisture = Ok zoom /\
    output_shape (length (latitude soil_moisture), length (longitude soil_moisture)) zoom
    = (length (latitude fine_moisture), length (longitude fine_moisture)).
Proof.
  intros inputs.
  destruct (grid_aligner_Ok spline _ _ _ inputs)
    as (fine & Hrun & (Ht & Hlat & Hlon & Hlen & Hall) & _).
  eexists fine, _. split; [done|]. split; [done|]. split; [done|]. split; [done|].
  split.
  { split; [by rewrite Ht|]. by rewrite Hlat, Hlon. }
  split; [exact (ZOOM_FACTOR_value _ _ _ inputs)|].
  rewrite Hlat, Hlon. exact (output_shape_zoom_factor _ _ _ inputs).
Qed.

Lemma get_loc_all_NoDup {L} `{EqDecision L} (index : list L) :
  (forall label, label ∈ index -> returns (get_loc index label)) -> NoDup index.
Proof.
  intros Hall. apply NoDup_alt. intros i j x Hi Hj.
  destruct (Hall x) as [k Hk]; [by eapply list_elem_of_lookup_2|].
  rewrite (get_loc_unique _ _ _ _ Hk Hi). by rewrite (get_loc_unique _ _ _ _ Hk Hj).
Qed.

Section AlignerReturns.

Variable spline : nat -> grid Q -> nat * nat -> nat -> nat -> Q.
Variable SPLINE_ORDER : nat.
Variables bare_soil soil_moisture : DataArray.

Local Abbreviation step zoom :=
  (resample_step spline SPLINE_ORDER zoom bare_soil soil_moisture).

(** A run of the loop body that returns has found its stamp once in each of
    the three time axes and has been given an order [ndzoom] knows; it
    leaves the axes of [fine_moisture] as they are. *)
Lemma resample_step_inv zoom fine ts fine' :
  step zoom fine ts = Ok fine' ->
  returns (get_loc (time soil_moisture) ts) /\
  returns (get_loc (time fine) ts) /\
  returns (get_loc (time bare_soil) ts) /\
  (SPLINE_ORDER <= 5)%nat /\
  time fine' = time fine /\
  latitude fine' = latitude fine /\
  longitude fine' = longitude fine.
Proof.
  unfold resample_step, sel_time. intros Hstep.
  apply bind_Ok in Hstep as (data & Hdata & Hstep).
  apply several_as_Ok, bind_Ok in Hdata as (ks & Hks & _).
  apply bind_Ok in Hstep as (output & Hout & Hstep).
  apply bind_Ok in Hstep as (k & Hk & Hstep).
  apply bind_Ok in Hstep as (cur & _ & Hstep).
  apply bind_Ok in Hstep as (fine1 & _ & Hstep).
  apply bind_Ok in Hstep as (hi & Hhi & Hstep).
  apply several_as_Ok, bind_Ok in Hhi as (kb & Hkb & _).
  apply bind_Ok in Hstep as (fine2 & _ & Hstep).
  apply bind_Ok in Hstep as (fine3 & _ & Hstep).
  injection Hstep as <-. simpl.
  split; [by eexists|]. split; [by eexists|]. split; [by eexists|].
  split; [|done].
  unfold ndzoom in Hout. destruct (5 <? SPLINE_ORDER)%nat eqn:Ho; [done|].
  apply Nat.ltb_ge in Ho. lia.
Qed.

Lemma resample_loop_inv zoom todo : forall fine fine',
  for_each (step zoom) todo fine = Ok fine' ->
  time fine' = time fine /\
  latitude fine' = latitude fine /\
  longitude fine' = longitude fine /\
  forall ts, ts ∈ todo ->
    returns (get_loc (time soil_moisture) ts) /\
    returns (get_loc (time bare_soil) ts) /\
    (SPLINE_ORDER <= 5)%nat.
Proof.
  induction todo as [|ts todo IH]; intros fine fine' Hloop; simpl in Hloop.
  - injection Hloop as <-. split; [done|]. split; [done|]. split; [done|].
    intros ts' Hin. by apply elem_of_nil in Hin.
  - apply bind_Ok in Hloop as (fine1 & Hstep & Hloop).
    apply resample_step_inv in Hstep as (Hs & _ & Hb & Ho & Ht & Hlat & Hlon).
    destruct (IH _ _ Hloop) as (Ht' & Hlat' & Hlon' & Hrest).
    split; [congruence|]. split; [congruence|]. split; [congruence|].
    intros ts' Hin. apply elem_of_cons in Hin as [->|Hin]; [done|by apply Hrest].
Qed.

(** X2: The resampling cell returns only on arrays whose time axes have one
    length, with a source grid that is not empty, no stamp of
    [soil_moisture] repeated, and every stamp of [soil_moisture] found
    exactly once among the stamps of [bare_soil]; and, when there is a stamp
    at all, only for an order up to 5.  What it returns has the stamps of
    [soil_moisture] and the grid of [bare_soil]. *)
Theorem grid_aligner_returns_only_if fine_moisture :
  grid_aligner spline SPLINE_ORDER bare_soil soil_moisture = Ok fine_moisture ->
  length (time soil_moisture) = length (time bare_soil) /\
  (0 < length (latitude soil_moisture))%nat /\
  (0 < length (longitude soil_moisture))%nat /\
  NoDup (time soil_moisture) /\
  Forall (fun ts => exists k, get_loc (time bare_soil) ts = Ok k) (time soil_moisture) /\
  (time soil_moisture <> [] -> (SPLINE_ORDER <= 5)%nat) /\
  time fine_moisture = time soil_moisture /\
  latitude fine_moisture = latitude bare_soil /\
  longitude fine_moisture = longitude bare_soil.
Proof.
  unfold grid_aligner. intros Hrun.
  apply bind_Ok in Hrun as (fine0 & Hset & Hrun).
  apply bind_Ok in Hrun as (zoom & Hzoom & Hrun).
  unfold set_time in Hset.
  destruct (length (time soil_moisture) =? length (time bare_soil))%nat eqn:Hlen; [|done].
  apply Nat.eqb_eq in Hlen. injection Hset as <-. simpl in Hrun.
  unfold ZOOM_FACTOR in Hzoom.
  apply bind_Ok in Hzoom as (zy & Hzy & Hzoom).
  apply bind_Ok in Hzoom as (zx & Hzx & _).
  apply resample_loop_inv in Hrun as (Ht & Hlat & Hlon & Hall). simpl in *.
  split; [done|].
  split; [unfold true_div in Hzy; destruct (length (latitude soil_moisture)); [done|lia]|].
  split; [unfold true_div in Hzx; destruct (length (longitude soil_moisture)); [done|lia]|].
  split; [apply get_loc_all_NoDup; intros ts Hin; by apply Hall|].
  split; [apply Forall_forall; intros ts Hin; by apply Hall|].
  split; [|done].
  intros Hne. destruct (time soil_moisture) as [|ts rest]; [done|].
  apply (Hall ts). by left.
Qed.

(** X3: Before the loop: time axes of different lengths are a [ValueError],
    whatever else the arrays hold; with time axes of one length, a source
    array without latitudes or without longitudes is a
    [ZeroDivisionError]. *)
Theorem grid_aligner_raises_before_the_loop :
  (length (time soil_moisture) <> length (time bare_soil) ->
   grid_aligner spline SPLINE_ORDER bare_soil soil_moisture = Raise ValueError) /\
  (length (time soil_moisture) = length (time bare_soil) ->
   latitude soil_moisture = [] \/ longitude soil_moisture = [] ->
   grid_aligner spline SPLINE_ORDER bare_soil soil_moisture = Raise ZeroDivisionError).
Proof.
  split.
  - intros Hne. unfold grid_aligner, set_time.
    apply Nat.eqb_neq in Hne. by rewrite Hne.
  - intros Hlen Hempty. unfold grid_aligner, set_time.
    rewrite Hlen, Nat.eqb_refl. simpl. unfold ZOOM_FACTOR.
    destruct (latitude soil_moisture) as [|la lats] eqn:Hlat; simpl; [done|].
    destruct Hempty as [?| ->]; [done|]. done.
Qed.

End AlignerReturns.

(** ** A time stamp that the reference array does not have *)

Section MissingStamp.

Variable spline : nat -> grid Q -> nat * nat -> nat -> nat -> Q.
Variable SPLINE_ORDER : nat.
Variables bare_soil soil_moisture : DataArray.

Hypothesis order_known : (SPLINE_ORDER <= 5)%nat.
Hypothesis reference_wf : wf bare_soil.
Hypothesis source_wf : wf soil_moisture.
Hypothesis same_length : length (time soil_moisture) = length (time bare_soil).
Hypothesis stamps : NoDup (time soil_moisture).
Hypothesis reference_stamps : NoDup (time bare_soil).
Hypothesis some_latitude : (0 < length (latitude soil_moisture))%nat.
Hypothesis some_longitude : (0 < length (longitude soil_moisture))%nat.

Let zoom : Q * Q :=
  (Z.of_nat (length (latitude bare_soil)) # Pos.of_nat (length (latitude soil_moisture)),
   Z.of_nat (length (longitude bare_soil)) # Pos.of_nat (length (longitude soil_moisture))).

(** The two grids alone, without any time step, are inputs the cell runs
    through on: what [ndzoom] does depends on the grids only. *)
Lemma grids_resamplable :
  resamplable SPLINE_ORDER
    (mkDataArray [] (latitude bare_soil) (longitude bare_soil) [])
    (mkDataArray [] (latitude soil_moisture) (longitude soil_moisture) []).
Proof using order_known some_latitude some_longitude.
  constructor; simpl; try done; try constructor; by constructor.
Qed.

(** The loop body at a stamp of [soil_moisture]: it fills the slice of the
    stamp when [bare_soil] has the stamp, and raises [KeyError], at
    [bare_soil.sel(time=timestamp)], when it has not. *)
Lemma resample_step_at fine k ts data :
  loop_state bare_soil soil_moisture fine ->
  time soil_moisture !! k = Some ts ->
  values soil_moisture !! k = Some data ->
  (ts ∈ time bare_soil ->
   exists s,
     rect (length (latitude bare_soil)) (length (longitude bare_soil)) s /\
     resample_step spline SPLINE_ORDER zoom bare_soil soil_moisture fine ts
     = Ok (mkDataArray (time fine) (latitude fine) (longitude fine)
             (<[k := s]> (values fine)))) /\
  (ts ∉ time bare_soil ->
   resample_step spline SPLINE_ORDER zoom bare_soil soil_moisture fine ts
   = Raise KeyError).
Proof using All.
  intros (Ht & Hlat & Hlon & Hlen & Hall) Hts Hdata.
  assert (rect (length (latitude soil_moisture)) (length (longitude soil_moisture)) data)
    as Hrd by (by eapply wf_slice).
  destruct (ndzoom_rect spline _ _ _ grids_resamplable (gmap2 nan_to_num data))
    as (output & Hz & Hro); [by apply rect_gmap2|]. simpl in Hz, Hro.
  pose proof (mask_rect _ _ _ grids_resamplable data Hrd) as Hrm. simpl in Hrm.
  destruct (lookup_lt_is_Some_2 (values fine) k) as [cur Hcur].
  { rewrite Hlen. by eapply lookup_lt_Some. }
  assert (rect (length (latitude bare_soil)) (length (longitude bare_soil)) cur)
    as Hrcur by (eapply (Forall_lookup_1 _ _ _ _ Hall Hcur)).
  assert (
    resample_step spline SPLINE_ORDER zoom bare_soil soil_moisture fine ts
    = (hi ← several_as IndexError (sel_time bare_soil ts);
       fine2 ← set_nan (gmap2 isnan hi) (clamp (gmap2 Num output));
       fine3 ← set_nan (ndzoom_mask (gmap2 isnan data) zoom) fine2;
       Ok (mkDataArray (time fine) (latitude fine) (longitude fine)
             (<[k := fine3]> (values fine))))) as Hhead.
  { unfold resample_step, sel_time.
    rewrite (get_loc_NoDup _ _ _ stamps Hts). simpl.
    rewrite (item_Ok _ _ _ Hdata). simpl. unfold zoom. rewrite Hz. simpl.
    rewrite Ht, (get_loc_NoDup _ _ _ stamps Hts). simpl.
    rewrite (item_Ok _ _ _ Hcur). simpl. unfold assign_all.
    rewrite (rect_same_shape _ _ cur output Hrcur Hro). done. }
  rewrite Hhead. clear Hhead. split.
  - intros Hin.
    destruct (get_loc_elem _ _ reference_stamps Hin) as (kb & Hkb).
    pose proof (get_loc_Ok _ _ _ Hkb) as Hkb'.
    destruct (lookup_lt_is_Some_2 (values bare_soil) kb) as [hi Hhi].
    { destruct reference_wf as [-> _]. by eapply lookup_lt_Some. }
    assert (rect (length (latitude bare_soil)) (length (longitude bare_soil)) hi)
      as Hrhi by (by eapply wf_slice).
    assert (rect (length (latitude bare_soil)) (length (longitude bare_soil))
              (clamp (gmap2 Num output))) as Hrc.
    { unfold clamp. apply rect_mask_assign; by repeat apply rect_gmap2. }
    assert (rect (length (latitude bare_soil)) (length (longitude bare_soil))
              (mask_assign NaN (gmap2 isnan hi) (clamp (gmap2 Num output)))) as Hr1.
    { apply rect_mask_assign; [by apply rect_gmap2|done]. }
    eexists. split; [by apply rect_mask_assign; [exact Hrm|exact Hr1]|].
    unfold sel_time. rewrite Hkb. simpl. rewrite (item_Ok _ _ _ Hhi). simpl.
    unfold set_nan.
    rewrite (rect_same_shape _ _ _ (gmap2 isnan hi) Hrc (rect_gmap2 _ _ _ isnan Hrhi)).
    simpl.
    rewrite (rect_same_shape _ _ _ (ndzoom_mask (gmap2 isnan data) zoom) Hr1 Hrm).
    reflexivity.
  - intros Hnot. unfold sel_time, get_loc.
    by rewrite (positions_absent _ _ 0 Hnot).
Qed.

Lemma resample_loop_missing pre : forall done fine ts rest,
  time soil_moisture = done ++ pre ++ ts :: rest ->
  loop_state bare_soil soil_moisture fine ->
  Forall (fun t => t ∈ time bare_soil) pre ->
  ts ∉ time bare_soil ->
  for_each (resample_step spline SPLINE_ORDER zoom bare_soil soil_moisture)
           (pre ++ ts :: rest) fine
  = Raise KeyError.
Proof using All.
  induction pre as [|t pre IH]; intros done fine ts rest Hsplit Hst Hpre Hnot.
  - simpl in *.
    assert (time soil_moisture !! length done = Some ts) as Hts.
    { rewrite Hsplit. by rewrite list_lookup_middle. }
    destruct (lookup_lt_is_Some_2 (values soil_moisture) (length done)) as [data Hdata].
    { destruct source_wf as [-> _]. by eapply lookup_lt_Some. }
    destruct (resample_step_at fine _ _ _ Hst Hts Hdata) as [_ Hraise].
    by rewrite (Hraise Hnot).
  - apply Forall_cons in Hpre as [Hin Hpre]. simpl in Hsplit.
    assert (time soil_moisture !! length done = Some t) as Hts.
    { rewrite Hsplit. by rewrite list_lookup_middle. }
    destruct (lookup_lt_is_Some_2 (values soil_moisture) (length done)) as [data Hdata].
    { destruct source_wf as [-> _]. by eapply lookup_lt_Some. }
    destruct (resample_step_at fine _ _ _ Hst Hts Hdata) as [Hok _].
    destruct (Hok Hin) as (s & Hrs & Hstep).
    simpl. rewrite Hstep. simpl.
    apply (IH (done ++ [t])); [|by apply loop_state_insert|done|done].
    rewrite Hsplit. by rewrite <- app_assoc.
Qed.

(** X4: The cell selects the slice of [bare_soil] by the time stamp of
    [soil_moisture]: when the stamps before some stamp are stamps of
    [bare_soil] and that stamp is not, the cell raises [KeyError], whatever
    the stamps after it. *)
Theorem missing_stamp_is_a_KeyError pre ts rest :
  time soil_moisture = pre ++ ts :: rest ->
  Forall (fun t => t ∈ time bare_soil) pre ->
  ts ∉ time bare_soil ->
  grid_aligner spline SPLINE_ORDER bare_soil soil_moisture = Raise KeyError.
Proof using All.
  intros Hsplit Hpre Hnot.
  unfold grid_aligner, set_time. rewrite same_length, Nat.eqb_refl. simpl.
  unfold ZOOM_FACTOR. rewrite !true_div_pos by done. simpl. fold zoom.
  rewrite Hsplit at 1.
  apply (resample_loop_missing pre []); [done| |done|done].
  split; [done|]. split; [done|]. split; [done|]. simpl.
  split; [by destruct reference_wf as [-> _]|by destruct reference_wf].
Qed.

End MissingStamp.

(** ** What the result depends on *)

Lemma DataArray_eq (a b : DataArray) :
  time a = time b -> latitude a = latitude b -> longitude a = longitude b ->
  values a = values b -> a = b.
Proof. destruct a, b. simpl. by intros -> -> -> ->. Qed.

Section ReferenceValues.

Variable spline : nat -> grid Q -> nat * nat -> nat -> nat -> Q.
Variable SPLINE_ORDER : nat.
Variables bare_soil bare_soil' soil_moisture : DataArray.

Hypothesis inputs : resamplable SPLINE_ORDER bare_soil soil_moisture.
Hypothesis inputs' : resamplable SPLINE_ORDER bare_soil' soil_moisture.
Hypothesis same_time : time bare_soil = time bare_soil'.
Hypothesis same_latitude : latitude bare_soil = latitude bare_soil'.
Hypothesis same_longitude : longitude bare_soil = longitude bare_soil'.
Hypothesis same_missing :
  gmap2 isnan <$> values bare_soil = gmap2 isnan <$> values bare_soil'.

(** X5: [fine_moisture] starts as a copy of [bare_soil], and every slice of the
    copy is overwritten: of the values of [bare_soil] only the places of the
    missing ones reach the result.  Two reference arrays with the same axes,
    missing at the same cells, give the same resampled array. *)
Theorem reference_values_do_not_matter :
  grid_aligner spline SPLINE_ORDER bare_soil soil_moisture
  = grid_aligner spline SPLINE_ORDER bare_soil' soil_moisture.
Proof using All.
  destruct (grid_aligner_Ok spline _ _ _ inputs)
    as (fine & -> & (Ht & Hlat & Hlon & Hlen & _) & Hslices).
  destruct (grid_aligner_Ok spline _ _ _ inputs')
    as (fine' & -> & (Ht' & Hlat' & Hlon' & Hlen' & _) & Hslices').
  f_equal. apply DataArray_eq; [congruence|congruence|congruence|].
  apply list_eq. intros k.
  destruct (time soil_moisture !! k) as [ts|] eqn:Hts.
  - destruct (lookup_lt_is_Some_2 (values soil_moisture) k) as [data Hdata].
    { destruct inputs as [_ _ [-> _] _ _ _ _ _ _]. by eapply lookup_lt_Some. }
    destruct (Hslices k ts data Hts Hdata)
      as (s & (hi & output & Hhi & _ & Hz & _ & ->) & ->).
    destruct (Hslices' k ts data Hts Hdata)
      as (s' & (hi' & output' & Hhi' & _ & Hz' & _ & ->) & ->).
    rewrite <- same_latitude, <- same_longitude in Hz'.
    rewrite Hz in Hz'. injection Hz' as <-.
    rewrite <- same_latitude, <- same_longitude.
    f_equal. unfold remask. do 2 f_equal.
    unfold sel_time in Hhi, Hhi'. rewrite <- same_time in Hhi'.
    destruct (get_loc (time bare_soil) ts) as [kb|e]; [|done]. simpl in Hhi, Hhi'.
    apply item_inv in Hhi, Hhi'.
    assert ((gmap2 isnan <$> values bare_soil) !! kb
            = (gmap2 isnan <$> values bare_soil') !! kb) as Heq by (by rewrite same_missing).
    rewrite !list_lookup_fmap, Hhi, Hhi' in Heq. simpl in Heq. congruence.
  - apply lookup_ge_None in Hts.
    rewrite !lookup_ge_None_2; [done|lia|lia].
Qed.

End ReferenceValues.

(** ** Resampling twice onto the own grid *)

Lemma grid_ext {A} h w (g g' : grid A) :
  rect h w g -> rect h w g' ->
  (forall i j, cell g i j = cell g' i j) -> g = g'.
Proof.
  intros Hr Hr' Hcells. apply list_eq. intros i.
  destruct (g !! i) as [row|] eqn:Hrow.
  - assert (i < h)%nat as Hi.
    { rewrite <- (rect_length _ _ _ Hr). by eapply lookup_lt_Some. }
    destruct (lookup_lt_is_Some_2 g' i) as [row' Hrow'].
    { by rewrite (rect_length _ _ _ Hr'). }
    rewrite Hrow'. f_equal. apply list_eq. intros j.
    specialize (Hcells i j). unfold cell in Hcells.
    by rewrite Hrow, Hrow' in Hcells.
  - apply lookup_ge_None in Hrow. rewrite (rect_length _ _ _ Hr) in Hrow.
    symmetry. apply lookup_ge_None. by rewrite (rect_length _ _ _ Hr').
Qed.

Lemma clamp_value_idempotent (x : float) :
  clamp_value (clamp_value x) = clamp_value x.
Proof.
  unfold clamp_value. destruct x as [|q]; simpl; [done|].
  destruct (Qle_bool 0 q) eqn:Hq; simpl; [by rewrite Hq|done].
Qed.

Section OwnGridTwice.

Variable spline : nat -> grid Q -> nat * nat -> nat -> nat -> Q.

(** Onto its own grid at order 0, every slice of the result is the slice of
    the original, clamped cell by cell. *)
Lemma own_grid_slices (a : DataArray) :
  resamplable 0 a a ->
  exists fine,
    grid_aligner spline 0 a a = Ok fine /\
    loop_state a a fine /\
    forall k s0,
      values a !! k = Some s0 ->
      exists s,
        values fine !! k = Some s /\
        forall i j, cell s i j = clamp_value <$> cell s0 i j.
Proof.
  intros inputs.
  destruct (order0_cells spline _ _ inputs) as (fine & Hrun & Hst & Hcells).
  pose proof inputs as [_ Hwf _ _ Hnd _ _ Hh Hw].
  exists fine. split; [done|]. split; [done|].
  intros k s0 Hs0.
  destruct (lookup_lt_is_Some_2 (time a) k) as [ts Hts].
  { destruct Hwf as [<- _]. by eapply lookup_lt_Some. }
  destruct (Hcells k ts s0 Hts Hs0) as (hi & s & Hhi & Hk & Hrs & Hc).
  assert (hi = s0) as ->.
  { unfold sel_time in Hhi. rewrite (get_loc_NoDup _ _ _ Hnd Hts) in Hhi.
    simpl in Hhi. apply item_inv in Hhi. congruence. }
  exists s. split; [done|]. intros i j.
  destruct (decide ((i < length (latitude a))%nat /\ (j < length (longitude a))%nat))
    as [[Hi Hj]|Hout].
  - destruct (Hc i j i j Hi Hj (nearest_same _ _ Hi) (nearest_same _ _ Hj))
      as (x & d & Hx & Hd & Hcell).
    rewrite Hx in Hd. injection Hd as <-.
    rewrite Hcell, Hx. simpl. f_equal. by destruct x.
  - rewrite (cell_outside _ _ s i j Hrs Hout).
    by rewrite (cell_outside _ _ s0 i j (wf_slice _ _ _ Hwf Hs0) Hout).
Qed.

(** X6: Resampling onto the own grid at order 0 changes an array at most once:
    resampled again in the same way, the result comes back as it is. *)
Theorem resample_own_grid_twice (a : DataArray) :
  resamplable 0 a a ->
  exists fine,
    grid_aligner spline 0 a a = Ok fine /\
    grid_aligner spline 0 fine fine = Ok fine.
Proof.
  intros inputs.
  destruct (own_grid_slices a inputs) as (fine & Hrun & Hst & Hslices).
  pose proof Hst as (Ht & Hlat & Hlon & Hlen & Hall).
  pose proof inputs as [Ho [Hwl Hwr] _ _ Hnd _ _ Hh Hw].
  assert (resamplable 0 fine fine) as inputs'.
  { assert (wf fine) as Hwf.
    { split; [by rewrite Ht|]. by rewrite Hlat, Hlon. }
    constructor; try done.
    - by rewrite Ht.
    - by rewrite Ht.
    - by apply Forall_forall.
    - by rewrite Hlat.
    - by rewrite Hlon. }
  exists fine. split; [done|].
  destruct (own_grid_slices fine inputs')
    as (fine2 & -> & (Ht2 & Hlat2 & Hlon2 & Hlen2 & Hall2) & Hslices2).
  f_equal. apply DataArray_eq; try done.
  apply list_eq. intros k.
  destruct (values fine !! k) as [s|] eqn:Hs.
  - destruct (Hslices2 k s Hs) as (s2 & Hs2 & Hc2). rewrite Hs2. f_equal.
    destruct (lookup_lt_is_Some_2 (values a) k) as [s0 Hs0].
    { rewrite Hwl, <- Hlen. by eapply lookup_lt_Some. }
    destruct (Hslices k s0 Hs0) as (s' & Hs' & Hc). rewrite Hs in Hs'. injection Hs' as <-.
    apply (grid_ext (length (latitude fine)) (length (longitude fine))).
    + by eapply (Forall_lookup_1 _ _ _ _ Hall2 Hs2).
    + rewrite Hlat, Hlon. by eapply (Forall_lookup_1 _ _ _ _ Hall Hs).
    + intros i j. rewrite Hc2, Hc.
      destruct (cell s0 i j) as [x|]; simpl; [|done].
      by rewrite clamp_value_idempotent.
  - apply lookup_ge_None in Hs. apply lookup_ge_None. rewrite Hlen2, Ht. by rewrite <- Hlen.
Qed.

End OwnGridTwice.

(** ** A sample outside the source *)

Section OutsideSample.

Variable spline : nat -> grid Q -> nat * nat -> nat -> nat -> Q.
Variable SPLINE_ORDER : nat.
Variables bare_soil soil_moisture : DataArray.
Variables i j : nat.

Hypothesis inputs : resamplable SPLINE_ORDER bare_soil soil_moisture.
Hypothesis row : (i < length (latitude bare_soil))%nat.
Hypothesis column : (j < length (longitude bare_soil))%nat.
Hypothesis outside :
  nearest (length (latitude soil_moisture)) (length (latitude bare_soil)) i = None \/
  nearest (length (longitude soil_moisture)) (length (longitude bare_soil)) j = None.

(** X7: an output cell with a sample outside the source, which the rounding
    of the step brings about for the last row or column of some pairs of
    axis lengths, gets nothing from the source: at every time step the
    zoomed mask does not mark it, so it is missing exactly when the
    reference is missing there, whatever is missing in the source, also on
    a target finer than the source; and at order 0 it holds zero wherever
    the reference has a value. *)
Theorem sample_outside_source_reads_nothing :
  exists fine_moisture,
    grid_aligner spline SPLINE_ORDER bare_soil soil_moisture = Ok fine_moisture /\
    forall k ts data,
      time soil_moisture !! k = Some ts ->
      values soil_moisture !! k = Some data ->
      exists hi s x,
        sel_time bare_soil ts = Ok hi /\
        values fine_moisture !! k = Some s /\
        cell hi i j = Some x /\
        (missing s i j <-> missing hi i j) /\
        (SPLINE_ORDER = 0%nat ->
         cell s i j = Some (if isnan x then NaN else Num 0)).
Proof using All.
  destruct (grid_aligner_Ok spline _ _ _ inputs) as (fine & Hrun & Hst & Hslices).
  exists fine. split; [done|].
  intros k ts data Hts Hdata.
  assert (rect (length (latitude soil_moisture)) (length (longitude soil_moisture)) data)
    as Hrd by (destruct inputs; by eapply wf_slice).
  destruct (Hslices k ts data Hts Hdata) as (s & Hfor & Hk).
  destruct (slice_for_cell spline _ _ _ inputs ts data s i j Hrd Hfor row column)
    as (zoom & hi & output & m & x & v & Hzf & Hhi & Hz & Hm & Hx & Hv & Hc).
  rewrite (ZOOM_FACTOR_value _ _ _ inputs) in Hzf. injection Hzf as <-.
  assert (0 < length (latitude soil_moisture))%nat as Hh by (by destruct inputs).
  assert (0 < length (longitude soil_moisture))%nat as Hw by (by destruct inputs).
  assert (m = false) as ->.
  { unfold ndzoom_mask in Hm.
    rewrite (cell_zoom_order0 _ _ _ _ _ _ _ i j (rect_gmap2 _ _ _ isnan Hrd) Hh Hw
               (output_shape_zoom_factor _ _ _ inputs) row column) in Hm.
    destruct outside as [Hout|Hout]; rewrite Hout in Hm.
    - by injection Hm.
    - destruct (nearest (length (latitude soil_moisture)) _ i); by injection Hm. }
  simpl in Hc.
  exists hi, s, x. split; [done|]. split; [done|]. split; [done|]. split.
  - unfold missing. rewrite Hc, Hx. split.
    + intros [= Hnan]. destruct x as [|x]; [done|]. simpl in Hnan.
      unfold clamp_value in Hnan. simpl in Hnan. by destruct (Qle_bool 0 v).
    + by intros [= ->].
  - intros Horder. rewrite Hc. f_equal.
    destruct (isnan x); [done|].
    rewrite (ndzoom_cells spline _ _ _ inputs _ _ i j
               (rect_gmap2 _ _ _ nan_to_num Hrd) Hz row column) in Hv.
    rewrite Horder in Hv. simpl in Hv.
    assert (v = 0%Q) as ->; [|done].
    destruct outside as [Hout|Hout]; rewrite Hout in Hv.
    + by injection Hv.
    + destruct (nearest (length (latitude soil_moisture)) _ i); by injection Hv.
Qed.

End OutsideSample.

(** * Further properties of the correlation cells *)

(** ** When the two cells return *)

Lemma mapM_first_Raise {X Y} (f : X -> result Y) (l1 l2 : list X) (x : X) (e : exn) :
  (forall x', x' ∈ l1 -> returns (f x')) -> f x = Raise e ->
  mapM f (l1 ++ x :: l2) = Raise e.
Proof.
  intros Hl1 Hx. induction l1 as [|x1 l1 IH]; simpl.
  - by rewrite Hx.
  - destruct (Hl1 x1) as [y ->]; [by left|]. simpl.
    rewrite IH; [done|]. intros x' Hin. apply Hl1. by right.
Qed.

Section MapperOutcome.

Variable pearsonr : list float -> list float -> result (float * float).
Variable spearmanr : list float -> list float -> result (float * float).
Variables fine_moisture bare_soil : DataArray.

Local Abbreviation tuple_at := (cell_val pearsonr spearmanr fine_moisture bare_soil).
Local Abbreviation run := (correlation_mapper pearsonr spearmanr fine_moisture bare_soil).

(** X8: On a grid without latitudes or without longitudes the loop has nothing
    to compute and returns, and [arr[..., 0]] raises [IndexError]: no
    statistic routine is called and no field is stored to. *)
Theorem empty_grid_is_an_IndexError :
  latitude fine_moisture = [] \/ longitude fine_moisture = [] ->
  correlation_mapper pearsonr spearmanr fine_moisture bare_soil = Raise IndexError.
Proof.
  intros Hempty. unfold correlation_mapper. rewrite correlation_loop_table.
  destruct Hempty as [->| ->]; [done|]. simpl.
  assert (forall lats : list Q,
            mapM (fun _ : Q => Ok (@nil (list float))) lats
            = Ok (replicate (length lats) [])) as Hrows.
  { induction lats as [|lat lats IH]; simpl; [done|]. by rewrite IH. }
  rewrite Hrows. simpl. by destruct (latitude fine_moisture).
Qed.

(** X9: The loop goes latitude by latitude and, within a latitude, longitude by
    longitude, and stops at the first cell whose tuple cannot be computed:
    the exception of that cell is the exception of the whole run, whatever
    the cells after it would do. *)
Theorem first_failing_cell_decides lats lat lats' lons lon lons' e :
  latitude fine_moisture = lats ++ lat :: lats' ->
  longitude fine_moisture = lons ++ lon :: lons' ->
  (forall la lo, la ∈ lats -> lo ∈ longitude fine_moisture -> returns (tuple_at la lo)) ->
  (forall lo, lo ∈ lons -> returns (tuple_at lat lo)) ->
  tuple_at lat lon = Raise e ->
  run = Raise e.
Proof.
  intros Hlat Hlon Hrows Hrow Hcell.
  unfold correlation_mapper. rewrite correlation_loop_table, Hlat.
  rewrite (mapM_first_Raise _ lats lats' lat e); [done| |].
  - intros la Hla. apply mapM_returns. intros lo Hlo. by apply Hrows.
  - rewrite Hlon. by apply mapM_first_Raise.
Qed.

(** X10: The loop and the four stores return exactly when the loop returns
    on a grid that has a latitude and a longitude, and that has, along each
    axis, the length of the grid of [bare_soil], from which the four buffers
    take their shape, or the length one: numpy repeats a table of one row
    or one column over the buffer.  A table of any other shape is a
    [ValueError] at the first store. *)
Theorem correlation_mapper_returns_iff :
  (returns (correlation_mapper pearsonr spearmanr fine_moisture bare_soil) <->
   returns (correlation_loop pearsonr spearmanr fine_moisture bare_soil) /\
   (0 < length (latitude fine_moisture))%nat /\
   (0 < length (longitude fine_moisture))%nat /\
   (length (latitude fine_moisture) = length (latitude bare_soil) \/
    length (latitude fine_moisture) = 1%nat) /\
   (length (longitude fine_moisture) = length (longitude bare_soil) \/
    length (longitude fine_moisture) = 1%nat)) /\
  (returns (correlation_loop pearsonr spearmanr fine_moisture bare_soil) ->
   (0 < length (latitude fine_moisture))%nat ->
   (0 < length (longitude fine_moisture))%nat ->
   ~ ((length (latitude fine_moisture) = length (latitude bare_soil) \/
       length (latitude fine_moisture) = 1%nat) /\
      (length (longitude fine_moisture) = length (longitude bare_soil) \/
       length (longitude fine_moisture) = 1%nat)) ->
   correlation_mapper pearsonr spearmanr fine_moisture bare_soil = Raise ValueError).
Proof.
  assert (forall arr,
            table_of pearsonr spearmanr fine_moisture bare_soil arr ->
            forall i j val, cell arr i j = Some val -> length val = 4%nat) as Hlen.
  { intros arr Ht i j val Hval. unfold cell in Hval.
    destruct (arr !! i) as [row|] eqn:Hrow; [|done]. simpl in Hval.
    destruct (Forall2_lookup_r _ _ _ _ _ Ht Hrow) as (la & _ & Hrows).
    destruct (Forall2_lookup_r _ _ _ _ _ Hrows Hval) as (lo & _ & Hv).
    destruct (cell_val_Ok _ _ _ _ _ _ _ Hv)
      as (? & ? & ? & ? & ? & ? & _ & _ & _ & _ & ->). done. }
  split; [split|].
  - intros [corr Hrun].
    destruct (correlation_mapper_Ok _ _ _ _ corr Hrun)
      as (arr & Ht & Hh & Hw & _ & _ & Hlat & Hlon & _).
    split; [|done]. exists arr. by apply correlation_loop_Ok.
  - intros ([arr Harr] & Hh & Hw & Hlat & Hlon).
    pose proof (proj1 (correlation_loop_Ok _ _ _ _ arr) Harr) as Ht.
    pose proof (table_rect _ _ _ _ arr Ht) as Hr.
    destruct (table_reference _ _ _ _ arr Ht Hh Hw) as [HH HW].
    unfold correlation_mapper, new_corr. rewrite Harr. simpl.
    destruct (store_returns arr 0 _ _ _ _ Hr Hh Hw HH Hlat Hlon (Hlen arr Ht))
      as (a0 & f0 & -> & Hf0); [lia|].
    simpl. rewrite Hf0. simpl.
    destruct (store_returns arr 1 _ _ _ _ Hr Hh Hw HH Hlat Hlon (Hlen arr Ht))
      as (a1 & f1 & -> & Hf1); [lia|].
    simpl. rewrite Hf1. simpl.
    destruct (store_returns arr 2 _ _ _ _ Hr Hh Hw HH Hlat Hlon (Hlen arr Ht))
      as (a2 & f2 & -> & Hf2); [lia|].
    simpl. rewrite Hf2. simpl.
    destruct (store_returns arr 3 _ _ _ _ Hr Hh Hw HH Hlat Hlon (Hlen arr Ht))
      as (a3 & f3 & -> & Hf3); [lia|].
    simpl. rewrite Hf3. simpl. by eexists.
  - intros [arr Harr] Hh Hw Hfit.
    pose proof (proj1 (correlation_loop_Ok _ _ _ _ arr) Harr) as Ht.
    pose proof (table_rect _ _ _ _ arr Ht) as Hr.
    destruct (table_reference _ _ _ _ arr Ht Hh Hw) as [HH HW].
    unfold correlation_mapper, new_corr. rewrite Harr. simpl.
    destruct (last_axis_returns arr 0 _ _ Hr Hh Hw) as [a0 Ha0].
    { intros i j val Hval. rewrite (Hlen arr Ht i j val Hval). lia. }
    rewrite Ha0. simpl.
    destruct (store_all (np_ndarray (length (latitude bare_soil))
                (length (longitude bare_soil))) a0) as [f0|e] eqn:Hf0.
    + exfalso. apply Hfit.
      pose proof (last_axis_Ok _ _ _ Ha0) as (Hrows & _).
      destruct (store_all_Ok _ _ _ _ _ _ _
                  (np_ndarray_rect _ _) HH (Forall2_rows_rect _ _ _ _ _ Hrows Hr) Hh Hf0)
        as (H1 & H2 & _). done.
    + simpl. unfold store_all in Hf0.
      destruct (mapM _ a0 ≫= _); [done|]. by injection Hf0 as <-.
Qed.

End MapperOutcome.

(** ** Selecting a cell by position *)

Lemma py_index_nat (n i : nat) : (i < n)%nat -> py_index n (Z.of_nat i) = Ok i.
Proof.
  intros Hi. unfold py_index.
  rewrite (proj2 (Z.leb_le _ _)) by lia. rewrite (proj2 (Z.ltb_lt _ _)) by lia.
  simpl. by rewrite Nat2Z.id.
Qed.

Lemma py_index_from_end (n i : nat) :
  (i < n)%nat -> py_index n (Z.of_nat i - Z.of_nat n) = Ok i.
Proof.
  intros Hi. unfold py_index.
  rewrite (proj2 (Z.leb_gt _ _)) by lia. simpl.
  rewrite (proj2 (Z.leb_le _ _)) by lia. rewrite (proj2 (Z.ltb_lt _ _)) by lia.
  simpl. f_equal. lia.
Qed.

Lemma py_index_outside (n : nat) (k : Z) :
  k < - Z.of_nat n \/ Z.of_nat n <= k -> py_index n k = Raise IndexError.
Proof.
  intros Hk. unfold py_index.
  destruct Hk as [Hk|Hk].
  - rewrite (proj2 (Z.leb_gt 0 k)) by lia. simpl.
    by rewrite (proj2 (Z.leb_gt _ _)) by lia.
  - rewrite (proj2 (Z.ltb_ge k _)) by lia. rewrite andb_false_r.
    by rewrite (proj2 (Z.ltb_ge k 0)), andb_false_r by lia.
Qed.

Section ByPosition.

Variable a : DataArray.
Variables (i j : nat) (lat lon : Q).

Hypothesis latitudes : NoDup (latitude a).
Hypothesis longitudes : NoDup (longitude a).
Hypothesis at_latitude : latitude a !! i = Some lat.
Hypothesis at_longitude : longitude a !! j = Some lon.

(** X11: On axes without repeated labels, the series selected at a position of
    the grid ([isel]) is the series selected at the labels of that position
    ([sel]), the position may be counted from the end, and a position
    outside an axis is an [IndexError]. *)
Theorem isel_is_sel_at_the_labels :
  isel_cell a (Z.of_nat i) (Z.of_nat j) = sel_cell a lat lon /\
  isel_cell a (Z.of_nat i - Z.of_nat (length (latitude a)))
              (Z.of_nat j - Z.of_nat (length (longitude a)))
  = sel_cell a lat lon /\
  (forall k l : Z,
     k < - Z.of_nat (length (latitude a)) \/ Z.of_nat (length (latitude a)) <= k ->
     isel_cell a k l = Raise IndexError) /\
  (forall l : Z,
     l < - Z.of_nat (length (longitude a)) \/ Z.of_nat (length (longitude a)) <= l ->
     isel_cell a (Z.of_nat i) l = Raise IndexError).
Proof using All.
  pose proof (lookup_lt_Some _ _ _ at_latitude) as Hi.
  pose proof (lookup_lt_Some _ _ _ at_longitude) as Hj.
  unfold isel_cell, sel_cell.
  rewrite (get_loc_NoDup _ _ _ latitudes at_latitude).
  rewrite (get_loc_NoDup _ _ _ longitudes at_longitude).
  rewrite !py_index_nat, !py_index_from_end by done.
  split; [done|]. split; [done|]. split.
  - intros k l Hk. by rewrite (py_index_outside _ k Hk).
  - intros l Hl. simpl. by rewrite (py_index_outside _ l Hl).
Qed.

End ByPosition.

(** ** The maps of the significant coefficients *)


Section Maps.

Variable pearsonr : list float -> list float -> result (float * float).
Variable spearmanr : list float -> list float -> result (float * float).
Variables fine_moisture bare_soil : DataArray.
Variable corr : Dataset.
Variables (i j : nat) (lat lon : Q).

Hypothesis correlated :
  correlation_mapper pearsonr spearmanr fine_moisture bare_soil = Ok corr.
Hypothesis at_latitude : latitude fine_moisture !! i = Some lat.
Hypothesis at_longitude : longitude fine_moisture !! j = Some lon.


End Maps.

(** * The data frame of the two arrays *)

Section Series.

Variable R : float -> float -> Prop.

Lemma alike_app s1 s1' s2 s2' :
  alike R s1 s1' -> alike R s2 s2' -> alike R (s1 ++ s2) (s1' ++ s2').
Proof.
  intros [H1 H2] [H3 H4]. split.
  - rewrite !fmap_app. congruence.
  - rewrite !fmap_app. by apply Forall2_app.
Qed.

Lemma concat_zip_alike {K V} (S : V -> V -> Prop)
    (g : K -> V -> list (label3 * float)) :
  (forall k v v', S v v' -> alike R (g k v) (g k v')) ->
  forall ks vs vs', Forall2 S vs vs' ->
    alike R (concat (zip_with g ks vs)) (concat (zip_with g ks vs')).
Proof.
  intros Hg ks. induction ks as [|k ks IH]; intros vs vs' Hvs.
  - split; [done|constructor].
  - destruct Hvs as [|v v' vs vs' Hv Hvs]; simpl.
    + split; [done|constructor].
    + apply alike_app; [by apply Hg|by apply IH].
Qed.

Lemma row_series_alike t la lons row row' :
  Forall2 R row row' -> alike R (row_series t la lons row) (row_series t la lons row').
Proof.
  unfold row_series. revert row row'.
  induction lons as [|lo lons IH]; intros row row' Hrow.
  - split; [done|constructor].
  - destruct Hrow as [|x x' row row' Hx Hrow]; simpl.
    + split; [done|constructor].
    + destruct (IH _ _ Hrow) as [H1 H2]. split; simpl; [by f_equal|by constructor].
Qed.

Lemma to_series_alike (a a' : DataArray) :
  time a = time a' -> latitude a = latitude a' -> longitude a = longitude a' ->
  Forall2 (Forall2 (Forall2 R)) (values a) (values a') ->
  alike R (to_series a) (to_series a').
Proof.
  intros Ht Hlat Hlon Hvals. unfold to_series. rewrite <- Ht, <- Hlat, <- Hlon.
  apply (concat_zip_alike (Forall2 (Forall2 R))); [|done].
  intros t slice slice' Hslice. unfold slice_series.
  apply (concat_zip_alike (Forall2 R)); [|done].
  intros la row row' Hrow. by apply row_series_alike.
Qed.

Lemma rect_Forall2 h w (g g' : grid float) :
  rect h w g -> rect h w g' ->
  (forall i j x y, cell g i j = Some x -> cell g' i j = Some y -> R x y) ->
  Forall2 (Forall2 R) g g'.
Proof.
  intros Hr Hr' Hcells.
  apply Forall2_same_length_lookup_2.
  { by rewrite (rect_length _ _ _ Hr), (rect_length _ _ _ Hr'). }
  intros i row row' Hrow Hrow'.
  apply Forall2_same_length_lookup_2.
  { by rewrite (rect_row _ _ _ _ _ Hr Hrow), (rect_row _ _ _ _ _ Hr' Hrow'). }
  intros j x y Hx Hy. apply (Hcells i j); unfold cell.
  - by rewrite Hrow.
  - by rewrite Hrow'.
Qed.

End Series.

(** Where a missing entry of the first column always comes with a missing
    entry of the second one, [dropna] keeps the rows whose second entry is
    there. *)
Lemma dropna_second (index : list label3) (bs fs : list float) :
  Forall2 (fun b f => isnan b = true -> isnan f = true) bs fs ->
  dropna (zip index (zip bs fs))
  = List.filter (fun row => negb (isnan row.2.2)) (zip index (zip bs fs)).
Proof.
  intros Hrel. revert index.
  induction Hrel as [|b f bs fs Hbf Hrel IH]; intros [|l index]; try done.
  unfold dropna in *. simpl. rewrite IH.
  destruct (isnan f) eqn:Hf; [by rewrite orb_true_r|].
  destruct (isnan b) eqn:Hb; [by specialize (Hbf eq_refl)|done].
Qed.

Section Frame.

Variable spline : nat -> grid Q -> nat * nat -> nat -> nat -> Q.
Variable SPLINE_ORDER : nat.
Variables bare_soil soil_moisture : DataArray.

Hypothesis inputs : resamplable SPLINE_ORDER bare_soil soil_moisture.
Hypothesis same_stamps : time soil_moisture = time bare_soil.

(** X13: The frame of [bare_soil] and the resampled array, when the two source
    arrays have the same time axis: the two series have the same labels, so
    a row pairs the two values of one cell at one time; a row survives
    [dropna] exactly when the resampled value is there, the reference being
    missing only where the resampled array is; and the columns left have no
    missing value, which is what the statistics over the whole data set are
    computed from. *)
Theorem frame_keeps_the_resampled_cells :
  exists fine_moisture df,
    grid_aligner spline SPLINE_ORDER bare_soil soil_moisture = Ok fine_moisture /\
    dataframe bare_soil fine_moisture = Ok df /\
    df.*1 = (to_series bare_soil).*1 /\
    df.*1 = (to_series fine_moisture).*1 /\
    df.*2.*1 = (to_series bare_soil).*2 /\
    df.*2.*2 = (to_series fine_moisture).*2 /\
    dropna df = List.filter (fun row => negb (isnan row.2.2)) df /\
    Forall (fun row => isnan row.2.1 = false /\ isnan row.2.2 = false) (dropna df).
Proof using All.
  destruct (grid_aligner_Ok spline _ _ _ inputs) as (fine & Hrun & Hst & Hslices).
  pose proof Hst as (Ht & Hlat & Hlon & Hlen & Hall).
  pose proof inputs as [_ Hb Hs _ Hnd Hndb _ _ _].
  set (R := fun b f : float => isnan b = true -> isnan f = true).
  assert (Forall2 (Forall2 (Forall2 R)) (values bare_soil) (values fine)) as Hvals.
  { apply Forall2_same_length_lookup_2.
    { destruct Hb as [-> _]. by rewrite Hlen, same_stamps. }
    intros k hi s Hhi Hk.
    destruct (lookup_lt_is_Some_2 (time soil_moisture) k) as [ts Hts].
    { rewrite <- Hlen. by eapply lookup_lt_Some. }
    destruct (lookup_lt_is_Some_2 (values soil_moisture) k) as [data Hdata].
    { destruct Hs as [-> _]. by eapply lookup_lt_Some. }
    pose proof (wf_slice _ _ _ Hs Hdata) as Hrd.
    destruct (Hslices k ts data Hts Hdata) as (s' & Hfor & Hk').
    rewrite Hk in Hk'. injection Hk' as <-.
    apply (rect_Forall2 R (length (latitude bare_soil)) (length (longitude bare_soil))).
    - by eapply wf_slice.
    - by eapply (Forall_lookup_1 _ _ _ _ Hall Hk).
    - intros i j x y Hx Hy.
      destruct (cell_rect_lt _ _ _ _ _ _ (wf_slice _ _ _ Hb Hhi) Hx) as [Hi Hj].
      destruct (slice_for_cell spline _ _ _ inputs ts data s i j Hrd Hfor Hi Hj)
        as (zoom & hi' & output & m & x' & q & _ & Hhi' & _ & _ & Hx' & _ & Hc).
      assert (hi' = hi) as ->.
      { unfold sel_time in Hhi'. rewrite same_stamps in Hts.
        rewrite (get_loc_NoDup _ _ _ Hndb Hts) in Hhi'. simpl in Hhi'.
        apply item_inv in Hhi'. congruence. }
      rewrite Hx in Hx'. injection Hx' as <-.
      rewrite Hy in Hc. injection Hc as ->.
      intros Hnan. by rewrite Hnan, orb_true_r. }
  destruct (to_series_alike R bare_soil fine) as [Hindex Hrel];
    [congruence|done|done|done|].
  assert (dataframe bare_soil fine
          = Ok (zip (to_series bare_soil).*1
                  (zip (to_series bare_soil).*2 (to_series fine).*2))) as Hdf.
  { unfold dataframe. destruct (to_series bare_soil) as [|entry first] eqn:Hfirst.
    - symmetry in Hindex. apply fmap_nil_inv in Hindex. by rewrite Hindex.
    - unfold reindex. by rewrite decide_True. }
  assert (length (to_series bare_soil).*2 = length (to_series fine).*2) as Hl2
    by (by eapply Forall2_length).
  assert (length (to_series bare_soil).*1 = length (to_series bare_soil).*2) as Hl1
    by (by rewrite !length_fmap).
  eexists fine, _. split; [done|]. split; [exact Hdf|].
  assert ((zip (to_series bare_soil).*1
             (zip (to_series bare_soil).*2 (to_series fine).*2)).*1
          = (to_series bare_soil).*1) as Hfst.
  { apply fst_zip. rewrite length_zip. lia. }
  assert ((zip (to_series bare_soil).*1
             (zip (to_series bare_soil).*2 (to_series fine).*2)).*2
          = zip (to_series bare_soil).*2 (to_series fine).*2) as Hsnd.
  { apply snd_zip. rewrite length_zip. lia. }
  split; [done|]. split; [congruence|].
  split; [rewrite Hsnd; apply fst_zip; lia|].
  split; [rewrite Hsnd; apply snd_zip; lia|].
  split; [by apply dropna_second|].
  unfold dropna. apply Forall_forall. intros row Hin.
  apply list_elem_of_In, filter_In in Hin as [_ Hrow].
  apply negb_true_iff, orb_false_iff in Hrow. done.
Qed.

End Frame.

(** * Closed examples of the further properties *)

Import Sample.

(** X1 on an example.
    The two-year example, with the linear spline: a 2 x 2 source on a 4 x 4
    reference. *)
Lemma resampled_array_is_well_formed_witness :
  resamplable 1 bare_soil soil_moisture /\
  exists fine_moisture,
    grid_aligner Standin.linear 1 bare_soil soil_moisture = Ok fine_moisture /\
    wf fine_moisture /\
    output_shape (2, 2)%nat (4 # 2, 4 # 2)%Q
    = (length (latitude fine_moisture), length (longitude fine_moisture)).
Proof.
  assert (resamplable 1 bare_soil soil_moisture) as Hin by checked.
  split; [exact Hin|].
  destruct (resampled_array_is_well_formed Standin.linear 1 _ _ Hin)
    as (fine & zoom & Hrun & _ & _ & _ & Hwf & Hzoom & Hshape).
  exists fine. split; [exact Hrun|]. split; [exact Hwf|].
  assert (zoom = (4 # 2, 4 # 2)%Q) as <-; [|exact Hshape].
  vm_compute in Hzoom. by injection Hzoom as <-.
Defined.

(** X2 on an example.
    The two-year example runs, so its inputs are as the cell needs them. *)
Lemma grid_aligner_returns_only_if_witness :
  exists fine_moisture,
    grid_aligner Standin.linear 1 bare_soil soil_moisture = Ok fine_moisture /\
    NoDup (time soil_moisture) /\
    Forall (fun ts => exists k, get_loc (time bare_soil) ts = Ok k) (time soil_moisture).
Proof.
  run_as fine Hrun (grid_aligner Standin.linear 1 bare_soil soil_moisture).
  destruct (grid_aligner_returns_only_if Standin.linear 1 _ _ _ Hrun)
    as (_ & _ & _ & Hnd & Hall & _).
  exists fine. split; [exact Hrun|]. split; [exact Hnd|exact Hall].
Defined.

(** X4 on an example.
    The second year of [soil_other_year] is not a year of [bare_soil]; its
    first year is. *)
Lemma missing_stamp_is_a_KeyError_witness :
  length (time soil_other_year) = length (time bare_soil) /\
  (5 ∉ time bare_soil) /\
  grid_aligner Standin.linear 1 bare_soil soil_other_year = Raise KeyError.
Proof.
  split; [reflexivity|]. split; [compute_done|].
  apply (missing_stamp_is_a_KeyError Standin.linear 1 bare_soil soil_other_year)
    with (pre := [0]) (ts := 5) (rest := []); compute_done.
Defined.

(** X5 on an example.
    The reference in percent and the reference divided by 100 give one
    resampled array. *)
Lemma reference_values_do_not_matter_witness :
  values bare_soil <> values bare_soil_percent /\
  grid_aligner Standin.linear 1 bare_soil soil_moisture
  = grid_aligner Standin.linear 1 bare_soil_percent soil_moisture.
Proof.
  split; [discriminate|].
  apply reference_values_do_not_matter; [checked|checked|reflexivity..].
Defined.

(** X6 on an example.
    The array with a negative and a missing value: the second pass changes
    nothing. *)
Lemma resample_own_grid_twice_witness :
  resamplable 0 own_grid own_grid /\
  exists fine,
    grid_aligner Standin.linear 0 own_grid own_grid = Ok fine /\
    grid_aligner Standin.linear 0 fine fine = Ok fine /\
    values fine <> values own_grid.
Proof.
  assert (resamplable 0 own_grid own_grid) as Hin by checked.
  split; [exact Hin|].
  destruct (resample_own_grid_twice Standin.linear _ Hin) as (fine & Hrun & Hagain).
  exists fine. split; [exact Hrun|]. split; [exact Hagain|].
  vm_compute in Hrun. injection Hrun as <-. discriminate.
Defined.

(** X7 on an example.
    Fifteen rows onto twenty-six: the step is the binary64 number next to
    14 / 25, which is above it, so the last sample is beyond row 14; the
    gap in row 14 of the source reaches no row of the output, and row 25
    holds zero. *)
Lemma sample_outside_source_reads_nothing_witness :
  resamplable 0 bare_26 soil_15 /\
  nearest 15 26 25 = None /\
  missing [[N 1]; [N 1]; [N 1]; [N 1]; [N 1]; [N 1]; [N 1]; [N 1]; [N 1]; [N 1];
           [N 1]; [N 1]; [N 1]; [N 1]; [NaN]] 14 0 /\
  exists fine_moisture s,
    grid_aligner Standin.linear 0 bare_26 soil_15 = Ok fine_moisture /\
    values fine_moisture !! 0%nat = Some s /\
    cell s 25 0 = Some (Num 0) /\
    forall i, ~ missing s i 0.
Proof.
  assert (resamplable 0 bare_26 soil_15) as Hin by checked.
  assert (nearest 15 26 25 = None) as Hout by (vm_compute; reflexivity).
  split; [exact Hin|]. split; [exact Hout|]. split; [reflexivity|].
  destruct (sample_outside_source_reads_nothing Standin.linear 0 bare_26 soil_15
              25 0 Hin) as (fine & Hrun & Hcells);
    [simpl; lia|simpl; lia|by left|].
  destruct (Hcells 0%nat 0 _ eq_refl eq_refl) as (hi & s & x & Hhi & Hs & Hx & _ & Hzero).
  exists fine, s. split; [exact Hrun|]. split; [exact Hs|].
  vm_compute in Hhi. injection Hhi as <-.
  vm_compute in Hx. injection Hx as <-.
  split; [exact (Hzero eq_refl)|].
  vm_compute in Hrun. injection Hrun as <-.
  vm_compute in Hs. injection Hs as <-.
  intros i. unfold missing.
  do 26 (destruct i as [|i]; [vm_compute; discriminate|]).
  vm_compute. discriminate.
Defined.

(** X8 on an example.
    Arrays without a cell. *)
Lemma empty_grid_is_an_IndexError_witness :
  latitude no_cells = [] /\
  correlation_mapper Standin.pearsonr Standin.spearmanr no_cells no_cells
  = Raise IndexError.
Proof.
  split; [reflexivity|].
  apply empty_grid_is_an_IndexError. by left.
Defined.

(** X9 on an example.
    [bare_shifted] does not have the second longitude of [fine_3]: the first
    cell returns, the second one is a [KeyError], and so is the run. *)
Lemma first_failing_cell_decides_witness :
  returns (cell_val Standin.pearsonr Standin.spearmanr fine_3 bare_shifted 0%Q 0%Q) /\
  cell_val Standin.pearsonr Standin.spearmanr fine_3 bare_shifted 0%Q 1%Q
  = Raise KeyError /\
  correlation_mapper Standin.pearsonr Standin.spearmanr fine_3 bare_shifted
  = Raise KeyError.
Proof.
  assert (returns (cell_val Standin.pearsonr Standin.spearmanr fine_3 bare_shifted 0%Q 0%Q))
    as Hfirst by (vm_compute; by eexists).
  split; [exact Hfirst|]. split; [vm_compute; reflexivity|].
  apply (first_failing_cell_decides Standin.pearsonr Standin.spearmanr
           fine_3 bare_shifted [] 0%Q [] [0%Q] 1%Q []).
  - reflexivity.
  - reflexivity.
  - intros la lo Hla. by apply elem_of_nil in Hla.
  - intros lo Hlo. apply list_elem_of_singleton in Hlo as ->. exact Hfirst.
  - vm_compute; reflexivity.
Defined.

(** X10 on an example.
    [fine_3] has one latitude and [bare_two_rows] two: the loop makes a
    table of one row, and each store repeats that row over the two rows
    of its buffer. *)
Lemma correlation_mapper_returns_iff_witness :
  length (latitude fine_3) = 1%nat /\
  length (latitude bare_two_rows) = 2%nat /\
  exists corr,
    correlation_mapper Standin.pearsonr Standin.spearmanr fine_3 bare_two_rows
    = Ok corr /\
    cell (pearson_r corr) 0 1 = Some (Stored (N 1)) /\
    cell (pearson_r corr) 1 1 = Some (Stored (N 1)).
Proof.
  split; [reflexivity|]. split; [reflexivity|].
  destruct (proj2 (proj1 (correlation_mapper_returns_iff
                            Standin.pearsonr Standin.spearmanr fine_3 bare_two_rows)))
    as [corr Hrun].
  { split; [vm_compute; by eexists|]. simpl.
    split; [lia|]. split; [lia|]. split; [by right|by left]. }
  exists corr. split; [exact Hrun|].
  vm_compute in Hrun. injection Hrun as <-. split; reflexivity.
Defined.

(** X11 on an example.
    A cell of the two-year example, by position from the start and from the
    end. *)
Lemma isel_is_sel_at_the_labels_witness :
  isel_cell bare_soil 1 3 = sel_cell bare_soil 1%Q 3%Q /\
  isel_cell bare_soil (-3) (-1) = sel_cell bare_soil 1%Q 3%Q /\
  isel_cell bare_soil 100 100 = Raise IndexError.
Proof.
  destruct (isel_is_sel_at_the_labels bare_soil 1 3 1%Q 3%Q)
    as (Hstart & Hend & Hout & _); [compute_done|compute_done|reflexivity|reflexivity|].
  split; [exact Hstart|]. split; [exact Hend|].
  apply Hout. right. simpl. lia.
Defined.


(** X13 on an example.
    The two-year example: the two arrays have the same years. *)
Lemma frame_keeps_the_resampled_cells_witness :
  resamplable 1 bare_soil soil_moisture /\
  exists fine_moisture df,
    grid_aligner Standin.linear 1 bare_soil soil_moisture = Ok fine_moisture /\
    dataframe bare_soil fine_moisture = Ok df /\
    length df = 32%nat /\
    dropna df = List.filter (fun row => negb (isnan row.2.2)) df.
Proof.
  assert (resamplable 1 bare_soil soil_moisture) as Hin by checked.
  split; [exact Hin|].
  destruct (frame_keeps_the_resampled_cells Standin.linear 1 _ _ Hin eq_refl)
    as (fine & df & Hrun & Hdf & Hindex & _ & _ & _ & Hdrop & _).
  exists fine, df. split; [exact Hrun|]. split; [exact Hdf|]. split; [|exact Hdrop].
  rewrite <- (length_fmap fst df), Hindex. reflexivity.
Defined.
